(** * context-aggregator: a shallow embedding of the loading and optimization pipeline

    The development follows the TypeScript sources:
    - [ContextOptimizer]  (src/services/ContextOptimizer.ts)
    - [RelevanceScorer]   (services/RelevanceScorer.ts)
    - [FocusedLoadingStrategy], [ProgressiveLoadingStrategy],
      [BreadthFirstLoadingStrategy] (strategies/...)

    Conventions of the embedding.
    - A JavaScript string is a list of characters ([str]); a character is a
      code unit below 256.  [length] is the JavaScript [.length].
    - Token counts, budgets and depths are integers ([Z]); a budget may be
      negative, as a JavaScript [number] may.  [x || d] on a number is
      [orDefault]: the default replaces an absent value and the value 0.
    - Relevance scores are exact rationals ([Q]): rounding of the IEEE
      doubles is not modelled.
    - The file system, the project analyzer and the platform's [RegExp] on
      caller-supplied patterns are collaborators: they are parameters.
      A rejected promise or thrown error is [Err]. *)

From Stdlib Require Import ZArith QArith Qminmax List Ascii String Bool Lia Lqa.
From Stdlib Require Import Permutation Sorted.
Import ListNotations.

Set Warnings "-register-all".

Open Scope Z_scope.

(* ================================================================== *)
(** * Strings *)
(* ================================================================== *)

Definition str := list ascii.

Definition lit (s : string) : str := list_ascii_of_string s.
Coercion lit : string >-> str.

(** String literals without the notations of [string_scope], so that [++]
    stays the append of lists. *)
Declare Scope str_scope.
Delimit Scope str_scope with str.
String Notation string string_of_list_byte list_byte_of_string : str_scope.
Bind Scope str_scope with str.
Open Scope str_scope.

Module Str.

Definition nl : ascii := ascii_of_nat 10.
Definition tab : ascii := ascii_of_nat 9.
Definition space : ascii := ascii_of_nat 32.
Definition dquote : ascii := ascii_of_nat 34.
Definition backtick : ascii := ascii_of_nat 96.

Definition len (s : str) : Z := Z.of_nat (List.length s).

Definition isEmpty (s : str) : bool :=
  match s with [] => true | _ => false end.

(** JavaScript truthiness of a string: non-empty. *)
Definition truthy (s : str) : bool := negb (isEmpty s).

Definition inRange (lo hi : nat) (c : ascii) : bool :=
  let n := nat_of_ascii c in (Nat.leb lo n && Nat.leb n hi)%bool.

(** [\s]: tab, line feed, vertical tab, form feed, carriage return, space,
    and the no-break space. *)
Definition isSpace (c : ascii) : bool :=
  let n := nat_of_ascii c in
  (inRange 9 13 c || Nat.eqb n 32 || Nat.eqb n 160)%bool.

Definition isUpper (c : ascii) : bool := inRange 65 90 c.
Definition isLower (c : ascii) : bool := inRange 97 122 c.
Definition isDigit (c : ascii) : bool := inRange 48 57 c.

(** [\w] *)
Definition isWord (c : ascii) : bool :=
  (isUpper c || isLower c || isDigit c || Ascii.eqb c "_")%bool.

Definition lowerChar (c : ascii) : ascii :=
  if isUpper c then ascii_of_nat (nat_of_ascii c + 32) else c.

Definition toLowerCase (s : str) : str := map lowerChar s.

Fixpoint eqb (a b : str) : bool :=
  match a, b with
  | [], [] => true
  | x :: a', y :: b' => (Ascii.eqb x y && eqb a' b')%bool
  | _, _ => false
  end.

Fixpoint startsWith (p s : str) : bool :=
  match p, s with
  | [], _ => true
  | x :: p', y :: s' => (Ascii.eqb x y && startsWith p' s')%bool
  | _ :: _, [] => false
  end.

Definition endsWith (p s : str) : bool := startsWith (rev p) (rev s).

Fixpoint includes (p s : str) : bool :=
  (startsWith p s ||
   match s with
   | [] => false
   | _ :: s' => includes p s'
   end)%bool.

Fixpoint dropWhile (f : ascii -> bool) (s : str) : str :=
  match s with
  | [] => []
  | c :: s' => if f c then dropWhile f s' else s
  end.

Fixpoint takeWhile (f : ascii -> bool) (s : str) : str :=
  match s with
  | [] => []
  | c :: s' => if f c then c :: takeWhile f s' else []
  end.

Definition trimStart (s : str) : str := dropWhile isSpace s.
Definition trimEnd (s : str) : str := rev (dropWhile isSpace (rev s)).
Definition trim (s : str) : str := trimEnd (trimStart s).

(** [s.split(sep)] for a one-character separator: never the empty array. *)
Fixpoint split (sep : ascii) (s : str) : list str :=
  match s with
  | [] => [[]]
  | c :: s' =>
      if Ascii.eqb c sep then [] :: split sep s'
      else match split sep s' with
           | [] => [[c]]
           | w :: ws => (c :: w) :: ws
           end
  end.

Fixpoint join (sep : str) (l : list str) : str :=
  match l with
  | [] => []
  | [w] => w
  | w :: l' => w ++ sep ++ join sep l'
  end.

(** [s.substring(0, n)] *)
Definition substring0 (n : nat) (s : str) : str := firstn n s.

(** The words of [content.split(/[\s\n]+/)] that pass [if (!word) continue]:
    the maximal runs of non-blank characters. *)
Fixpoint wordsAux (cur : str) (s : str) : list str :=
  match s with
  | [] => match cur with [] => [] | _ => [rev cur] end
  | c :: s' =>
      if isSpace c
      then match cur with
           | [] => wordsAux [] s'
           | _ => rev cur :: wordsAux [] s'
           end
      else wordsAux (c :: cur) s'
  end.

Definition words (s : str) : list str := wordsAux [] s.

Definition count (f : ascii -> bool) (s : str) : Z :=
  Z.of_nat (List.length (filter f s)).

(** [arr.slice(start)] of JavaScript: a negative start counts from the end;
    [-0] is [0], so [slice(-0)] is the whole array. *)
Definition sliceFrom {A : Type} (start : Z) (l : list A) : list A :=
  let n := Z.of_nat (List.length l) in
  if start <? 0 then skipn (Z.to_nat (Z.max (n + start) 0)) l
  else skipn (Z.to_nat (Z.min start n)) l.

(** First occurrences, as [Array.from(new Set(lines))]. *)
Fixpoint dedupAux (seen : list str) (l : list str) : list str :=
  match l with
  | [] => []
  | x :: l' =>
      if existsb (eqb x) seen then dedupAux seen l'
      else x :: dedupAux (x :: seen) l'
  end.

Definition dedup (l : list str) : list str := dedupAux [] l.

End Str.

(** [Math.ceil(a / b)] for a non-negative [a] and a positive [b]. *)
Definition ceilDiv (a b : Z) : Z := (a + b - 1) / b.

(** [x || d] on an optional number: [undefined] and [0] give the default. *)
Definition orDefault (x : option Z) (d : Z) : Z :=
  match x with
  | Some v => if v =? 0 then d else v
  | None => d
  end.

(* ================================================================== *)
(** * [Array.prototype.sort] *)
(* ================================================================== *)

(** The sort of ECMAScript is stable: with a consistent comparator an
    element stays before every later element that need not precede it.
    [after a b] says that [compareFn(a, b) > 0]: [a] goes after [b].
    Insertion from the right gives the stable order. *)
Fixpoint insertBy {A : Type} (after : A -> A -> bool) (x : A) (l : list A)
  : list A :=
  match l with
  | [] => [x]
  | y :: l' => if after x y then y :: insertBy after x l' else x :: l
  end.

Fixpoint sortBy {A : Type} (after : A -> A -> bool) (l : list A) : list A :=
  match l with
  | [] => []
  | x :: l' => insertBy after x (sortBy after l')
  end.

(* ================================================================== *)
(** * Regular expressions of the sources, by derivatives *)
(* ================================================================== *)

Module Regex.

Inductive regex : Type :=
| Never : regex
| Eps : regex
| Class : (ascii -> bool) -> regex
| Seq : regex -> regex -> regex
| Alt : regex -> regex -> regex
| Star : regex -> regex.

Fixpoint nullable (r : regex) : bool :=
  match r with
  | Never => false
  | Eps => true
  | Class _ => false
  | Seq a b => (nullable a && nullable b)%bool
  | Alt a b => (nullable a || nullable b)%bool
  | Star _ => true
  end.

Definition seq (a b : regex) : regex :=
  match a, b with
  | Never, _ => Never
  | _, Never => Never
  | Eps, _ => b
  | _, Eps => a
  | _, _ => Seq a b
  end.

Definition alt (a b : regex) : regex :=
  match a, b with
  | Never, _ => b
  | _, Never => a
  | _, _ => Alt a b
  end.

Fixpoint deriv (c : ascii) (r : regex) : regex :=
  match r with
  | Never => Never
  | Eps => Never
  | Class p => if p c then Eps else Never
  | Seq a b =>
      if nullable a then alt (seq (deriv c a) b) (deriv c b)
      else seq (deriv c a) b
  | Alt a b => alt (deriv c a) (deriv c b)
  | Star a => seq (deriv c a) (Star a)
  end.

(** The whole of [s] is in the language of [r]. *)
Fixpoint matchesAll (r : regex) (s : str) : bool :=
  match s with
  | [] => nullable r
  | c :: s' => matchesAll (deriv c r) s'
  end.

Definition anyChar : regex := Class (fun _ => true).
(** [.] : anything but a line terminator. *)
Definition dot : regex :=
  Class (fun c => negb (Ascii.eqb c Str.nl || Nat.eqb (nat_of_ascii c) 13)).
Definition ws : regex := Class Str.isSpace.
Definition wordChar : regex := Class Str.isWord.
Definition nonWordChar : regex := Class (fun c => negb (Str.isWord c)).
Definition chr (c : ascii) : regex := Class (Ascii.eqb c).
(** One character, compared without case (flag [i]). *)
Definition chrI (c : ascii) : regex :=
  Class (fun d => Ascii.eqb (Str.lowerChar d) (Str.lowerChar c)).

Fixpoint word (s : str) : regex :=
  match s with
  | [] => Eps
  | c :: s' => Seq (chr c) (word s')
  end.

Fixpoint wordI (s : str) : regex :=
  match s with
  | [] => Eps
  | c :: s' => Seq (chrI c) (wordI s')
  end.

Definition plus (r : regex) : regex := Seq r (Star r).
Definition opt (r : regex) : regex := Alt Eps r.

Fixpoint alts (l : list regex) : regex :=
  match l with
  | [] => Never
  | [r] => r
  | r :: l' => Alt r (alts l')
  end.

Fixpoint seqs (l : list regex) : regex :=
  match l with
  | [] => Eps
  | [r] => r
  | r :: l' => Seq r (seqs l')
  end.

(** [r{n,}] *)
Fixpoint atLeast (n : nat) (r : regex) : regex :=
  match n with
  | O => Star r
  | S n' => Seq r (atLeast n' r)
  end.

(** [r{1,n}] for [n >= 1] *)
Fixpoint upTo (n : nat) (r : regex) : regex :=
  match n with
  | O => Never
  | S O => r
  | S n' => Seq r (opt (upTo n' r))
  end.

(** [/r/.test(s)]: some substring matches. *)
Definition test (r : regex) (s : str) : bool :=
  matchesAll (Seq (Star anyChar) (Seq r (Star anyChar))) s.

(** [/^r/.test(s)] *)
Definition testStart (r : regex) (s : str) : bool :=
  matchesAll (Seq r (Star anyChar)) s.

(** [/^r$/.test(s)] *)
Definition testWhole (r : regex) (s : str) : bool := matchesAll r s.

(** [/\br/.test(s)] for an [r] that starts with a word character: the match
    starts the input or follows a non-word character. *)
Definition testWordStart (r : regex) (s : str) : bool :=
  matchesAll
    (Seq (Alt Eps (Seq (Star anyChar) nonWordChar)) (Seq r (Star anyChar))) s.

(** The capture of the leftmost match of [/lit\s+(\w+)post/] (with
    [needWs = false]: of [/lit(\w+)post/]).  [\s] and [\w] are disjoint, so
    the greedy match is the only one. *)
Definition captureHere (l : str) (needWs : bool) (post : regex) (s : str)
  : option str :=
  if Str.startsWith l s then
    let rest := skipn (List.length l) s in
    let afterWs := Str.dropWhile Str.isSpace rest in
    if (needWs && Nat.eqb (List.length afterWs) (List.length rest))%bool
    then None
    else
      let body := if needWs then afterWs else rest in
      let cap := Str.takeWhile Str.isWord body in
      match cap with
      | [] => None
      | _ => if testStart post (skipn (List.length cap) body)
             then Some cap else None
      end
  else None.

Fixpoint capture (l : str) (needWs : bool) (post : regex) (s : str)
  : option str :=
  match captureHere l needWs post s with
  | Some c => Some c
  | None => match s with
            | [] => None
            | _ :: s' => capture l needWs post s'
            end
  end.

End Regex.

(* ================================================================== *)
(** * ContextOptimizer (src/services/ContextOptimizer.ts) *)
(* ================================================================== *)

(** A JavaScript number that may come from a division: the quotient of two
    integers is a rational, except over zero. *)
Inductive jsnum : Type :=
| Finite : Q -> jsnum
| NaN : jsnum
| PosInfinity : jsnum.

Module Optimizer.
Import Str Regex.

Definition AVERAGE_CHARS_PER_TOKEN : Z := 4.
Definition DEFAULT_MAX_TOKENS : Z := 8000.

Inductive OptimizationStrategy : Type :=
| Summarize | Selective | Compress.

Record OptimizationResult : Type := {
  originalContent : str;
  optimizedContent : str;
  originalTokens : Z;
  optimizedTokens : Z;
  reduction : Q;
  strategy : OptimizationStrategy
}.

Record ChunkMetadata : Type := {
  hasCode : bool;
  hasDocumentation : bool;
  language : str
}.

Record ContextChunk : Type := {
  content : str;
  index : Z;
  tokenCount : Z;
  metadata : ChunkMetadata
}.

Record TokenInfo : Type := {
  totalTokens : Z;
  breakdown : list (str * jsnum);
  estimatedCost : Q;
  withinLimit : bool
}.

(** ** Helper predicates *)

(** [/[_${}()[\]<>]/.test(word) || /^[A-Z_]+$/.test(word)] *)
Definition isCodeChar (c : ascii) : bool :=
  existsb (Ascii.eqb c) (lit "_${}()[]<>").

Definition isCodeToken (w : str) : bool :=
  (existsb isCodeChar w
   || testWhole (plus (Class (fun c => isUpper c || Ascii.eqb c "_"))) w)%bool.

(** The punctuation class of [estimateTokenCount]: . , ; : ! ? ( ) [ ] { }
    and the three quote characters (double, single, backtick). *)
Definition isPunctuation (c : ascii) : bool :=
  (existsb (Ascii.eqb c) (lit ".,;:!?()[]{}'")
   || Ascii.eqb c dquote || Ascii.eqb c backtick)%bool.

Definition fence : str := [backtick; backtick; backtick].

(** [content.includes('```') || /^\s{4,}/.test(content)] *)
Definition isCodeBlock (content : str) : bool :=
  (includes fence content || testStart (atLeast 4 ws) content)%bool.

(** [/^(\s*\/\/|\s*\/\*|\s*#)/] *)
Definition isComment (content : str) : bool :=
  testStart (alts [Seq (Star ws) (word "//");
                   Seq (Star ws) (word "/*");
                   Seq (Star ws) (word "#")]) content.

(** [/^(\s*\*\s|#{1,6}\s|>\s)/] *)
Definition isDocumentation (content : str) : bool :=
  testStart (alts [seqs [Star ws; chr "*"; ws];
                   Seq (upTo 6 (chr "#")) ws;
                   Seq (chr ">") ws]) content.

(** [/^#{1,6}\s/ || /^={3,}$/ || /^-{3,}$/] *)
Definition isSectionMarker (line : str) : bool :=
  (testStart (Seq (upTo 6 (chr "#")) ws) line
   || testWhole (atLeast 3 (chr "=")) line
   || testWhole (atLeast 3 (chr "-")) line)%bool.

(** [/```|^\s{4,}|export\s|import\s|function\s|class\s|const\s|let\s|var\s/] *)
Definition containsCode (content : str) : bool :=
  (test (word fence) content
   || testStart (atLeast 4 ws) content
   || test (alts [Seq (word "export") ws; Seq (word "import") ws;
                  Seq (word "function") ws; Seq (word "class") ws;
                  Seq (word "const") ws; Seq (word "let") ws;
                  Seq (word "var") ws]) content)%bool.

(** [/^#{1,6}\s|^\*\s|^>\s|@param|@returns|@throws/] *)
Definition containsDocumentation (content : str) : bool :=
  (testStart (alts [Seq (upTo 6 (chr "#")) ws; Seq (chr "*") ws;
                    Seq (chr ">") ws]) content
   || test (alts [word "@param"; word "@returns"; word "@throws"]) content)%bool.

Definition detectLanguage (content : str) : str :=
  match capture fence false Eps content with
  | Some lang => lang
  | None =>
      if (testWordStart (seqs [word "import"; ws; Star dot; word "from"; ws])
            content
          || test (alts [Seq (word "export") ws;
                         seqs [word "const"; ws; Star dot; chr "="; ws;
                               Star dot; word "require"]]) content)%bool
      then lit "javascript"
      else if (testWordStart (Seq (word "interface") ws) content
               || test (alts [seqs [word "type"; ws; Star dot; chr "="];
                              seqs [chr ":"; Star ws;
                                    alts [word "string"; word "number";
                                          word "boolean"]]]) content)%bool
      then lit "typescript"
      else if (testWordStart (Seq (word "def") ws) content
               || test (alts [seqs [word "import"; ws; Star dot; chr nl];
                              seqs [word "from"; ws; Star dot; word "import"]])
                    content)%bool
      then lit "python"
      else if (testWordStart (Seq (word "package") ws) content
               || test (alts [Seq (word "func") ws;
                              seqs [word "var"; ws; Star dot; word "string"]])
                    content)%bool
      then lit "go"
      else lit "unknown"
  end.

Fixpoint firstSome {A : Type} (l : list (option A)) : option A :=
  match l with
  | [] => None
  | Some a :: _ => Some a
  | None :: l' => firstSome l'
  end.

Definition extractFunctionName (content : str) : option str :=
  firstSome
    [capture (lit "function") true Eps content;
     capture (lit "const") true (Seq (Star ws) (chr "=")) content;
     capture (lit "class") true Eps content;
     capture (lit "def") true Eps content;
     capture (lit "func") true Eps content].

(** ** Token estimation *)

Definition wordCost (w : str) : Z :=
  if isCodeToken w then ceilDiv (len w) 3
  else if len w <=? 4 then 1
  else ceilDiv (len w) AVERAGE_CHARS_PER_TOKEN.

(** [Math.ceil(punctuationCount * 0.3)] is [ceil (3 * count / 10)]. *)
Definition estimateTokenCount (content : str) : Z :=
  fold_left (fun tokenCount w => tokenCount + wordCost w) (words content) 0
  + ceilDiv (3 * count isPunctuation content) 10.

(** [(tokens / 1000) * costPer1kTokens] *)
Definition estimateCost (tokens : Z) : Q :=
  (inject_Z tokens / 1000) * (1 # 100).

(** ** Sections *)

Record SplitState : Type := {
  sections : list str;
  currentSection : str;
  inCodeBlock : bool
}.

Definition pushTrimmed (secs : list str) (cur : str) : list str :=
  if truthy (trim cur) then secs ++ [trim cur] else secs.

Definition splitStep (st : SplitState) (line : str) : SplitState :=
  let inCode :=
    if startsWith fence line then negb (inCodeBlock st) else inCodeBlock st in
  if (negb inCode && isSectionMarker line)%bool
  then {| sections := pushTrimmed (sections st) (currentSection st);
          currentSection := line;
          inCodeBlock := inCode |}
  else {| sections := sections st;
          currentSection :=
            currentSection st
              ++ (if truthy (currentSection st) then [nl] else []) ++ line;
          inCodeBlock := inCode |}.

Definition splitIntoSections (content : str) : list str :=
  let st := fold_left splitStep (split nl content)
              {| sections := []; currentSection := []; inCodeBlock := false |} in
  pushTrimmed (sections st) (currentSection st).

(** ** Importance and relevance of a section *)

Definition calculateSectionImportance (section : str) : Z :=
  (if testStart (Seq (upTo 3 (chr "#")) ws) section then 10 else 0)
  + (if isCodeBlock section then 8 else 0)
  + (if test (seqs [wordI "export"; plus ws;
                    alts [wordI "interface"; wordI "class"; wordI "function";
                          wordI "const"]]) section then 7 else 0)
  + (if test (alts [wordI "error"; wordI "exception"; wordI "throw";
                    wordI "catch"]) section then 5 else 0)
  + (if isDocumentation section then 3 else 0)
  + (if estimateTokenCount section >? 500 then -2 else 0).

Definition calculateRelevanceScore (section : str) : Z :=
  let score :=
    calculateSectionImportance section
    + (if test (alts [wordI "main"; wordI "primary"; wordI "core"; wordI "key"])
            section then 5 else 0)
    + (if test (alts [wordI "public"; wordI "export"; wordI "api"]) section
       then 4 else 0)
    + (if test (alts [wordI "test"; wordI "spec"; wordI "mock"]) section
       then -3 else 0)
    + (if test (alts [wordI "example"; wordI "sample"; wordI "demo"]) section
       then -2 else 0) in
  Z.max 0 score.

(** [sections.sort((a, b) => key(b) - key(a))] *)
Definition sortDesc {A : Type} (key : A -> Z) (l : list A) : list A :=
  sortBy (fun a b => key a <? key b) l.

Definition prioritizeSections (secs : list str) : list str :=
  sortDesc calculateSectionImportance secs.

(** ** Summaries *)

Definition nonBlankLines (section : str) : list str :=
  filter (fun line => truthy (trim line)) (split nl section).

(** The loop of the regular summary: a line is kept when it is a section
    marker or fewer than three lines were kept so far. *)
Fixpoint keepSummaryLines (lineCount : Z) (lines : list str) : list str :=
  match lines with
  | [] => []
  | line :: rest =>
      if (isSectionMarker line || (lineCount <? 3))%bool
      then line :: keepSummaryLines (lineCount + 1) rest
      else keepSummaryLines lineCount rest
  end.

Definition summarizeSection (section : str) (veryShort : bool) : str :=
  let lines := nonBlankLines section in
  if veryShort then
    if isCodeBlock section then
      let firstLine :=
        match find (fun line => negb (startsWith fence line)) lines with
        | Some l => l
        | None => []
        end in
      lit "[Code block: " ++ substring0 50 firstLine ++ lit "...]"
    else
      match lines with
      | l0 :: _ => substring0 100 l0 ++ lit "..."
      | [] => lit "undefined..."
      end
  else if isCodeBlock section then
    lit "[" ++ detectLanguage section ++ lit " code"
      ++ match extractFunctionName section with
         | Some name => lit ": " ++ name
         | None => []
         end
      ++ lit "]"
  else join [nl] (keepSummaryLines 0 lines).

(** [result += (result ? '\n\n' : '') + piece] *)
Definition appendPiece (result piece : str) : str :=
  result ++ (if truthy result then [nl; nl] else []) ++ piece.

(** The loop of [summarizeContent] over the prioritized sections. *)
Fixpoint summarizeLoop (maxTokens : Z) (secs : list str)
  (result : str) (currentTokens : Z) : str :=
  match secs with
  | [] => result
  | section :: rest =>
      let summary := summarizeSection section false in
      let summaryTokens := estimateTokenCount summary in
      if currentTokens + summaryTokens >? maxTokens then
        let shorterSummary := summarizeSection section true in
        let shorterTokens := estimateTokenCount shorterSummary in
        if currentTokens + shorterTokens <=? maxTokens
        then appendPiece result shorterSummary
        else result
      else
        summarizeLoop maxTokens rest (appendPiece result summary)
          (currentTokens + summaryTokens)
  end.

Definition summarizeContent (content : str) (maxTokens : Z) : str :=
  summarizeLoop maxTokens (prioritizeSections (splitIntoSections content)) [] 0.

(** ** Selective optimization *)

Record Scored : Type := {
  s_content : str;
  s_score : Z;
  s_tokens : Z
}.

Definition scoreSection (section : str) : Scored :=
  {| s_content := section;
     s_score := calculateRelevanceScore section;
     s_tokens := estimateTokenCount section |}.

(** The packing loop: a section that does not fit is skipped ([continue]). *)
Fixpoint selectLoop (maxTokens : Z) (scored : list Scored)
  (result : str) (currentTokens : Z) : str * Z :=
  match scored with
  | [] => (result, currentTokens)
  | s :: rest =>
      if currentTokens + s_tokens s >? maxTokens
      then selectLoop maxTokens rest result currentTokens
      else selectLoop maxTokens rest (appendPiece result (s_content s))
             (currentTokens + s_tokens s)
  end.

(** Sort by relevance, then pack. *)
Definition packScored (scored : list Scored) (maxTokens : Z) : str * Z :=
  selectLoop maxTokens (sortDesc s_score scored) [] 0.

Definition selectiveOptimization (content : str) (maxTokens : Z) : str :=
  fst (packScored (map scoreSection (splitIntoSections content)) maxTokens).

(** ** Compression *)

Definition isBlank (c : ascii) : bool :=
  (Ascii.eqb c space || Ascii.eqb c tab)%bool.

(** A pending run of [k] newlines is written out as two when [k >= 3]. *)
Definition flushNewlines (k : nat) : str :=
  repeat nl (if Nat.leb 3 k then 2%nat else k).

(** [s.replace(/\n{3,}/g, '\n\n')] *)
Fixpoint collapseNewlinesFrom (pending : nat) (s : str) : str :=
  match s with
  | [] => flushNewlines pending
  | c :: s' =>
      if Ascii.eqb c nl then collapseNewlinesFrom (S pending) s'
      else flushNewlines pending ++ c :: collapseNewlinesFrom 0 s'
  end.

Definition collapseNewlines (s : str) : str := collapseNewlinesFrom 0 s.

(** [s.replace(/[ \t]+/g, ' ')] *)
Fixpoint collapseBlanksFrom (inRun : bool) (s : str) : str :=
  match s with
  | [] => []
  | c :: s' =>
      if isBlank c
      then if inRun then collapseBlanksFrom true s'
           else space :: collapseBlanksFrom true s'
      else c :: collapseBlanksFrom false s'
  end.

Definition collapseBlanks (s : str) : str := collapseBlanksFrom false s.

(** [Array.from(new Set(s.split('\n'))).join('\n')] *)
Definition dedupLines (s : str) : str := join [nl] (dedup (split nl s)).

(** The first occurrence of [d] in [s]: what stands before and after it. *)
Fixpoint breakOn (d s : str) : option (str * str) :=
  if startsWith d s then Some ([], skipn (List.length d) s)
  else match s with
       | [] => None
       | c :: s' =>
           match breakOn d s' with
           | Some (pre, post) => Some (c :: pre, post)
           | None => None
           end
       end.

(** [s.replace(/opn[\s\S]*?cls/g, f)]: the leftmost match starts at the first
    [opn] and, being lazy, ends at the first [cls] after it; the scan goes on
    after the match.  An [opn] with no [cls] after it ends the scan.  Every
    match takes at least one character, so [n = length s] rounds suffice (see
    [replaceBetween_fuel]). *)
Fixpoint replaceBetween (n : nat) (opn cls : str) (f : str -> str) (s : str)
  : str :=
  match n with
  | O => s
  | S n' =>
      match breakOn opn s with
      | None => s
      | Some (pre, rest) =>
          match breakOn cls rest with
          | None => s
          | Some (body, post) =>
              pre ++ f (opn ++ body ++ cls)
                  ++ replaceBetween n' opn cls f post
          end
      end
  end.

Definition replaceAllBetween (opn cls : str) (f : str -> str) (s : str) : str :=
  replaceBetween (List.length s) opn cls f s.

Definition truncationMarker : str := [nl] ++ lit "// ... truncated ..." ++ [nl].

(** The callback of the code-block replacement. *)
Definition truncateBlock (m : str) : str :=
  let lines := split nl m in
  if (20 <? Z.of_nat (List.length lines))
  then join [nl] (firstn 10 lines) ++ truncationMarker
         ++ join [nl] (sliceFrom (-5) lines)
  else m.

Definition commentPlaceholder : str := lit "/* ... detailed comment removed ... */".

(** The callback of the comment replacement. *)
Definition shortenComment (m : str) : str :=
  if (200 <? len m) then commentPlaceholder else m.

Definition compressCodeBlocks (s : str) : str :=
  replaceAllBetween fence fence truncateBlock s.

Definition removeVerboseComments (s : str) : str :=
  replaceAllBetween (lit "/*") (lit "*/") shortenComment s.

(** The first three steps of [compressContent]. *)
Definition removeRedundancy (content : str) : str :=
  dedupLines (collapseBlanks (collapseNewlines content)).

Definition compressContent (content : str) : str :=
  removeVerboseComments (compressCodeBlocks (removeRedundancy content)).

(** ** Chunking *)

Definition createChunk (c : str) (i : Z) : ContextChunk :=
  {| content := c;
     index := i;
     tokenCount := estimateTokenCount c;
     metadata := {| hasCode := containsCode c;
                    hasDocumentation := containsDocumentation c;
                    language := detectLanguage c |} |}.

Record LineSplit : Type := {
  ls_chunks : list str;
  ls_current : str;
  ls_tokens : Z
}.

Definition splitLargeStep (maxTokens : Z) (st : LineSplit) (line : str)
  : LineSplit :=
  let lineTokens := estimateTokenCount line in
  if ((ls_tokens st + lineTokens >? maxTokens) && truthy (ls_current st))%bool
  then {| ls_chunks := ls_chunks st ++ [ls_current st];
          ls_current := line;
          ls_tokens := lineTokens |}
  else {| ls_chunks := ls_chunks st;
          ls_current :=
            ls_current st ++ (if truthy (ls_current st) then [nl] else [])
              ++ line;
          ls_tokens := ls_tokens st + lineTokens |}.

Definition splitLargeSection (section : str) (maxTokens : Z) : list str :=
  let st := fold_left (splitLargeStep maxTokens) (split nl section)
              {| ls_chunks := []; ls_current := []; ls_tokens := 0 |} in
  if truthy (ls_current st) then ls_chunks st ++ [ls_current st]
  else ls_chunks st.

Record ChunkState : Type := {
  chunks : list ContextChunk;
  currentChunk : str;
  currentTokens : Z;
  chunkIndex : Z
}.

(** [chunks.push(...subChunks.map(chunk => createChunk(chunk, chunkIndex++)))] *)
Fixpoint pushSubChunks (subs : list str) (cs : list ContextChunk) (i : Z)
  : list ContextChunk * Z :=
  match subs with
  | [] => (cs, i)
  | c :: subs' => pushSubChunks subs' (cs ++ [createChunk c i]) (i + 1)
  end.

Definition chunkStep (chunkSize : Z) (st : ChunkState) (section : str)
  : ChunkState :=
  let sectionTokens := estimateTokenCount section in
  if sectionTokens >? chunkSize then
    let '(cs, i) :=
      if truthy (currentChunk st)
      then (chunks st ++ [createChunk (currentChunk st) (chunkIndex st)],
            chunkIndex st + 1)
      else (chunks st, chunkIndex st) in
    let cur := if truthy (currentChunk st) then [] else currentChunk st in
    let tok := if truthy (currentChunk st) then 0 else currentTokens st in
    let '(cs', i') := pushSubChunks (splitLargeSection section chunkSize) cs i in
    {| chunks := cs'; currentChunk := cur; currentTokens := tok;
       chunkIndex := i' |}
  else if currentTokens st + sectionTokens >? chunkSize then
    {| chunks := chunks st ++ [createChunk (currentChunk st) (chunkIndex st)];
       currentChunk := section;
       currentTokens := sectionTokens;
       chunkIndex := chunkIndex st + 1 |}
  else
    {| chunks := chunks st;
       currentChunk :=
         currentChunk st ++ (if truthy (currentChunk st) then [nl; nl] else [])
           ++ section;
       currentTokens := currentTokens st + sectionTokens;
       chunkIndex := chunkIndex st |}.

(** [Math.min(5, Math.floor(currentLines.length * 0.1))] *)
Definition overlapLines (lineCount : Z) : Z := Z.min 5 (lineCount / 10).

(** The text that chunk [cur] hands to its successor:
    [currentLines.slice(-overlapLines).join('\n')]. *)
Definition overlapOf (cur : ContextChunk) : str :=
  let currentLines := split nl (content cur) in
  join [nl]
    (sliceFrom (- overlapLines (Z.of_nat (List.length currentLines)))
       currentLines).

Definition prependOverlap (cur next : ContextChunk) : ContextChunk :=
  let c := overlapOf cur ++ [nl; nl] ++ content next in
  {| content := c;
     index := index next;
     tokenCount := estimateTokenCount c;
     metadata := metadata next |}.

(** The loop of [addChunkOverlap]: chunk [i + 1] is rewritten from chunk
    [i] as the previous round left it. *)
Fixpoint overlapFrom (cur : ContextChunk) (rest : list ContextChunk)
  : list ContextChunk :=
  match rest with
  | [] => [cur]
  | next :: rest' => cur :: overlapFrom (prependOverlap cur next) rest'
  end.

Definition addChunkOverlap (cs : list ContextChunk) : list ContextChunk :=
  match cs with
  | [] => []
  | c :: rest => overlapFrom c rest
  end.

(** The chunk list before the overlaps are added. *)
Definition buildChunks (text : str) (chunkSize : Z) : list ContextChunk :=
  let st := fold_left (chunkStep chunkSize) (splitIntoSections text)
              {| chunks := []; currentChunk := []; currentTokens := 0;
                 chunkIndex := 0 |} in
  if truthy (currentChunk st)
  then chunks st ++ [createChunk (currentChunk st) (chunkIndex st)]
  else chunks st.

Definition chunkContext (text : str) (maxChunkSize : option Z)
  : list ContextChunk :=
  addChunkOverlap (buildChunks text (orDefault maxChunkSize 2000)).

(** ** Token information *)

Record Distribution : Type := {
  d_code : Z;
  d_documentation : Z;
  d_comments : Z;
  d_whitespace : Z;
  d_other : Z
}.

Definition classify (d : Distribution) (section : str) : Distribution :=
  let t := estimateTokenCount section in
  if isCodeBlock section then
    {| d_code := d_code d + t; d_documentation := d_documentation d;
       d_comments := d_comments d; d_whitespace := d_whitespace d;
       d_other := d_other d |}
  else if isComment section then
    {| d_code := d_code d; d_documentation := d_documentation d;
       d_comments := d_comments d + t; d_whitespace := d_whitespace d;
       d_other := d_other d |}
  else if isDocumentation section then
    {| d_code := d_code d; d_documentation := d_documentation d + t;
       d_comments := d_comments d; d_whitespace := d_whitespace d;
       d_other := d_other d |}
  else if Z.of_nat (List.length (trim section)) =? 0 then
    {| d_code := d_code d; d_documentation := d_documentation d;
       d_comments := d_comments d; d_whitespace := d_whitespace d + t;
       d_other := d_other d |}
  else
    {| d_code := d_code d; d_documentation := d_documentation d;
       d_comments := d_comments d; d_whitespace := d_whitespace d;
       d_other := d_other d + t |}.

(** [(value / tokens) * 100] on two non-negative integers, as IEEE
    arithmetic has it: [0 / 0] is [NaN], [v / 0] is [Infinity]. *)
Definition percentOf (value tokens : Z) : jsnum :=
  if tokens =? 0 then (if value =? 0 then NaN else PosInfinity)
  else Finite ((inject_Z value / inject_Z tokens) * 100)%Q.

Definition getTokenInfo (text : str) : TokenInfo :=
  let tokens := estimateTokenCount text in
  let d := fold_left classify (splitIntoSections text)
             {| d_code := 0; d_documentation := 0; d_comments := 0;
                d_whitespace := 0; d_other := 0 |} in
  {| totalTokens := tokens;
     breakdown :=
       [(lit "code", percentOf (d_code d) tokens);
        (lit "documentation", percentOf (d_documentation d) tokens);
        (lit "comments", percentOf (d_comments d) tokens);
        (lit "whitespace", percentOf (d_whitespace d) tokens);
        (lit "other", percentOf (d_other d) tokens)];
     estimatedCost := estimateCost tokens;
     withinLimit := tokens <=? DEFAULT_MAX_TOKENS |}.

(** ** [optimizeContext] *)

Definition optimizeContext (text : str) (strat : OptimizationStrategy)
  (maxTokens : option Z) : OptimizationResult :=
  let original := estimateTokenCount text in
  let targetTokens := orDefault maxTokens DEFAULT_MAX_TOKENS in
  let optimized :=
    match strat with
    | Summarize => summarizeContent text targetTokens
    | Selective => selectiveOptimization text targetTokens
    | Compress => compressContent text
    end in
  let finalTokens := estimateTokenCount optimized in
  let tokensReduced := original - finalTokens in
  {| originalContent := text;
     optimizedContent := optimized;
     originalTokens := original;
     optimizedTokens := finalTokens;
     reduction :=
       if tokensReduced >? 0
       then ((inject_Z tokensReduced / inject_Z original) * 100)%Q else 0%Q;
     strategy := strat |}.

End Optimizer.

(* ================================================================== *)
(** * Collaborators: file system, platform, effects *)
(* ================================================================== *)

Inductive error : Type :=
| ConfigurationError : str -> error
| InvalidPattern : str -> error
| IOFailure : str -> error.

Inductive result (A : Type) : Type :=
| Ok : A -> result A
| Err : error -> result A.

Arguments Ok {A} _.
Arguments Err {A} _.

(** A [Map<string, V>] of JavaScript: insertion order is iteration order, and
    setting a present key keeps its place. *)
Module JsMap.

Fixpoint set {V : Type} (k : str) (v : V) (m : list (str * V))
  : list (str * V) :=
  match m with
  | [] => [(k, v)]
  | (k', v') :: m' =>
      if Str.eqb k k' then (k, v) :: m' else (k', v') :: set k v m'
  end.

Definition has {V : Type} (k : str) (m : list (str * V)) : bool :=
  existsb (fun kv => Str.eqb k (fst kv)) m.

Fixpoint get {V : Type} (k : str) (m : list (str * V)) : option V :=
  match m with
  | [] => None
  | (k', v') :: m' => if Str.eqb k k' then Some v' else get k m'
  end.

Definition size {V : Type} (m : list (str * V)) : Z := Z.of_nat (List.length m).

End JsMap.

Module Fs.

Record Stats : Type := {
  size : Z;
  modifiedAt : Z;
  isDirectoryStat : bool
}.

(** The adapter [IFileSystem]; [None] is a rejected promise. *)
Record IFileSystem : Type := {
  readFile : str -> option str;
  listDirectory : str -> option (list str);
  getStats : str -> option Stats;
  isFile : str -> option bool;
  isDirectory : str -> option bool;
  exists_ : str -> option bool;
  join : str -> str -> str;
  relative : str -> str -> str;
  basename : str -> str
}.

(** What the run time supplies besides the adapter: Node's [path.join] and
    [path.relative], [RegExp] on a pattern built at run time ([None]: the
    constructor throws), [localeCompare] and the clock. *)
Record Platform : Type := {
  pathJoin : str -> str -> str;
  pathRelative : str -> str -> str;
  regexpTestI : str -> str -> option bool;
  regexpCount : str -> str -> option Z;
  localeCompare : str -> str -> Z;
  now : Z
}.

Inductive FsOp : Type :=
| OpReadFile : str -> FsOp
| OpListDirectory : str -> FsOp
| OpGetStats : str -> FsOp
| OpIsFile : str -> FsOp
| OpIsDirectory : str -> FsOp
| OpExists : str -> FsOp.

(** A computation: the file-system accesses it made, in order, and its
    outcome. *)
Definition M (A : Type) : Type := list FsOp * result A.

Definition ret {A : Type} (a : A) : M A := ([], Ok a).

Definition throw {A : Type} (e : error) : M A := ([], Err e).

Definition bind {A B : Type} (m : M A) (f : A -> M B) : M B :=
  match m with
  | (t, Ok a) => let '(t', r) := f a in (t ++ t', r)
  | (t, Err e) => (t, Err e)
  end.

(** [try { m } catch (e) { h e }] *)
Definition tryCatch {A : Type} (m : M A) (h : error -> M A) : M A :=
  match m with
  | (t, Ok a) => (t, Ok a)
  | (t, Err e) => let '(t', r) := h e in (t ++ t', r)
  end.

Definition access {A : Type} (op : FsOp) (p : str) (r : option A) : M A :=
  ([op], match r with Some a => Ok a | None => Err (IOFailure p) end).

Definition liftOpt {A : Type} (e : error) (r : option A) : M A :=
  match r with Some a => ret a | None => throw e end.

Definition outcome {A : Type} (m : M A) : result A := snd m.
Definition trace {A : Type} (m : M A) : list FsOp := fst m.

End Fs.

Declare Scope fs_scope.
Delimit Scope fs_scope with fs.
Notation "x <- m ;; k" := (Fs.bind m (fun x => k))
  (at level 61, m at next level, right associativity) : fs_scope.
Notation "' p <- m ;; k" := (Fs.bind m (fun p => k))
  (at level 61, p pattern, m at next level, right associativity) : fs_scope.

Module Path.
Import Str.

Definition sep : ascii := "/"%char.

Definition stripTrailingSeps (p : str) : str :=
  rev (dropWhile (Ascii.eqb sep) (rev p)).

(** [path.basename(p)] (POSIX): the part after the last separator, trailing
    separators apart. *)
Definition basename (p : str) : str :=
  rev (takeWhile (fun c => negb (Ascii.eqb c sep)) (rev (stripTrailingSeps p))).

(** [path.extname(p)] (POSIX): from the last dot of the base name, unless the
    base name has no dot, starts with its only dot, or is [..]. *)
Definition extname (p : str) : str :=
  let b := basename p in
  let ext := rev (takeWhile (fun c => negb (Ascii.eqb c ".")) (rev b)) in
  if Nat.eqb (List.length ext) (List.length b) then []
  else if Nat.eqb (S (List.length ext)) (List.length b) then []
  else if Str.eqb b (lit "..") then []
  else "."%char :: ext.

(** [path.parse(p).name] *)
Definition parseName (p : str) : str :=
  let b := basename p in
  firstn (List.length b - List.length (extname p)) b.

End Path.

(** The translations of a glob to the source of a regular expression. *)
Module Glob.
Import Str.

(** [s.replace(/c/g, to)] *)
Fixpoint replaceChar (c : ascii) (to : str) (s : str) : str :=
  match s with
  | [] => []
  | d :: s' =>
      if Ascii.eqb d c then to ++ replaceChar c to s'
      else d :: replaceChar c to s'
  end.

(** [s.replace(/from/g, to)] for a literal, non-empty [from]; [skip] counts
    the characters of a match still to pass over. *)
Fixpoint replaceStrFrom (skip : nat) (from to : str) (s : str) : str :=
  match s with
  | [] => []
  | d :: s' =>
      match skip with
      | S k => replaceStrFrom k from to s'
      | O =>
          if startsWith from s
          then to ++ replaceStrFrom (List.length from - 1) from to s'
          else d :: replaceStrFrom 0 from to s'
      end
  end.

Definition replaceStr (from to : str) (s : str) : str :=
  replaceStrFrom 0 from to s.

Inductive BracketState : Type := BOutside | BFirst | BInside.

(** A class opens at a bracket when a character other than the closing
    bracket follows and a closing bracket comes later. *)
Definition classFollows (s : str) : bool :=
  match s with
  | [] => false
  | c :: _ => (negb (Ascii.eqb c "]") && existsb (Ascii.eqb "]"%char) s)%bool
  end.

(** [s.replace(/\[(!)?([^\]]+)\]/g, (m, negate, chars) =>
       negate ? `[^${chars}]` : `[${chars}]`)] *)
Fixpoint bracketNegation (st : BracketState) (s : str) : str :=
  match s with
  | [] => []
  | c :: s' =>
      match st with
      | BOutside =>
          if (Ascii.eqb c "[" && classFollows s')%bool
          then c :: bracketNegation BFirst s'
          else c :: bracketNegation BOutside s'
      | BFirst =>
          if (Ascii.eqb c "!"
              && match s' with
                 | d :: _ => negb (Ascii.eqb d "]")
                 | [] => false
                 end)%bool
          then "^"%char :: bracketNegation BInside s'
          else c :: bracketNegation BInside s'
      | BInside =>
          if Ascii.eqb c "]" then c :: bracketNegation BOutside s'
          else c :: bracketNegation BInside s'
      end
  end.

(** [RelevanceScorer.matchesPattern] *)
Definition scorerRegex (pattern : str) : str :=
  bracketNegation BOutside
    (replaceChar "?" (lit ".") (replaceChar "*" (lit ".*") pattern)).

(** [FocusedLoadingStrategy.matchesPattern] *)
Definition focusedRegex (pattern : str) : str :=
  bracketNegation BOutside
    (replaceStr (lit "{{GLOBSTAR}}") (lit ".*")
       (replaceChar "?" (lit ".")
          (replaceChar "*" (lit "[^/]*")
             (replaceStr (lit "**") (lit "{{GLOBSTAR}}")
                (replaceChar "\" (lit "/") pattern))))).

(** [BreadthFirstLoadingStrategy.matchesPattern] *)
Definition breadthFirstRegex (pattern : str) : str :=
  replaceChar "?" (lit ".") (replaceChar "*" (lit ".*") pattern).

End Glob.

(* ================================================================== *)
(** * RelevanceScorer (services/RelevanceScorer.ts) *)
(* ================================================================== *)

Module Scorer.
Import Str Fs.
Local Open Scope fs_scope.

Record RelevanceFactors : Type := {
  pathScore : Q;
  nameScore : Q;
  typeScore : Q;
  depthScore : Q;
  sizeScore : Q;
  recencyScore : Q
}.

Record FileRelevance : Type := {
  path : str;
  score : Q;
  factors : RelevanceFactors;
  reason : str
}.

Record Weights : Type := {
  w_pathScore : Q;
  w_nameScore : Q;
  w_typeScore : Q;
  w_depthScore : Q;
  w_sizeScore : Q;
  w_recencyScore : Q;
  w_queryScore : option Q
}.

Record ScoringCriteria : Type := {
  query : option str;
  contextPath : option str;
  fileTypes : option (list str);
  includePatterns : option (list str);
  excludePatterns : option (list str);
  threshold : option Q;
  weights : option Weights
}.

Definition keywordWeights : list (string * Z) :=
  [("main", 10); ("index", 10); ("app", 9); ("core", 9);
   ("api", 8); ("service", 8); ("controller", 8); ("model", 8);
   ("interface", 7); ("type", 7); ("schema", 7); ("config", 7);
   ("util", 5); ("helper", 5); ("lib", 5); ("common", 5);
   ("component", 5); ("module", 5); ("route", 5); ("middleware", 5);
   ("test", 2); ("spec", 2); ("mock", 2); ("example", 2);
   ("demo", 1); ("sample", 1); ("backup", 1); ("old", 1);
   ("deprecated", -5); ("legacy", -5); ("temp", -5); ("tmp", -5);
   ("node_modules", -10); ("dist", -10); ("build", -10); ("coverage", -10)].

(** [Math.max(0, Math.min(100, x))] *)
Definition clampZ (x : Z) : Z := Z.max 0 (Z.min 100 x).
Definition clampQ (x : Q) : Q := Qmax 0 (Qmin 100 x).

(** The sum of the weights of the keywords that occur in [s]. *)
Definition keywordBonus (s : str) : Z :=
  fold_left
    (fun acc kw => if includes (lit (fst kw)) s then acc + snd kw else acc)
    keywordWeights 0.

Definition calculatePathScore (filePath : str) : Z :=
  let parts := split Path.sep (toLowerCase filePath) in
  let score := fold_left (fun acc part => acc + keywordBonus part) parts 50 in
  let score :=
    if (existsb (Str.eqb (lit "src")) parts
        || existsb (Str.eqb (lit "lib")) parts)%bool
    then score + 10 else score in
  let score := score - Z.max 0 ((Z.of_nat (List.length parts) - 4) * 2) in
  clampZ score.

Definition calculateNameScore (filename : str) : Z :=
  let nameLower := toLowerCase filename in
  let nameWithoutExt := toLowerCase (Path.parseName filename) in
  let score := 50 in
  let score :=
    if existsb (fun n => Str.eqb (lit n) nameWithoutExt)
         ["index"; "main"; "app"; "server"; "api"]%string
    then score + 30 else score in
  let score := score + keywordBonus nameLower in
  let score :=
    if (includes (lit "test") nameLower || includes (lit "spec") nameLower)%bool
    then score - 20 else score in
  let score := if len filename >? 50 then score - 10 else score in
  clampZ score.

Definition typeScores : list (string * Z) :=
  [(".ts", 90); (".tsx", 85); (".js", 80); (".jsx", 75); (".py", 80);
   (".go", 80); (".rs", 80); (".java", 75); (".cs", 75); (".cpp", 70);
   (".c", 70); (".h", 65); (".hpp", 65); (".json", 60); (".yaml", 60);
   (".yml", 60); (".xml", 55); (".md", 50); (".txt", 40); (".log", 20);
   (".lock", 10)].

(** [typeScores[ext] || 30] *)
Definition calculateTypeScore (filePath : str) : Z :=
  let ext := toLowerCase (Path.extname filePath) in
  match find (fun kv => Str.eqb (lit (fst kv)) ext) typeScores with
  | Some kv => snd kv
  | None => 30
  end.

Definition segments (p : str) : Z := Z.of_nat (List.length (split Path.sep p)).

Definition calculateDepthScore (filePath : str) (ctx : option str) : Z :=
  let depth := segments filePath in
  match ctx with
  | Some c =>
      if truthy c then
        let relativeDepth := depth - segments c in
        if relativeDepth =? 0 then 100
        else if relativeDepth =? 1 then 90
        else if relativeDepth =? 2 then 70
        else Z.max 0 (100 - relativeDepth * 10)
      else
        if depth <=? 3 then 90 else if depth <=? 5 then 70
        else if depth <=? 7 then 50 else Z.max 0 (100 - depth * 5)
  | None =>
      if depth <=? 3 then 90 else if depth <=? 5 then 70
      else if depth <=? 7 then 50 else Z.max 0 (100 - depth * 5)
  end.

(** By size in bytes; [sizeKB = size / 1024]. *)
Definition sizeScoreOf (bytes : Z) : Z :=
  if (1024 <=? bytes) && (bytes <=? 50 * 1024) then 100
  else if (50 * 1024 <? bytes) && (bytes <=? 200 * 1024) then 80
  else if bytes <? 1024 then 20
  else if (200 * 1024 <? bytes) && (bytes <=? 500 * 1024) then 60
  else if (500 * 1024 <? bytes) && (bytes <=? 1000 * 1024) then 40
  else 20.

Definition msPerDay : Z := 1000 * 60 * 60 * 24.

(** By age in milliseconds; [days = age / msPerDay]. *)
Definition recencyScoreOf (age : Z) : Z :=
  if age <? msPerDay then 100
  else if age <? 7 * msPerDay then 90
  else if age <? 30 * msPerDay then 70
  else if age <? 90 * msPerDay then 50
  else if age <? 365 * msPerDay then 30
  else 10.

Section WithCollaborators.

Variable fs : IFileSystem.
Variable pf : Platform.

Definition statsOf (p : str) : M Stats := access (OpGetStats p) p (getStats fs p).
Definition contentOf (p : str) : M str := access (OpReadFile p) p (readFile fs p).

Definition calculateSizeScore (filePath : str) : M Z :=
  tryCatch (stats <- statsOf filePath ;; ret (sizeScoreOf (size stats)))
    (fun _ => ret 50).

Definition calculateRecencyScore (filePath : str) : M Z :=
  tryCatch
    (stats <- statsOf filePath ;;
     ret (recencyScoreOf (now pf - modifiedAt stats)))
    (fun _ => ret 50).

Definition calculateRelevance (filePath : str) (ctx : option str)
  : M RelevanceFactors :=
  sizeS <- calculateSizeScore filePath ;;
  recencyS <- calculateRecencyScore filePath ;;
  ret {| pathScore := inject_Z (calculatePathScore filePath);
         nameScore := inject_Z (calculateNameScore (Path.basename filePath));
         typeScore := inject_Z (calculateTypeScore filePath);
         depthScore := inject_Z (calculateDepthScore filePath ctx);
         sizeScore := inject_Z sizeS;
         recencyScore := inject_Z recencyS |}.

(** The content loop of [calculateQueryRelevance]; a term that is no regular
    expression throws, and the [catch] keeps the score reached so far. *)
Fixpoint contentOccurrences (terms : list str) (contentLower : str) (score : Z)
  : Z :=
  match terms with
  | [] => score
  | term :: rest =>
      match regexpCount pf term contentLower with
      | None => score
      | Some occurrences =>
          contentOccurrences rest contentLower
            (score + Z.min (occurrences * 2) 30)
      end
  end.

Definition calculateQueryRelevance (filePath : str) (q : str) : M Z :=
  let queryTerms := filter (fun term => len term >? 2) (words (toLowerCase q)) in
  let filename := toLowerCase (Path.basename filePath) in
  let pathLower := toLowerCase filePath in
  let score :=
    fold_left (fun acc term => if includes term filename then acc + 20 else acc)
      queryTerms 0 in
  let score :=
    fold_left (fun acc term => if includes term pathLower then acc + 10 else acc)
      queryTerms score in
  score' <-
    tryCatch
      (stats <- statsOf filePath ;;
       if size stats <? 100 * 1024
       then content <- contentOf filePath ;;
            ret (contentOccurrences queryTerms (toLowerCase content) score)
       else ret score)
      (fun _ => ret score) ;;
  ret (Z.min score' 100).

Definition getDefaultWeights : Weights :=
  {| w_pathScore := 1.5%Q; w_nameScore := 2.0%Q; w_typeScore := 1.2%Q;
     w_depthScore := 0.8%Q; w_sizeScore := 0.5%Q; w_recencyScore := 0.7%Q;
     w_queryScore := Some 2.5%Q |}.

Definition matchesPattern (filePath pattern : str) : M bool :=
  liftOpt (InvalidPattern pattern)
    (regexpTestI pf (Glob.scorerRegex pattern) filePath).

(** [patterns.some(pattern => test(pattern))]: stops at the first match. *)
Fixpoint someM (test : str -> M bool) (patterns : list str) : M bool :=
  match patterns with
  | [] => ret false
  | p :: rest => b <- test p ;; if b then ret true else someM test rest
  end.

Definition Qltb (a b : Q) : bool := negb (Qle_bool b a).

Definition factorEntries (f : RelevanceFactors) : list (str * Q) :=
  [(lit "pathScore", pathScore f); (lit "nameScore", nameScore f);
   (lit "typeScore", typeScore f); (lit "depthScore", depthScore f);
   (lit "sizeScore", sizeScore f); (lit "recencyScore", recencyScore f)].

Definition factorReason (name : str) : list str :=
  if Str.eqb name (lit "pathScore") then [lit "important path location"]
  else if Str.eqb name (lit "nameScore") then [lit "significant filename"]
  else if Str.eqb name (lit "typeScore") then [lit "relevant file type"]
  else if Str.eqb name (lit "depthScore") then [lit "good file depth"]
  else if Str.eqb name (lit "sizeScore") then [lit "optimal file size"]
  else if Str.eqb name (lit "recencyScore") then [lit "recently modified"]
  else [].

Definition generateReason (f : RelevanceFactors) (totalScore : Q) : str :=
  let top :=
    firstn 3 (sortBy (fun a b => Qltb (snd a) (snd b)) (factorEntries f)) in
  let reasons :=
    flat_map (fun e => if Qle_bool 80 (snd e) then factorReason (fst e) else [])
      top in
  let reasons :=
    match reasons with
    | [] =>
        if Qle_bool 70 totalScore then [lit "generally relevant"]
        else if Qle_bool 40 totalScore then [lit "moderately relevant"]
        else [lit "low relevance"]
    | _ => reasons
    end in
  Str.join (lit ", ") reasons.

(** [x || d] on an optional rational. *)
Definition orDefaultQ (x : option Q) (d : Q) : Q :=
  match x with
  | Some v => if Qeq_bool v 0 then d else v
  | None => d
  end.

Definition isGiven (s : option str) : bool :=
  match s with Some q => truthy q | None => false end.

Definition scoreFile (filePath : str) (criteria : ScoringCriteria)
  : M FileRelevance :=
  f <- calculateRelevance filePath (contextPath criteria) ;;
  let w := match weights criteria with
           | Some w => w
           | None => getDefaultWeights
           end in
  let score :=
    (pathScore f * w_pathScore w + nameScore f * w_nameScore w
     + typeScore f * w_typeScore w + depthScore f * w_depthScore w
     + sizeScore f * w_sizeScore w + recencyScore f * w_recencyScore w)%Q in
  score <-
    (match query criteria with
     | Some q =>
         if truthy q
         then queryScore <- calculateQueryRelevance filePath q ;;
              ret (score + inject_Z queryScore
                             * orDefaultQ (w_queryScore w) 2.0)%Q
         else ret score
     | None => ret score
     end) ;;
  let score :=
    match fileTypes criteria with
    | Some (t :: ts) =>
        if existsb (Str.eqb (toLowerCase (Path.extname filePath))) (t :: ts)
        then score else (score * 0.1)%Q
    | _ => score
    end in
  score <-
    (match includePatterns criteria with
     | Some patterns =>
         m <- someM (matchesPattern filePath) patterns ;;
         ret (if m then score else (score * 0.2)%Q)
     | None => ret score
     end) ;;
  score <-
    (match excludePatterns criteria with
     | Some patterns =>
         m <- someM (matchesPattern filePath) patterns ;;
         ret (if m then 0%Q else score)
     | None => ret score
     end) ;;
  ret {| path := filePath;
         score := clampQ score;
         factors := f;
         reason := generateReason f score |}.

(** [Promise.all(files.map(file => scoreFile(file, criteria)))]; the
    accesses of the files are recorded one file after the other. *)
Fixpoint scoreAll (files : list str) (criteria : ScoringCriteria)
  : M (list FileRelevance) :=
  match files with
  | [] => ret []
  | f :: rest =>
      r <- scoreFile f criteria ;;
      rs <- scoreAll rest criteria ;;
      ret (r :: rs)
  end.

(** [scoredFiles.sort((a, b) => b.score - a.score)] *)
Definition sortByScore (l : list FileRelevance) : list FileRelevance :=
  sortBy (fun a b => Qltb (score a) (score b)) l.

(** [criteria.threshold ? scoredFiles.filter(f => f.score >= threshold)
                        : scoredFiles] *)
Definition applyThreshold (t : option Q) (l : list FileRelevance)
  : list FileRelevance :=
  match t with
  | Some t' =>
      if Qeq_bool t' 0 then l else filter (fun f => Qle_bool t' (score f)) l
  | None => l
  end.

Definition scoreFiles (files : list str) (criteria : ScoringCriteria)
  : M (list FileRelevance) :=
  scoredFiles <- scoreAll files criteria ;;
  ret (applyThreshold (threshold criteria) (sortByScore scoredFiles)).

End WithCollaborators.

End Scorer.

(* ================================================================== *)
(** * Loading strategies: common types *)
(* ================================================================== *)

Module Loading.
Import Str Fs.

Record LoadingOptions : Type := {
  maxTokens : option Z;
  maxDepth : option Z;
  fileTypes : option (list str);
  includePatterns : option (list str);
  excludePatterns : option (list str);
  query : option str
}.

(** What the project analyzer reports, as far as the strategies read it. *)
Record ProjectInfo : Type := {
  projectType : str;
  languages : list str;
  configFiles : list str;
  docsDirs : list str;
  entryPoints : list str
}.

Record FocusSummary : Type := {
  fs_query : option str;
  fs_patterns : option (list str);
  filesFound : Z;
  filesLoaded : Z;
  averageScore : jsnum
}.

Inductive DirNode : Type :=
| DirectoryNode : str -> list DirNode -> DirNode
| FileNode : str -> Z -> DirNode.

Record LevelStat : Type := {
  level : Z;
  levelFiles : Z;
  levelTokens : Z
}.

(** The values of the [metadata] map. *)
Inductive MetaValue : Type :=
| MetaProjectInfo : ProjectInfo -> MetaValue
| MetaRelevance : list (str * (Q * str)) -> MetaValue
| MetaFocusSummary : FocusSummary -> MetaValue
| MetaDirectoryStructure : DirNode -> MetaValue
| MetaLevelStats : list LevelStat -> MetaValue.

Record LoadedContext : Type := {
  files : list (str * str);
  metadata : list (str * MetaValue);
  totalTokens : Z;
  strategy : str
}.

(** [estimateTokens]: [Math.ceil(content.length / 4)], the same in the three
    strategies. *)
Definition estimateTokens (content : str) : Z := ceilDiv (len content) 4.

(** [options.maxTokens || 8000] *)
Definition budgetOf (options : LoadingOptions) : Z :=
  orDefault (maxTokens options) 8000.

(** The sum of the estimates of the files of a map. *)
Definition sumEstimates (m : list (str * str)) : Z :=
  fold_right (fun kv acc => estimateTokens (snd kv) + acc) 0 m.

(** A sub-loader's map and the tokens it counted. *)
Record Loaded : Type := {
  l_files : list (str * str);
  l_tokens : Z
}.

(** [if (tokensUsed + tokens <= tokenBudget) { files.set(key, content);
    tokensUsed += tokens }] *)
Definition includeIfFits (tokenBudget : Z) (key content : str) (st : Loaded)
  : Loaded :=
  let tokens := estimateTokens content in
  if l_tokens st + tokens <=? tokenBudget
  then {| l_files := JsMap.set key content (l_files st);
          l_tokens := l_tokens st + tokens |}
  else st.

(** [for (const [p, content] of loaded) { files.set(p, content);
    totalTokens += estimateTokens(content) }] *)
Definition mergeLoaded (loaded : list (str * str)) (st : Loaded) : Loaded :=
  fold_left
    (fun acc kv =>
       {| l_files := JsMap.set (fst kv) (snd kv) (l_files acc);
          l_tokens := l_tokens acc + estimateTokens (snd kv) |})
    loaded st.

Definition anyStr (names : list string) (p : str -> bool) : bool :=
  existsb (fun n => p (lit n)) names.

End Loading.

(* ================================================================== *)
(** * FocusedLoadingStrategy (src/strategies/FocusedLoadingStrategy.ts) *)
(* ================================================================== *)

Module Focused.
Import Str Fs Loading.
Local Open Scope fs_scope.

Definition name : str := lit "focused".

Record WalkState : Type := {
  found : list str;
  visited : list str
}.

(** The state of the loading loop. *)
Record LoadState : Type := {
  ld_files : list (str * str);
  ld_metadata : list (str * MetaValue);
  ld_total : Z
}.

Definition defaultExcludes : list string :=
  ["node_modules"; ".git"; ".svn"; ".hg"; "dist"; "build"; "coverage";
   ".cache"; ".next"; ".nuxt"; ".turbo"; "venv"; "__pycache__";
   ".pytest_cache"; ".mypy_cache"]%string.

Definition defaultTypes : list string :=
  [".ts"; ".tsx"; ".js"; ".jsx"; ".py"; ".go"; ".rs"; ".java"; ".json";
   ".yaml"; ".yml"; ".md"; ".txt"]%string.

(** [!options.query && !options.includePatterns?.length] *)
Definition lacksFocus (options : LoadingOptions) : bool :=
  (negb (match query options with Some q => truthy q | None => false end)
   && negb (match includePatterns options with
            | Some (_ :: _) => true
            | _ => false
            end))%bool.

Definition focusWeights : Scorer.Weights :=
  {| Scorer.w_pathScore := 2.0%Q; Scorer.w_nameScore := 2.5%Q;
     Scorer.w_typeScore := 1.0%Q; Scorer.w_depthScore := 0.5%Q;
     Scorer.w_sizeScore := 0.3%Q; Scorer.w_recencyScore := 0.2%Q;
     Scorer.w_queryScore := Some 3.0%Q |}.

Definition focusCriteria (rootPath : str) (options : LoadingOptions)
  : Scorer.ScoringCriteria :=
  {| Scorer.query := query options;
     Scorer.contextPath := Some rootPath;
     Scorer.fileTypes := fileTypes options;
     Scorer.includePatterns := includePatterns options;
     Scorer.excludePatterns := excludePatterns options;
     Scorer.threshold := Some 30%Q;
     Scorer.weights := Some focusWeights |}.

Definition matchesFileType (filename : str) (options : LoadingOptions) : bool :=
  match fileTypes options with
  | Some (t :: ts) =>
      existsb (fun ty => if startsWith (lit ".") ty then endsWith ty filename
                         else includes ty filename) (t :: ts)
  | _ => anyStr defaultTypes (fun ext => endsWith ext filename)
  end.

Definition setRelevance (filePath : str) (score : Q) (reason : str)
  (md : list (str * MetaValue)) : list (str * MetaValue) :=
  let rel := match JsMap.get (lit "relevance") md with
             | Some (MetaRelevance r) => r
             | _ => []
             end in
  JsMap.set (lit "relevance")
    (MetaRelevance (JsMap.set filePath (score, reason) rel)) md.

Section WithCollaborators.

Variable fs : IFileSystem.
Variable pf : Platform.
(** The injected [IRelevanceScorer.scoreFiles]. *)
Variable scoreFiles :
  list str -> Scorer.ScoringCriteria -> M (list Scorer.FileRelevance).

(** [None]: the constructor of [RegExp] throws on the translated pattern. *)
Definition matchesPattern (filePath pattern : str) : option bool :=
  regexpTestI pf (Glob.focusedRegex pattern)
    (Glob.replaceChar "\" (lit "/") filePath).

Fixpoint anyPattern (filePath : str) (patterns : list str) : option bool :=
  match patterns with
  | [] => Some false
  | p :: rest =>
      match matchesPattern filePath p with
      | None => None
      | Some true => Some true
      | Some false => anyPattern filePath rest
      end
  end.

Definition shouldExclude (filename fullPath : str) (options : LoadingOptions)
  : option bool :=
  if anyStr defaultExcludes (Str.eqb filename) then Some true
  else match excludePatterns options with
       | Some patterns => anyPattern fullPath patterns
       | None => Some false
       end.

(** [walk(dir, depth)] with [levels = maxDepth + 1 - depth] levels left.  The
    [try] spans the listing and the whole loop over the entries: the first
    failure ends the directory, and what was found so far stays. *)
Fixpoint walk (rootPath : str) (options : LoadingOptions) (levels : nat)
  (dir : str) (st : WalkState) {struct levels} : list FsOp * WalkState :=
  match levels with
  | O => ([], st)
  | S levels' =>
      if existsb (Str.eqb dir) (visited st) then ([], st)
      else
        let st := {| found := found st; visited := visited st ++ [dir] |} in
        match listDirectory fs dir with
        | None => ([OpListDirectory dir], st)
        | Some entries =>
            let '(t, st') :=
              (fix entriesLoop (es : list str) (st : WalkState) {struct es}
                 : list FsOp * WalkState :=
                 match es with
                 | [] => ([], st)
                 | entry :: es' =>
                     let fullPath := pathJoin pf dir entry in
                     match shouldExclude entry fullPath options with
                     | None => ([], st)
                     | Some true => entriesLoop es' st
                     | Some false =>
                         match getStats fs fullPath with
                         | None => ([OpGetStats fullPath], st)
                         | Some stats =>
                             if isDirectoryStat stats then
                               let '(t1, st1) :=
                                 walk rootPath options levels' fullPath st in
                               let '(t2, st2) := entriesLoop es' st1 in
                               (OpGetStats fullPath :: t1 ++ t2, st2)
                             else
                               let st1 :=
                                 if matchesFileType entry options
                                 then {| found :=
                                           found st
                                             ++ [pathRelative pf rootPath fullPath];
                                         visited := visited st |}
                                 else st in
                               let '(t2, st2) := entriesLoop es' st1 in
                               (OpGetStats fullPath :: t2, st2)
                         end
                     end
                 end) entries st in
            (OpListDirectory dir :: t, st')
        end
  end.

Definition findAllFiles (rootPath : str) (options : LoadingOptions)
  : M (list str) :=
  let '(t, st) :=
    walk rootPath options (Z.to_nat (orDefault (maxDepth options) 10 + 1))
      rootPath {| found := []; visited := [] |} in
  (t, Ok (found st)).

(** The boost of one file: [score *= 1.5] and a longer reason for every
    include pattern that matches. *)
Fixpoint boost (patterns : list str) (file : Scorer.FileRelevance)
  : option Scorer.FileRelevance :=
  match patterns with
  | [] => Some file
  | p :: rest =>
      match matchesPattern (Scorer.path file) p with
      | None => None
      | Some true =>
          boost rest
            {| Scorer.path := Scorer.path file;
               Scorer.score := (Scorer.score file * 1.5)%Q;
               Scorer.factors := Scorer.factors file;
               Scorer.reason :=
                 Scorer.reason file ++ lit ", matches pattern: " ++ p |}
      | Some false => boost rest file
      end
  end.

Fixpoint boostAll (patterns : list str) (scored : list Scorer.FileRelevance)
  : option (list Scorer.FileRelevance) :=
  match scored with
  | [] => Some []
  | f :: rest =>
      match boost patterns f with
      | None => None
      | Some f' =>
          match boostAll patterns rest with
          | None => None
          | Some rest' => Some (f' :: rest')
          end
      end
  end.

Definition scoreFilesByFocus (files : list str) (rootPath : str)
  (options : LoadingOptions) : M (list Scorer.FileRelevance) :=
  scoredFiles <- scoreFiles files (focusCriteria rootPath options) ;;
  boosted <-
    (match includePatterns options with
     | Some patterns =>
         liftOpt (InvalidPattern []) (boostAll patterns scoredFiles)
     | None => ret scoredFiles
     end) ;;
  ret (filter (fun f => Qle_bool 30 (Scorer.score f))
         (Scorer.sortByScore boosted)).

(** One candidate of the loading loop: the [try] spans the read and the
    admission; a file that does not fit or cannot be read is passed over. *)
Definition loadOne (rootPath : str) (maxTok : Z) (f : Scorer.FileRelevance)
  (st : LoadState) : M LoadState :=
  tryCatch
    (let fullPath := pathJoin pf rootPath (Scorer.path f) in
     content <- access (OpReadFile fullPath) fullPath (readFile fs fullPath) ;;
     let tokens := estimateTokens content in
     if ld_total st + tokens <=? maxTok
     then ret {| ld_files := JsMap.set (Scorer.path f) content (ld_files st);
                 ld_metadata :=
                   setRelevance (Scorer.path f) (Scorer.score f)
                     (Scorer.reason f) (ld_metadata st);
                 ld_total := ld_total st + tokens |}
     else ret st)
    (fun _ => ret st).

(** The loading loop: [break] once the budget is reached. *)
Fixpoint loadLoop (rootPath : str) (maxTok : Z)
  (scored : list Scorer.FileRelevance) (st : LoadState) : M LoadState :=
  match scored with
  | [] => ret st
  | f :: rest =>
      if ld_total st >=? maxTok then ret st
      else
        st' <- loadOne rootPath maxTok f st ;;
        loadLoop rootPath maxTok rest st'
  end.

Definition sumScores (l : list Scorer.FileRelevance) : Q :=
  fold_left (fun sum f => (sum + Scorer.score f)%Q) l 0%Q.

Definition focusSummary (options : LoadingOptions)
  (scored : list Scorer.FileRelevance) (loaded : list (str * str))
  : FocusSummary :=
  {| fs_query := query options;
     fs_patterns := includePatterns options;
     filesFound := Z.of_nat (List.length scored);
     filesLoaded := JsMap.size loaded;
     averageScore :=
       if JsMap.size loaded =? 0 then NaN
       else Finite (sumScores (firstn (List.length loaded) scored)
                    / inject_Z (JsMap.size loaded)) |}.

Definition loadContext (rootPath : str) (options : LoadingOptions)
  : M LoadedContext :=
  if lacksFocus options
  then throw (ConfigurationError
                (lit "Focused strategy requires either a query or include patterns"))
  else
    let maxTok := budgetOf options in
    allFiles <- findAllFiles rootPath options ;;
    scoredFiles <- scoreFilesByFocus allFiles rootPath options ;;
    st <- loadLoop rootPath maxTok scoredFiles
            {| ld_files := []; ld_metadata := []; ld_total := 0 |} ;;
    ret {| files := ld_files st;
           metadata :=
             JsMap.set (lit "focusSummary")
               (MetaFocusSummary
                  (focusSummary options scoredFiles (ld_files st)))
               (ld_metadata st);
           totalTokens := ld_total st;
           strategy := name |}.

End WithCollaborators.

End Focused.

(* ================================================================== *)
(** * ProgressiveLoadingStrategy (src/strategies/ProgressiveLoadingStrategy.ts) *)
(* ================================================================== *)

Module Progressive.
Import Str Fs Loading.
Local Open Scope fs_scope.

Definition name : str := lit "progressive".

Definition corePatterns : list string :=
  ["README.md"; "readme.md"; "package.json"; "tsconfig.json"; ".env.example";
   "docker-compose.yml"]%string.

Definition mainDocs : list string :=
  ["README.md"; "CONTRIBUTING.md"; "API.md"; "ARCHITECTURE.md"]%string.

Definition ignorePatterns : list string :=
  ["node_modules"; ".git"; ".svn"; ".hg"; "dist"; "build"; "coverage";
   ".cache"; ".next"; ".nuxt"; ".turbo"; "venv"; "__pycache__";
   ".pytest_cache"; ".mypy_cache"; ".DS_Store"; "Thumbs.db"]%string.

Definition sourceExtensions : list string :=
  [".ts"; ".tsx"; ".js"; ".jsx"; ".py"; ".go"; ".rs"; ".java"; ".cs"; ".cpp";
   ".c"; ".h"; ".rb"; ".php"; ".swift"; ".kt"]%string.

Definition shouldIgnore (n : str) : bool :=
  (anyStr ignorePatterns (Str.eqb n) || startsWith (lit ".") n)%bool.

Definition isSourceFile (n : str) : bool :=
  anyStr sourceExtensions (fun ext => endsWith ext n).

(** [priorities.findIndex(p => a.includes(p))] *)
Fixpoint findIndexFrom (i : Z) (priorities : list string) (a : str) : Z :=
  match priorities with
  | [] => -1
  | p :: rest => if includes (lit p) a then i else findIndexFrom (i + 1) rest a
  end.

(** The comparator of [loadConfigFiles].  It answers 1 for two files without
    priority, whichever comes first: it is not a consistent comparator. *)
Definition configCompare (a b : str) : Z :=
  let priorities := ["package.json"; "tsconfig.json"; ".env"; "config."]%string in
  let aPriority := findIndexFrom 0 priorities a in
  let bPriority := findIndexFrom 0 priorities b in
  if aPriority =? -1 then 1
  else if bPriority =? -1 then -1
  else aPriority - bPriority.

Definition relevantCriteria (rootPath q : str) : Scorer.ScoringCriteria :=
  {| Scorer.query := Some q;
     Scorer.contextPath := Some rootPath;
     Scorer.fileTypes :=
       Some (map lit [".ts"; ".tsx"; ".js"; ".jsx"; ".py"; ".go"; ".rs"]%string);
     Scorer.includePatterns := None;
     Scorer.excludePatterns := None;
     Scorer.threshold := Some 40%Q;
     Scorer.weights := None |}.

(** Stages 2 and 3: [if (totalTokens + tokens > maxTokens) break] *)
Fixpoint hardStop (maxTok : Z) (loaded : list (str * str)) (st : Loaded)
  : Loaded :=
  match loaded with
  | [] => st
  | (filePath, content) :: rest =>
      let tokens := estimateTokens content in
      if l_tokens st + tokens >? maxTok then st
      else hardStop maxTok rest
             {| l_files := JsMap.set filePath content (l_files st);
                l_tokens := l_tokens st + tokens |}
  end.

Section WithCollaborators.

Variable fs : IFileSystem.
(** The injected scorer and analyzer. *)
Variable scoreFiles :
  list str -> Scorer.ScoringCriteria -> M (list Scorer.FileRelevance).
Variable analyzeProject : str -> M ProjectInfo.
(** [Array.prototype.sort] on a comparator that is not consistent: the order
    is the engine's. *)
Variable engineSort : (str -> str -> Z) -> list str -> list str.

Definition readAt (p : str) : M str := access (OpReadFile p) p (readFile fs p).
Definition existsAt (p : str) : M bool := access (OpExists p) p (exists_ fs p).

Fixpoint loadEntryPoints (rootPath : str) (eps : list str)
  (acc : list (str * str)) : M (list (str * str)) :=
  match eps with
  | [] => ret acc
  | entryPoint :: rest =>
      acc' <-
        tryCatch
          (content <- readAt (join fs rootPath entryPoint) ;;
           ret (JsMap.set entryPoint content acc))
          (fun _ => ret acc) ;;
      loadEntryPoints rootPath rest acc'
  end.

Fixpoint loadCorePatterns (rootPath : str) (patterns : list string)
  (acc : list (str * str)) : M (list (str * str)) :=
  match patterns with
  | [] => ret acc
  | pattern :: rest =>
      acc' <-
        (if JsMap.has (lit pattern) acc then ret acc
         else
           tryCatch
             (let fullPath := join fs rootPath (lit pattern) in
              e <- existsAt fullPath ;;
              if e then content <- readAt fullPath ;;
                        ret (JsMap.set (lit pattern) content acc)
              else ret acc)
             (fun _ => ret acc)) ;;
      loadCorePatterns rootPath rest acc'
  end.

Definition loadCoreFiles (rootPath : str) (eps : list str)
  : M (list (str * str)) :=
  acc <- loadEntryPoints rootPath eps [] ;;
  loadCorePatterns rootPath corePatterns acc.

Fixpoint readConfigs (rootPath : str) (configs : list str)
  (acc : list (str * str)) : M (list (str * str)) :=
  match configs with
  | [] => ret acc
  | configFile :: rest =>
      acc' <-
        tryCatch
          (content <- readAt (join fs rootPath configFile) ;;
           ret (JsMap.set configFile content acc))
          (fun _ => ret acc) ;;
      readConfigs rootPath rest acc'
  end.

Definition loadConfigFiles (rootPath : str) (configs : list str)
  : M (list (str * str)) :=
  readConfigs rootPath (firstn 10 (engineSort configCompare configs)) [].

Record WalkState : Type := {
  found : list str;
  visited : list str
}.

(** [walk(dir, depth)] of [findSourceFiles], with [levels = 6 - depth]. *)
Fixpoint walk (rootPath : str) (levels : nat) (dir : str) (st : WalkState)
  {struct levels} : list FsOp * WalkState :=
  match levels with
  | O => ([], st)
  | S levels' =>
      if existsb (Str.eqb dir) (visited st) then ([], st)
      else
        let st := {| found := found st; visited := visited st ++ [dir] |} in
        match listDirectory fs dir with
        | None => ([OpListDirectory dir], st)
        | Some entries =>
            let '(t, st') :=
              (fix entriesLoop (es : list str) (st : WalkState) {struct es}
                 : list FsOp * WalkState :=
                 match es with
                 | [] => ([], st)
                 | entry :: es' =>
                     let fullPath := join fs dir entry in
                     if shouldIgnore entry then entriesLoop es' st
                     else
                       match isDirectory fs fullPath with
                       | None => ([OpIsDirectory fullPath], st)
                       | Some true =>
                           let '(t1, st1) := walk rootPath levels' fullPath st in
                           let '(t2, st2) := entriesLoop es' st1 in
                           (OpIsDirectory fullPath :: t1 ++ t2, st2)
                       | Some false =>
                           let st1 :=
                             if isSourceFile entry
                             then {| found :=
                                       found st ++ [relative fs rootPath fullPath];
                                     visited := visited st |}
                             else st in
                           let '(t2, st2) := entriesLoop es' st1 in
                           (OpIsDirectory fullPath :: t2, st2)
                       end
                 end) entries st in
            (OpListDirectory dir :: t, st')
        end
  end.

Definition findSourceFiles (rootPath : str) : M (list str) :=
  let '(t, st) := walk rootPath 6 rootPath {| found := []; visited := [] |} in
  (t, Ok (found st)).

(** The loop of [loadRelevantFiles]. *)
Fixpoint relevantLoop (rootPath : str) (tokenBudget : Z)
  (scored : list Scorer.FileRelevance) (st : Loaded) : M Loaded :=
  match scored with
  | [] => ret st
  | f :: rest =>
      if l_tokens st >=? tokenBudget then ret st
      else
        st' <-
          tryCatch
            (content <- readAt (join fs rootPath (Scorer.path f)) ;;
             ret (includeIfFits tokenBudget (Scorer.path f) content st))
            (fun _ => ret st) ;;
        relevantLoop rootPath tokenBudget rest st'
  end.

Definition loadRelevantFiles (rootPath q : str) (tokenBudget : Z)
  (existingFiles : list (str * str)) : M (list (str * str)) :=
  sourceFiles <- findSourceFiles rootPath ;;
  let unloadedFiles :=
    filter (fun f => negb (JsMap.has f existingFiles)) sourceFiles in
  scoredFiles <- scoreFiles unloadedFiles (relevantCriteria rootPath q) ;;
  st <- relevantLoop rootPath tokenBudget scoredFiles
          {| l_files := []; l_tokens := 0 |} ;;
  ret (l_files st).

(** The loop over [mainDocs]. *)
Fixpoint mainDocsLoop (rootPath : str) (tokenBudget : Z) (docs : list string)
  (st : Loaded) : M Loaded :=
  match docs with
  | [] => ret st
  | docFile :: rest =>
      if l_tokens st >=? tokenBudget then ret st
      else
        st' <-
          tryCatch
            (let fullPath := join fs rootPath (lit docFile) in
             e <- existsAt fullPath ;;
             if e then content <- readAt fullPath ;;
                       ret (includeIfFits tokenBudget (lit docFile) content st)
             else ret st)
            (fun _ => ret st) ;;
        mainDocsLoop rootPath tokenBudget rest st'
  end.

Definition findDocumentationFiles (docsPath : str) : M (list str) :=
  tryCatch
    (entries <- access (OpListDirectory docsPath) docsPath
                  (listDirectory fs docsPath) ;;
     ret (map (join fs docsPath)
            (filter (fun entry => endsWith (lit ".md") (toLowerCase entry))
               entries)))
    (fun _ => ret []).

(** The files of one documentation directory; a failed read ends the
    directory and keeps what was loaded. *)
Fixpoint docFilesLoop (rootPath : str) (tokenBudget : Z) (docFiles : list str)
  (st : Loaded) : list FsOp * Loaded :=
  match docFiles with
  | [] => ([], st)
  | docFile :: rest =>
      if l_tokens st >=? tokenBudget then ([], st)
      else
        match readFile fs docFile with
        | None => ([OpReadFile docFile], st)
        | Some content =>
            let '(t, st') :=
              docFilesLoop rootPath tokenBudget rest
                (includeIfFits tokenBudget (relative fs rootPath docFile)
                   content st) in
            (OpReadFile docFile :: t, st')
        end
  end.

Fixpoint docsDirsLoop (rootPath : str) (tokenBudget : Z) (dirs : list str)
  (st : Loaded) : M Loaded :=
  match dirs with
  | [] => ret st
  | docsDir :: rest =>
      if l_tokens st >=? tokenBudget then ret st
      else
        docFiles <- findDocumentationFiles (join fs rootPath docsDir) ;;
        let '(t, st') :=
          docFilesLoop rootPath tokenBudget (firstn 5 docFiles) st in
        st'' <- ((t, Ok st') : M Loaded) ;;
        docsDirsLoop rootPath tokenBudget rest st''
  end.

Definition loadDocumentation (rootPath : str) (dirs : list str)
  (tokenBudget : Z) : M (list (str * str)) :=
  st <- mainDocsLoop rootPath tokenBudget mainDocs
          {| l_files := []; l_tokens := 0 |} ;;
  st' <- docsDirsLoop rootPath tokenBudget dirs st ;;
  ret (l_files st').

Definition queryGiven (options : LoadingOptions) : option str :=
  match query options with
  | Some q => if truthy q then Some q else None
  | None => None
  end.

Definition loadContext (rootPath : str) (options : LoadingOptions)
  : M LoadedContext :=
  let maxTok := budgetOf options in
  projectInfo <- analyzeProject rootPath ;;
  (* Stage 2: entry points and core files *)
  coreFiles <- loadCoreFiles rootPath (entryPoints projectInfo) ;;
  let st := hardStop maxTok coreFiles {| l_files := []; l_tokens := 0 |} in
  (* Stage 3: configuration files, below 80% of the budget *)
  '(st, sortedConfigs) <-
    (if 10 * l_tokens st <? 8 * maxTok
     then configs <- loadConfigFiles rootPath (configFiles projectInfo) ;;
          ret (hardStop maxTok configs st,
               engineSort configCompare (configFiles projectInfo))
     else ret (st, configFiles projectInfo)) ;;
  (* Stage 4: files relevant to the query, below 90% *)
  st <-
    (match queryGiven options with
     | Some q =>
         if 10 * l_tokens st <? 9 * maxTok
         then relevantFiles <-
                loadRelevantFiles rootPath q (maxTok - l_tokens st) (l_files st) ;;
              ret (mergeLoaded relevantFiles st)
         else ret st
     | None => ret st
     end) ;;
  (* Stage 5: documentation, below 95% *)
  st <-
    (if 100 * l_tokens st <? 95 * maxTok
     then docFiles <-
            loadDocumentation rootPath (docsDirs projectInfo)
              (maxTok - l_tokens st) ;;
          ret (mergeLoaded docFiles st)
     else ret st) ;;
  ret {| files := l_files st;
         metadata :=
           [(lit "projectInfo",
             MetaProjectInfo
               {| projectType := projectType projectInfo;
                  languages := languages projectInfo;
                  configFiles := sortedConfigs;
                  docsDirs := docsDirs projectInfo;
                  entryPoints := entryPoints projectInfo |})];
         totalTokens := l_tokens st;
         strategy := name |}.

End WithCollaborators.

End Progressive.

(* ================================================================== *)
(** * BreadthFirstLoadingStrategy (strategies/BreadthFirstLoadingStrategy.ts) *)
(* ================================================================== *)

Module BreadthFirst.
Import Str Fs Loading.
Local Open Scope fs_scope.

Definition name : str := lit "breadth-first".

Definition ignored : list string :=
  ["node_modules"; ".git"; ".svn"; ".hg"; "dist"; "build"; "coverage";
   ".cache"; ".next"; ".nuxt"; ".turbo"; "venv"; "__pycache__";
   ".pytest_cache"; ".mypy_cache"; "vendor"; "tmp"; "temp"]%string.

Definition isIgnoredDirectory (n : str) : bool :=
  (anyStr ignored (Str.eqb n) || startsWith (lit ".") n)%bool.

Definition priorities : list (string * Z) :=
  [("README.md", 1); ("readme.md", 1); ("package.json", 2);
   ("tsconfig.json", 3); ("index.ts", 4); ("index.js", 4); ("main.ts", 5);
   ("main.js", 5); ("app.ts", 6); ("app.js", 6)].

(** [priorities[a] || 999], for a name that is no member of
    [Object.prototype]. *)
Definition priorityOf (a : str) : Z :=
  match find (fun kv => Str.eqb (lit (fst kv)) a) priorities with
  | Some kv => snd kv
  | None => 999
  end.

Definition commonExtensions : list string :=
  [".ts"; ".tsx"; ".js"; ".jsx"; ".py"; ".go"; ".rs"; ".java"; ".json";
   ".yaml"; ".yml"; ".md"; ".txt"; ".env.example"]%string.

(** [base.split('.').pop()?.toLowerCase()] *)
Definition lastDotPart (base : str) : str :=
  toLowerCase (last (split "." base) []).

Record DirState : Type := {
  dirs : list str;
  visited : list str
}.

Section WithCollaborators.

Variable fs : IFileSystem.
Variable pf : Platform.

Definition entryCompare (a b : str) : Z :=
  let aPriority := priorityOf a in
  let bPriority := priorityOf b in
  if negb (aPriority =? bPriority) then aPriority - bPriority
  else localeCompare pf a b.

Definition sortEntries (entries : list str) : list str :=
  sortBy (fun a b => entryCompare a b >? 0) entries.

(** [None]: the constructor of [RegExp] throws. *)
Definition matchesPattern (text pattern : str) : option bool :=
  regexpTestI pf (Glob.breadthFirstRegex pattern) text.

Fixpoint anyPattern (text : str) (patterns : list str) : option bool :=
  match patterns with
  | [] => Some false
  | p :: rest =>
      match matchesPattern text p with
      | None => None
      | Some true => Some true
      | Some false => anyPattern text rest
      end
  end.

Definition shouldExclude (entry : str) (options : LoadingOptions)
  : option bool :=
  if isIgnoredDirectory entry then Some true
  else match excludePatterns options with
       | Some patterns => anyPattern entry patterns
       | None => Some false
       end.

Definition shouldIncludeFile (filename : str) (options : LoadingOptions)
  : option bool :=
  let ext := lastDotPart (basename fs filename) in
  let rejected :=
    match fileTypes options with
    | Some (t :: ts) =>
        (truthy ext && negb (existsb (Str.eqb ("."%char :: ext)) (t :: ts)))%bool
    | _ => false
    end in
  if rejected then Some false
  else match includePatterns options with
       | Some patterns => anyPattern filename patterns
       | None =>
           Some (truthy ext
                 && anyStr commonExtensions (Str.eqb ("."%char :: ext)))%bool
       end.

(** [findDirs(currentPath, currentLevel)] with
    [levels = targetLevel - currentLevel]. *)
Fixpoint findDirs (levels : nat) (currentPath : str) (st : DirState)
  {struct levels} : list FsOp * DirState :=
  if existsb (Str.eqb currentPath) (visited st) then ([], st)
  else
    let st := {| dirs := dirs st; visited := visited st ++ [currentPath] |} in
    match levels with
    | O => ([], {| dirs := dirs st ++ [currentPath]; visited := visited st |})
    | S levels' =>
        match listDirectory fs currentPath with
        | None => ([OpListDirectory currentPath], st)
        | Some entries =>
            let '(t, st') :=
              (fix entriesLoop (es : list str) (st : DirState) {struct es}
                 : list FsOp * DirState :=
                 match es with
                 | [] => ([], st)
                 | entry :: es' =>
                     let fullPath := join fs currentPath entry in
                     if isIgnoredDirectory entry then entriesLoop es' st
                     else
                       match isDirectory fs fullPath with
                       | Some true =>
                           let '(t1, st1) := findDirs levels' fullPath st in
                           let '(t2, st2) := entriesLoop es' st1 in
                           (OpIsDirectory fullPath :: t1 ++ t2, st2)
                       | _ =>
                           let '(t2, st2) := entriesLoop es' st in
                           (OpIsDirectory fullPath :: t2, st2)
                       end
                 end) entries st in
            (OpListDirectory currentPath :: t, st')
        end
    end.

Definition getDirectoriesAtLevel (rootPath : str) (targetLevel : nat)
  : M (list str) :=
  match targetLevel with
  | O => ret [rootPath]
  | _ =>
      let '(t, st) :=
        findDirs targetLevel rootPath {| dirs := []; visited := [] |} in
      (t, Ok (dirs st))
  end.

(** One entry of a directory: the [try] spans [isFile], the inclusion test
    and the read. *)
Definition loadEntry (rootPath dir entry : str) (tokenBudget : Z)
  (options : LoadingOptions) (st : Loaded) : M Loaded :=
  let fullPath := join fs dir entry in
  tryCatch
    (isF <- access (OpIsFile fullPath) fullPath (isFile fs fullPath) ;;
     if isF then
       inc <- liftOpt (InvalidPattern []) (shouldIncludeFile entry options) ;;
       if inc then
         content <- access (OpReadFile fullPath) fullPath
                      (readFile fs fullPath) ;;
         ret (includeIfFits tokenBudget (relative fs rootPath fullPath)
                content st)
       else ret st
     else ret st)
    (fun _ => ret st).

Fixpoint entriesLoop (rootPath dir : str) (tokenBudget : Z)
  (options : LoadingOptions) (entries : list str) (st : Loaded) : M Loaded :=
  match entries with
  | [] => ret st
  | entry :: rest =>
      if l_tokens st >=? tokenBudget then ret st
      else
        ex <- liftOpt (InvalidPattern []) (shouldExclude entry options) ;;
        if ex then entriesLoop rootPath dir tokenBudget options rest st
        else
          st' <- loadEntry rootPath dir entry tokenBudget options st ;;
          entriesLoop rootPath dir tokenBudget options rest st'
  end.

Fixpoint dirsLoop (rootPath : str) (tokenBudget : Z)
  (options : LoadingOptions) (ds : list str) (st : Loaded) : M Loaded :=
  match ds with
  | [] => ret st
  | dir :: rest =>
      if l_tokens st >=? tokenBudget then ret st
      else
        entries <- access (OpListDirectory dir) dir (listDirectory fs dir) ;;
        st' <- entriesLoop rootPath dir tokenBudget options
                 (sortEntries entries) st ;;
        dirsLoop rootPath tokenBudget options rest st'
  end.

Definition loadFilesAtLevel (rootPath : str) (targetLevel : nat)
  (tokenBudget : Z) (options : LoadingOptions) : M (list (str * str)) :=
  dirsAtLevel <- getDirectoriesAtLevel rootPath targetLevel ;;
  st <- dirsLoop rootPath tokenBudget options dirsAtLevel
          {| l_files := []; l_tokens := 0 |} ;;
  ret (l_files st).

(** [buildLevel(currentPath, node, depth)] with
    [levels = maxDepth + 1 - depth]: the children it gives the node. *)
Fixpoint buildLevel (levels : nat) (atRoot : bool) (currentPath : str)
  {struct levels} : list FsOp * list DirNode :=
  match levels with
  | O => ([], [])
  | S levels' =>
      match listDirectory fs currentPath with
      | None => ([OpListDirectory currentPath], [])
      | Some entries =>
          let '(t, children) :=
            (fix entriesLoop (es : list str) {struct es}
               : list FsOp * list DirNode :=
               match es with
               | [] => ([], [])
               | entry :: es' =>
                   if isIgnoredDirectory entry then entriesLoop es'
                   else
                     let fullPath := join fs currentPath entry in
                     let '(t2, rest) := entriesLoop es' in
                     match isDirectory fs fullPath with
                     | Some true =>
                         let '(t1, sub) := buildLevel levels' false fullPath in
                         (OpIsDirectory fullPath :: t1 ++ t2,
                          DirectoryNode entry sub :: rest)
                     | Some false =>
                         if atRoot then
                           match getStats fs fullPath with
                           | Some stats =>
                               (OpIsDirectory fullPath :: OpGetStats fullPath
                                  :: t2,
                                FileNode entry (size stats) :: rest)
                           | None =>
                               (OpIsDirectory fullPath :: OpGetStats fullPath
                                  :: t2, rest)
                           end
                         else (OpIsDirectory fullPath :: t2, rest)
                     | None => (OpIsDirectory fullPath :: t2, rest)
                     end
               end) entries in
          (OpListDirectory currentPath :: t, children)
      end
  end.

Definition buildDirectoryStructure (rootPath : str) (depthLimit : Z)
  : M DirNode :=
  let '(t, children) :=
    buildLevel (Z.to_nat (depthLimit + 1)) true rootPath in
  (t, Ok (DirectoryNode (basename fs rootPath) children)).

Record LevelState : Type := {
  lv_loaded : Loaded;
  lv_stats : list LevelStat
}.

(** The loop over the levels:
    [for (level = 0; level <= maxDepth && totalTokens < maxTokens; level++)],
    with [levels = maxDepth + 1 - level] rounds left. *)
Fixpoint levelsLoop (rootPath : str) (maxTok : Z) (options : LoadingOptions)
  (levels : nat) (lvl : nat) (st : LevelState) : M LevelState :=
  match levels with
  | O => ret st
  | S levels' =>
      if l_tokens (lv_loaded st) <? maxTok then
        levelFiles <-
          loadFilesAtLevel rootPath lvl (maxTok - l_tokens (lv_loaded st))
            options ;;
        let loaded := mergeLoaded levelFiles (lv_loaded st) in
        let stats :=
          if 0 <? Z.of_nat (List.length levelFiles)
          then lv_stats st
                 ++ [{| level := Z.of_nat lvl;
                        levelFiles := Z.of_nat (List.length levelFiles);
                        levelTokens := sumEstimates levelFiles |}]
          else lv_stats st in
        levelsLoop rootPath maxTok options levels' (S lvl)
          {| lv_loaded := loaded; lv_stats := stats |}
      else ret st
  end.

Definition loadContext (rootPath : str) (options : LoadingOptions)
  : M LoadedContext :=
  let maxTok := budgetOf options in
  let depthLimit := orDefault (maxDepth options) 5 in
  st <- levelsLoop rootPath maxTok options (Z.to_nat (depthLimit + 1)) 0
          {| lv_loaded := {| l_files := []; l_tokens := 0 |};
             lv_stats := [] |} ;;
  structure <- buildDirectoryStructure rootPath (Z.min 3 depthLimit) ;;
  ret {| files := l_files (lv_loaded st);
         metadata :=
           [(lit "directoryStructure", MetaDirectoryStructure structure);
            (lit "levelStats", MetaLevelStats (lv_stats st))];
         totalTokens := l_tokens (lv_loaded st);
         strategy := name |}.

End WithCollaborators.

End BreadthFirst.

(* ================================================================== *)
(** * The three strategies behind one name (ContextAggregator.loadContext) *)
(* ================================================================== *)

Inductive StrategyName : Type :=
| ProgressiveStrategy
| FocusedStrategy
| BreadthFirstStrategy.

(** The collaborators a run is wired with. *)
Record Wiring : Type := {
  w_fs : Fs.IFileSystem;
  w_pf : Fs.Platform;
  w_scoreFiles :
    list str -> Scorer.ScoringCriteria -> Fs.M (list Scorer.FileRelevance);
  w_analyzeProject : str -> Fs.M Loading.ProjectInfo;
  w_engineSort : (str -> str -> Z) -> list str -> list str
}.

Definition loadContext (w : Wiring) (s : StrategyName) (rootPath : str)
  (options : Loading.LoadingOptions) : Fs.M Loading.LoadedContext :=
  match s with
  | ProgressiveStrategy =>
      Progressive.loadContext (w_fs w) (w_scoreFiles w) (w_analyzeProject w)
        (w_engineSort w) rootPath options
  | FocusedStrategy =>
      Focused.loadContext (w_fs w) (w_pf w) (w_scoreFiles w) rootPath options
  | BreadthFirstStrategy =>
      BreadthFirst.loadContext (w_fs w) (w_pf w) rootPath options
  end.

(** The wiring of the container: the repository's own scorer. *)
Definition standardWiring (fs : Fs.IFileSystem) (pf : Fs.Platform)
  (analyzer : str -> Fs.M Loading.ProjectInfo)
  (engineSort : (str -> str -> Z) -> list str -> list str) : Wiring :=
  {| w_fs := fs; w_pf := pf;
     w_scoreFiles := Scorer.scoreFiles fs pf;
     w_analyzeProject := analyzer;
     w_engineSort := engineSort |}.

(* ================================================================== *)
(** * The claims of the specification, where they differ from the code *)
(* ================================================================== *)

Module Claimed.
Import Str Optimizer.

(** The summarize loop as the specification words it: full sections are
    appended while they fit; the first that does not fit is tried in its
    very short form, and the loop stops. *)
Fixpoint summarizeLoop (maxTokens : Z) (secs : list str)
  (result : str) (currentTokens : Z) : str :=
  match secs with
  | [] => result
  | section :: rest =>
      let sectionTokens := estimateTokenCount section in
      if currentTokens + sectionTokens >? maxTokens then
        let shorterSummary := summarizeSection section true in
        if currentTokens + estimateTokenCount shorterSummary <=? maxTokens
        then appendPiece result shorterSummary
        else result
      else summarizeLoop maxTokens rest (appendPiece result section)
             (currentTokens + sectionTokens)
  end.

Definition summarizeContent (text : str) (maxTokens : Z) : str :=
  summarizeLoop maxTokens (prioritizeSections (splitIntoSections text)) [] 0.

End Claimed.

(* ================================================================== *)
(** * Vocabulary of the statements *)
(* ================================================================== *)

Module Spec.
Import Str Optimizer.

(** The pieces joined as [summarizeContent] and [selectiveOptimization]
    join them. *)
Definition joinPieces (pieces : list str) : str :=
  fold_left appendPiece pieces [].

Definition sumTokens (pieces : list str) : Z :=
  fold_right (fun p acc => estimateTokenCount p + acc) 0 pieces.

Definition regularSummaries (secs : list str) : list str :=
  map (fun s => summarizeSection s false) secs.

(** The sections that the packing loop keeps, given the tokens already used. *)
Fixpoint kept (maxTokens : Z) (used : Z) (scored : list Scored) : list Scored :=
  match scored with
  | [] => []
  | s :: rest =>
      if used + s_tokens s <=? maxTokens
      then s :: kept maxTokens (used + s_tokens s) rest
      else kept maxTokens used rest
  end.

Definition costOf (l : list Scored) : Z :=
  fold_right (fun s acc => s_tokens s + acc) 0 l.

(** No three newlines in a row. *)
Definition noTripleNewline (s : str) : Prop :=
  includes [nl; nl; nl] s = false.

(** No tab, and no two spaces in a row. *)
Definition noBlankRun (s : str) : Prop :=
  includes [space; space] s = false /\ existsb (Ascii.eqb tab) s = false.

(** Two blanks (space or tab) in a row. *)
Fixpoint hasBlankPair (s : str) : bool :=
  match s with
  | a :: ((b :: _) as s') => ((isBlank a && isBlank b) || hasBlankPair s')%bool
  | _ => false
  end.

(** Three newlines in a row, or two blanks in a row. *)
Definition hasRedundantWhitespace (s : str) : bool :=
  (includes [nl; nl; nl] s || hasBlankPair s)%bool.

Definition startsBlank (s : str) : bool :=
  match s with
  | c :: _ => isBlank c
  | [] => false
  end.

(** The truncation marker neither starts nor ends a run of [x] and holds
    none. *)
Definition markerFree (x : ascii) (k : nat) : Prop :=
  Ascii.eqb x "/" = false /\ Ascii.eqb x "." = false
  /\ includes (repeat x (S k)) (lit "/ ... truncated ..") = false.

(** A scored file passes the threshold, when there is one. *)
Definition meets (t : option Q) (f : Scorer.FileRelevance) : bool :=
  match t with
  | Some t' => Qle_bool t' (Scorer.score f)
  | None => true
  end.

(** [bound * 1.5 ^ n] *)
Fixpoint scale (bound : Q) (n : nat) : Q :=
  match n with
  | O => bound
  | S n' => scale (bound * 1.5)%Q n'
  end.




End Spec.

(* ================================================================== *)
(** * Concrete inputs *)
(* ================================================================== *)

Module Fixtures.
Import Str Fs Loading.

(** A text from its lines. *)
Definition text (ls : list string) : str := Str.join [nl] (map lit ls).

(** [path.join] and [path.relative] on plain paths. *)
Definition plainJoin (a b : str) : str := a ++ lit "/" ++ b.

Definition plainRelative (from to : str) : str :=
  if startsWith (from ++ lit "/") to
  then skipn (S (List.length from)) to else to.

(** [RegExp] on a source without metacharacters: a search for the source,
    without case. *)
Definition literalRegexp (source s : str) : option bool :=
  Some (includes (toLowerCase source) (toLowerCase s)).

Definition plainPlatform : Platform :=
  {| pathJoin := plainJoin;
     pathRelative := plainRelative;
     regexpTestI := literalRegexp;
     regexpCount := fun _ _ => Some 0;
     localeCompare := fun _ _ => 0;
     now := 0 |}.

(** A file system from the files it holds (full path, content): a flat
    directory [root]. *)
Definition flatFs (root : str) (held : list (str * str)) : IFileSystem :=
  {| readFile := fun p => JsMap.get p held;
     listDirectory :=
       fun d => if Str.eqb d root
                then Some (map (fun kv => plainRelative root (fst kv)) held)
                else None;
     getStats :=
       fun p => match JsMap.get p held with
                | Some c => Some {| size := len c; modifiedAt := 0;
                                    isDirectoryStat := false |}
                | None => if Str.eqb p root
                          then Some {| size := 0; modifiedAt := 0;
                                       isDirectoryStat := true |}
                          else None
                end;
     isFile := fun p => Some (JsMap.has p held);
     isDirectory := fun p => Some (Str.eqb p root);
     exists_ := fun p => Some (JsMap.has p held || Str.eqb p root)%bool;
     join := plainJoin;
     relative := plainRelative;
     basename := Path.basename |}.

(** An analyzer that finds nothing to report. *)
Definition bareAnalyzer (_ : str) : M ProjectInfo :=
  ret {| projectType := lit "unknown"; languages := []; configFiles := [];
         docsDirs := []; entryPoints := [] |}.

Definition stableSort (cmp : str -> str -> Z) (l : list str) : list str :=
  sortBy (fun a b => cmp a b >? 0) l.

Definition wiringOf (fs : IFileSystem) : Wiring :=
  standardWiring fs plainPlatform bareAnalyzer stableSort.

Definition noOptions : LoadingOptions :=
  {| maxTokens := None; maxDepth := None; fileTypes := None;
     includePatterns := None; excludePatterns := None; query := None |}.

(** A project that holds a four-character README and nothing else. *)
Definition readmeFs : IFileSystem :=
  flatFs (lit "/p") [(lit "/p/README.md", lit "# Hi")].

(** A project with one source file. *)
Definition indexFs : IFileSystem :=
  flatFs (lit "/p") [(lit "/p/index.ts", lit "export const x = 1;")].

Definition emptyFs : IFileSystem := flatFs (lit "/p") [].

(** A project with a note and a source file. *)
Definition mixedFs : IFileSystem :=
  flatFs (lit "/p")
    [(lit "/p/a.md", lit "# a"); (lit "/p/index.ts", lit "export const x = 1;")].

Definition mixedPaths : list str := map lit ["a.md"; "index.ts"; "b.md"]%string.

(** Criteria that favour TypeScript files, with a threshold of 35. *)
Definition tsCriteria : Scorer.ScoringCriteria :=
  {| Scorer.query := None; Scorer.contextPath := None;
     Scorer.fileTypes := Some [lit ".ts"];
     Scorer.includePatterns := None; Scorer.excludePatterns := None;
     Scorer.threshold := Some 35%Q; Scorer.weights := None |}.


Definition indexPattern : LoadingOptions :=
  {| maxTokens := None; maxDepth := None; fileTypes := None;
     includePatterns := Some [lit "index"]; excludePatterns := None;
     query := None |}.

(** The sections of the selective example of the specification. *)
Definition sectionA : Optimizer.Scored :=
  {| Optimizer.s_content := lit "A"; Optimizer.s_score := 90;
     Optimizer.s_tokens := 100 |}.
Definition sectionB : Optimizer.Scored :=
  {| Optimizer.s_content := lit "B"; Optimizer.s_score := 40;
     Optimizer.s_tokens := 250 |}.
Definition sectionC : Optimizer.Scored :=
  {| Optimizer.s_content := lit "C"; Optimizer.s_score := 95;
     Optimizer.s_tokens := 80 |}.


Definition twoSections : str := text ["# A"; "x"; "# B"; "y"]%string.

(** A fenced block of 21 short lines after a line with two spaces. *)
Definition longFence : str :=
  text ["x  y"; "```js"; "a"; "b"; "c"; "d"; "e"; "f"; "g"; "h"; "i"; "j";
        "k"; "l"; "m"; "n"; "o"; "p"; "q"; "r"; "s"; "```"]%string.

Definition spacedText : str :=
  text ["  This   has   extra   spaces   "; ""; ""; "   and   newlines   "]%string.

End Fixtures.

(* ================================================================== *)
(** * ContextAggregator (src/services/ContextAggregator.ts) *)
(* ================================================================== *)

Module Aggregator.
Import Str Fs Loading.

(** An [ILoadingStrategy], by its [loadContext]. *)
Definition Strategy : Type := str -> LoadingOptions -> M LoadedContext.

(** The map [strategies] as the constructor fills it. *)
Definition initialStrategies (w : Wiring) : list (str * Strategy) :=
  JsMap.set (lit "breadth-first") (BreadthFirst.loadContext (w_fs w) (w_pf w))
    (JsMap.set (lit "focused")
       (Focused.loadContext (w_fs w) (w_pf w) (w_scoreFiles w))
       (JsMap.set (lit "progressive")
          (Progressive.loadContext (w_fs w) (w_scoreFiles w)
             (w_analyzeProject w) (w_engineSort w))
          [])).

(** [Array.from(this.strategies.keys())] *)
Definition getStrategies (strategies : list (str * Strategy)) : list str :=
  map fst strategies.

Definition registerStrategy (name : str) (strategy : Strategy)
  (strategies : list (str * Strategy)) : list (str * Strategy) :=
  JsMap.set name strategy strategies.

(** [loadContext(rootPath, strategy, options)]: the strategies do not read
    the [strategy] field that the call adds to the options. *)
Definition loadContext (strategies : list (str * Strategy))
  (rootPath strategy : str) (options : LoadingOptions) : M LoadedContext :=
  match JsMap.get strategy strategies with
  | Some loadingStrategy => loadingStrategy rootPath options
  | None =>
      throw (ConfigurationError (lit "Unknown loading strategy: " ++ strategy))
  end.

(** ** The files of a context as one text, and back *)

Definition fileMarker : str := lit "// File: ".

(** [entries.map(([path, content]) => `// File: ${path}\n${content}`)
           .join('\n\n')] *)
Definition combineFiles (files : list (str * str)) : str :=
  Str.join [nl; nl]
    (map (fun kv => fileMarker ++ fst kv ++ [nl] ++ snd kv) files).

Definition isCarriageReturn (c : ascii) : bool := Nat.eqb (nat_of_ascii c) 13.

(** A match of [/\/\/ File: (.+?)\n/] at the start of [s]: the marker, one or
    more characters other than line terminators, a newline.  The path cannot
    hold a newline, so the lazy group ends at the first one.  Gives the path
    and what follows the newline. *)
Definition headerAt (s : str) : option (str * str) :=
  if startsWith fileMarker s then
    let rest := skipn (List.length fileMarker) s in
    let filePath := takeWhile (fun c => negb (Ascii.eqb c nl)) rest in
    match filePath, skipn (List.length filePath) rest with
    | _ :: _, _ :: after =>
        if existsb isCarriageReturn filePath then None
        else Some (filePath, after)
    | _, _ => None
    end
  else None.

(** [([\s\S]*?)(?=\/\/ File: |$)]: the text before the next marker, or all
    that is left; the marker itself is not consumed. *)
Definition bodyAt (s : str) : str * str :=
  match Optimizer.breakOn fileMarker s with
  | Some (fileContent, rest) => (fileContent, fileMarker ++ rest)
  | None => (s, [])
  end.

(** The loop [while ((match = fileRegex.exec(content)) !== null)]: the
    leftmost match from the last index on.  Every round passes at least one
    character, so [length content] rounds are enough. *)
Fixpoint parseFrom (fuel : nat) (s : str) (files : list (str * str))
  : list (str * str) :=
  match fuel, s with
  | S fuel', _ :: s' =>
      match headerAt s with
      | Some (filePath, after) =>
          let '(fileContent, rest) := bodyAt after in
          parseFrom fuel' rest
            (JsMap.set (trim filePath) (trim fileContent) files)
      | None => parseFrom fuel' s' files
      end
  | _, _ => files
  end.

Definition parseOptimizedContent (content : str) : list (str * str) :=
  match parseFrom (List.length content) content [] with
  | [] => [(lit "optimized-content", content)]
  | files => files
  end.

(** ** [optimizeContext] *)

Record OptimizationNote : Type := {
  o_strategy : Optimizer.OptimizationStrategy;
  o_originalTokens : Z;
  o_optimizedTokens : Z;
  o_reduction : Q
}.

(** The values of the [metadata] map of a context. *)
Inductive ContextMeta : Type :=
| FromLoading : MetaValue -> ContextMeta
| Optimization : OptimizationNote -> ContextMeta.

Inductive Context : Type :=
| mkContext (rootPath : str) (files : list (str * str))
    (metadata : list (str * ContextMeta)) (projectInfo : ProjectInfo)
    (summary : str) (tokens : Z) (optimized : option Context).

Definition c_files (c : Context) : list (str * str) :=
  match c with mkContext _ files _ _ _ _ _ => files end.

Definition c_metadata (c : Context) : list (str * ContextMeta) :=
  match c with mkContext _ _ metadata _ _ _ _ => metadata end.

Definition c_tokens (c : Context) : Z :=
  match c with mkContext _ _ _ _ _ tokens _ => tokens end.

Section WithCollaborators.

(** The injected [IContextOptimizer.optimizeContext]. *)
Variable optimizer :
  str -> Optimizer.OptimizationStrategy -> option Z
  -> Optimizer.OptimizationResult.

Definition optimizeContext (context : Context)
  (strategy : Optimizer.OptimizationStrategy) (maxTokens : option Z)
  : Context :=
  let allContent := combineFiles (c_files context) in
  let result := optimizer allContent strategy maxTokens in
  let optimizedFiles :=
    parseOptimizedContent (Optimizer.optimizedContent result) in
  match context with
  | mkContext rootPath _ metadata projectInfo summary _ optimized =>
      mkContext rootPath optimizedFiles
        (JsMap.set (lit "optimization")
           (Optimization
              {| o_strategy := strategy;
                 o_originalTokens := Optimizer.originalTokens result;
                 o_optimizedTokens := Optimizer.optimizedTokens result;
                 o_reduction := Optimizer.reduction result |})
           metadata)
        projectInfo summary (Optimizer.optimizedTokens result) optimized
  end.

End WithCollaborators.

End Aggregator.

(* ================================================================== *)
(** * ProjectAnalyzer (src/services/ProjectAnalyzer.ts): the build tool *)
(* ================================================================== *)

Module Analyzer.
Import Str Fs.
Local Open Scope fs_scope.

Section WithCollaborators.

Variable fs : IFileSystem.

(** [await this.fileSystem.exists(this.fileSystem.join(projectPath, name))] *)
Definition existsIn (projectPath : str) (name : string) : M bool :=
  let p := join fs projectPath (lit name) in
  access (OpExists p) p (exists_ fs p).

(** [await a || await b]: [b] is not asked when [a] holds. *)
Definition orElse (a b : M bool) : M bool :=
  x <- a ;; if x then ret true else b.

Definition detectBuildTool (projectPath : str) : M (option str) :=
  let has := existsIn projectPath in
  b <- has "webpack.config.js"%string ;;
  if b then ret (Some (lit "webpack")) else
  b <- has "rollup.config.js"%string ;;
  if b then ret (Some (lit "rollup")) else
  b <- orElse (has "vite.config.js"%string) (has "vite.config.ts"%string) ;;
  if b then ret (Some (lit "vite")) else
  b <- has "esbuild.config.js"%string ;;
  if b then ret (Some (lit "esbuild")) else
  b <- has "parcel.json"%string ;;
  if b then ret (Some (lit "parcel")) else
  b <- has "Makefile"%string ;;
  if b then ret (Some (lit "make")) else
  b <- has "build.gradle"%string ;;
  if b then ret (Some (lit "gradle")) else
  b <- has "pom.xml"%string ;;
  if b then ret (Some (lit "maven")) else
  ret None.

End WithCollaborators.

End Analyzer.

(* ================================================================== *)
(** * Vocabulary of the further properties *)
(* ================================================================== *)

Module Props.
Import Str.

(** Not empty, and no white space at either end. *)
Definition isTrimmed (s : str) : bool :=
  match s, rev s with
  | c :: _, d :: _ => (negb (isSpace c) && negb (isSpace d))%bool
  | _, _ => false
  end.

(** Nothing but white space. *)
Definition isBlankText (s : str) : bool := forallb isSpace s.

(** The lines of a text that are not empty. *)
Definition nonEmptyLines (s : str) : list str :=
  filter truthy (split nl s).

(** The chunks carry their positions, and every count is the estimate of
    the content. *)
Definition numbered (cs : list Optimizer.ContextChunk) : Prop :=
  map Optimizer.index cs = map Z.of_nat (seq 0 (List.length cs))
  /\ Forall (fun c => Optimizer.tokenCount c
                      = Optimizer.estimateTokenCount (Optimizer.content c)) cs.

(** The bound of a piece of a large section: its estimate is within the
    limit, or it is one line. *)
Definition withinOrOneLine (maxTokens : Z) (p : str) : Prop :=
  Optimizer.estimateTokenCount p <= maxTokens \/ ~ In nl p.

(** A score between 0 and 100. *)
Definition isPercentage (q : Q) : Prop := (0 <= q /\ q <= 100)%Q.

(** The tokens that the level statistics of a breadth-first run add up to. *)
Definition levelTokensSum (stats : list Loading.LevelStat) : Z :=
  fold_right (fun s acc => Loading.levelTokens s + acc) 0 stats.

(** The statistics under the key [levelStats]. *)
Definition levelStatsOf (md : list (str * Loading.MetaValue))
  : option (list Loading.LevelStat) :=
  match JsMap.get (lit "levelStats") md with
  | Some (Loading.MetaLevelStats stats) => Some stats
  | _ => None
  end.

(** The extensions that the breadth-first strategy loads by default. *)
Definition loadableExtensions : list string :=
  ["ts"; "tsx"; "js"; "jsx"; "py"; "go"; "rs"; "java"; "json"; "yaml"; "yml";
   "md"; "txt"]%string.

(** The files whose presence names a build tool, in the order of the
    checks. *)
Definition buildFiles : list string :=
  ["webpack.config.js"; "rollup.config.js"; "vite.config.js";
   "vite.config.ts"; "esbuild.config.js"; "parcel.json"; "Makefile";
   "build.gradle"; "pom.xml"]%string.

Definition buildTools : list string :=
  ["webpack"; "rollup"; "vite"; "esbuild"; "parcel"; "make"; "gradle";
   "maven"]%string.

(** The text of one file in the combined text. *)
Definition entryOf (kv : str * str) : str :=
  Aggregator.fileMarker ++ fst kv ++ [nl] ++ snd kv.

(** A path that [parseOptimizedContent] reads back as it was written: not
    empty, on one line, without white space at its ends. *)
Definition plainPath (p : str) : Prop :=
  isTrimmed p = true
  /\ ~ In nl p
  /\ existsb Aggregator.isCarriageReturn p = false.

(** A content that is read back as it was written: without white space at
    its ends, and without the file marker. *)
Definition plainContent (c : str) : Prop :=
  trim c = c /\ includes Aggregator.fileMarker c = false.

(** The paths that have a record under the key [relevance] of a metadata
    map, in the order of the records. *)
Definition relevanceKeys (md : list (str * Loading.MetaValue)) : list str :=
  match JsMap.get (lit "relevance") md with
  | Some (Loading.MetaRelevance r) => map fst r
  | _ => []
  end.


Definition byScoreDescending (l : list Scorer.FileRelevance) : Prop :=
  StronglySorted (fun a b => (Scorer.score b <= Scorer.score a)%Q) l.

(** The sections that the packing loop of [selectiveOptimization] keeps of a
    ranking, given the tokens used so far: a section is kept when its
    estimate fits on top of them, and the walk goes on either way. *)
Fixpoint keptSections (maxTokens used : Z) (secs : list str) : list str :=
  match secs with
  | [] => []
  | s :: rest =>
      if used + Optimizer.estimateTokenCount s <=? maxTokens
      then s :: keptSections maxTokens
                  (used + Optimizer.estimateTokenCount s) rest
      else keptSections maxTokens used rest
  end.

(** The build files with the tool that each one names, in the order of the
    checks. *)
Definition buildChecks : list (string * string) :=
  [("webpack.config.js", "webpack"); ("rollup.config.js", "rollup");
   ("vite.config.js", "vite"); ("vite.config.ts", "vite");
   ("esbuild.config.js", "esbuild"); ("parcel.json", "parcel");
   ("Makefile", "make"); ("build.gradle", "gradle");
   ("pom.xml", "maven")]%string.

End Props.

(* ================================================================== *)
(** * Further concrete inputs *)
(* ================================================================== *)

Module Samples.
Import Str Fs Loading.

(** Two spaces, a newline, a tab and a space. *)
Definition blankText : str := [space; space; nl; tab; space].

(** A platform whose [RegExp] refuses a source with an opening bracket that
    is never closed, as the constructor does. *)
Definition strictRegexp (source s : str) : option bool :=
  if (existsb (Ascii.eqb "["%char) source
      && negb (existsb (Ascii.eqb "]"%char) source))%bool
  then None else Fixtures.literalRegexp source s.

Definition strictPlatform : Platform :=
  {| pathJoin := Fixtures.plainJoin;
     pathRelative := Fixtures.plainRelative;
     regexpTestI := strictRegexp;
     regexpCount := fun _ _ => Some 0;
     localeCompare := fun _ _ => 0;
     now := 0 |}.

Definition noCriteria : Scorer.ScoringCriteria :=
  {| Scorer.query := None; Scorer.contextPath := None;
     Scorer.fileTypes := None; Scorer.includePatterns := None;
     Scorer.excludePatterns := None; Scorer.threshold := None;
     Scorer.weights := None |}.

(** Criteria that exclude what matches [index]. *)
Definition excludeIndex : Scorer.ScoringCriteria :=
  {| Scorer.query := None; Scorer.contextPath := None;
     Scorer.fileTypes := None; Scorer.includePatterns := None;
     Scorer.excludePatterns := Some [lit "index"]; Scorer.threshold := None;
     Scorer.weights := None |}.

(** Criteria with an include pattern that is no regular expression. *)
Definition includeBracket : Scorer.ScoringCriteria :=
  {| Scorer.query := None; Scorer.contextPath := None;
     Scorer.fileTypes := None; Scorer.includePatterns := Some [lit "["];
     Scorer.excludePatterns := None; Scorer.threshold := None;
     Scorer.weights := None |}.

(** Options whose one include pattern is no regular expression. *)
Definition bracketInclude : LoadingOptions :=
  {| maxTokens := None; maxDepth := None; fileTypes := None;
     includePatterns := Some [lit "["]; excludePatterns := None;
     query := None |}.

(** Options whose one exclude pattern is no regular expression. *)
Definition bracketExclude : LoadingOptions :=
  {| maxTokens := None; maxDepth := None; fileTypes := None;
     includePatterns := None; excludePatterns := Some [lit "["];
     query := None |}.

(** An analyzer that fails. *)
Definition failingAnalyzer (p : str) : M ProjectInfo :=
  throw (IOFailure p).

Definition twoFiles : list (str * str) :=
  [(lit "src/a.ts", lit "export const a = 1;");
   (lit "README.md", Fixtures.text ["# Title"; ""; "Text."]%string)].

(** A heading followed by [n] one-letter words. *)
Definition headed (heading : string) (n : nat) : str :=
  lit heading ++ List.concat (repeat (lit " x") n).

(** Three sections whose estimates are 100, 250 and 80 tokens, and whose
    relevance scores are 18, 10 and 22. *)
Definition partA : str := headed "# A main" 97.
Definition partB : str := headed "# B test" 247.
Definition partC : str := headed "# C main api" 76.

Definition threeParts : str := Str.join [nl] [partA; partB; partC].

End Samples.

(* ================================================================== *)
(** * Proofs *)
(* ================================================================== *)

(** The proofs reason about these functions through their lemmas. *)
Arguments Optimizer.summarizeSection : simpl never.
Arguments Optimizer.estimateTokenCount : simpl never.
Arguments Optimizer.calculateSectionImportance : simpl never.
Arguments Optimizer.splitIntoSections : simpl never.
Arguments Optimizer.appendPiece : simpl never.
Arguments Loading.estimateTokens : simpl never.
Arguments Loading.includeIfFits : simpl never.

(* ================================================================== *)
(** * Facts about the stable sort *)
(* ================================================================== *)

Section SortFacts.

Context {A : Type} (after : A -> A -> bool).

Lemma insertBy_perm (x : A) (l : list A) :
  Permutation (insertBy after x l) (x :: l).
Proof.
  induction l as [|y l IH]; simpl.
  - apply Permutation_refl.
  - destruct (after x y).
    + eapply perm_trans; [apply perm_skip, IH | apply perm_swap].
    + apply Permutation_refl.
Qed.

Lemma sortBy_perm (l : list A) : Permutation (sortBy after l) l.
Proof.
  induction l as [|x l IH]; simpl.
  - constructor.
  - eapply perm_trans; [apply insertBy_perm | apply perm_skip, IH].
Qed.

(** Elements that the comparator never orders against each other keep
    their input order. *)
Lemma insertBy_filter (P : A -> bool) (x : A) (l : list A) :
  (forall a b, P a = true -> P b = true -> after a b = false) ->
  filter P (insertBy after x l) = filter P (x :: l).
Proof.
  intros HP. induction l as [|y l IH]; simpl.
  - reflexivity.
  - destruct (after x y) eqn:Exy.
    + simpl. rewrite IH. simpl.
      destruct (P x) eqn:Px; destruct (P y) eqn:Py; try reflexivity.
      rewrite (HP x y Px Py) in Exy. discriminate.
    + reflexivity.
Qed.

Lemma sortBy_stable (P : A -> bool) (l : list A) :
  (forall a b, P a = true -> P b = true -> after a b = false) ->
  filter P (sortBy after l) = filter P l.
Proof.
  intros HP. induction l as [|x l IH]; simpl.
  - reflexivity.
  - rewrite (insertBy_filter P x _ HP). simpl. now rewrite IH.
Qed.

Hypothesis after_asym : forall a b, after a b = true -> after b a = false.
Hypothesis after_trans :
  forall a b c, after a b = false -> after b c = false -> after a c = false.

Lemma insertBy_sorted (x : A) (l : list A) :
  StronglySorted (fun a b => after a b = false) l ->
  StronglySorted (fun a b => after a b = false) (insertBy after x l).
Proof.
  induction 1 as [|y l Hs IH Hy]; simpl.
  - repeat constructor.
  - destruct (after x y) eqn:Exy.
    + constructor; [exact IH|].
      apply (Permutation_Forall (Permutation_sym (insertBy_perm x l))).
      constructor; [now apply after_asym | exact Hy].
    + constructor; [now constructor|].
      constructor; [exact Exy|].
      eapply Forall_impl; [|exact Hy].
      intros z Hyz. now apply (after_trans x y z).
Qed.

Lemma sortBy_sorted (l : list A) :
  StronglySorted (fun a b => after a b = false) (sortBy after l).
Proof.
  induction l as [|x l IH]; simpl.
  - constructor.
  - now apply insertBy_sorted.
Qed.

End SortFacts.

Lemma StronglySorted_mono {A : Type} (R R' : A -> A -> Prop) (l : list A) :
  (forall a b, R a b -> R' a b) ->
  StronglySorted R l -> StronglySorted R' l.
Proof.
  intros HR. induction 1 as [|x l Hs IH Hx]; constructor.
  - exact IH.
  - eapply Forall_impl; [|exact Hx]. intros b. apply HR.
Qed.

(** Sorting by an integer key, greatest first. *)
Lemma sortDesc_sorted {A : Type} (key : A -> Z) (l : list A) :
  StronglySorted (fun a b => key b <= key a) (Optimizer.sortDesc key l).
Proof.
  unfold Optimizer.sortDesc.
  eapply StronglySorted_mono;
    [|apply (sortBy_sorted (fun a b => key a <? key b))].
  - intros a b H. simpl in H. apply Z.ltb_ge in H. exact H.
  - intros a b H. apply Z.ltb_lt in H. apply Z.ltb_ge. lia.
  - intros a b c H1 H2. apply Z.ltb_ge in H1, H2. apply Z.ltb_ge. lia.
Qed.

Lemma sortDesc_stable {A : Type} (key : A -> Z) (v : Z) (l : list A) :
  filter (fun a => key a =? v) (Optimizer.sortDesc key l)
  = filter (fun a => key a =? v) l.
Proof.
  unfold Optimizer.sortDesc. apply sortBy_stable.
  intros a b Ha Hb. apply Z.eqb_eq in Ha, Hb. apply Z.ltb_ge. lia.
Qed.

(* ================================================================== *)
(** * ContextOptimizer: token estimates, sections, packing *)
(* ================================================================== *)

Section OptimizerFacts.
Import Str Optimizer Spec.

Lemma ceilDiv_nonneg (a b : Z) : 0 <= a -> 0 < b -> 0 <= ceilDiv a b.
Proof.
  intros Ha Hb. unfold ceilDiv. apply Z.div_pos; lia.
Qed.

Lemma len_nonneg (s : str) : 0 <= len s.
Proof. unfold len. lia. Qed.

Lemma wordCost_nonneg (w : str) : 0 <= wordCost w.
Proof.
  unfold wordCost, AVERAGE_CHARS_PER_TOKEN.
  destruct (isCodeToken w); [apply ceilDiv_nonneg; [apply len_nonneg | lia]|].
  destruct (len w <=? 4); [lia|].
  apply ceilDiv_nonneg; [apply len_nonneg | lia].
Qed.

Lemma fold_wordCost_nonneg (ws : list str) (acc : Z) :
  0 <= acc ->
  0 <= fold_left (fun tokenCount w => tokenCount + wordCost w) ws acc.
Proof.
  revert acc. induction ws as [|w ws IH]; simpl; intros acc Hacc.
  - exact Hacc.
  - apply IH. pose proof (wordCost_nonneg w). lia.
Qed.

Lemma estimateTokenCount_nonneg (s : str) : 0 <= estimateTokenCount s.
Proof.
  unfold estimateTokenCount.
  pose proof (fold_wordCost_nonneg (words s) 0 (Z.le_refl 0)).
  assert (0 <= ceilDiv (3 * count isPunctuation s) 10).
  { apply ceilDiv_nonneg; [unfold count; lia | lia]. }
  lia.
Qed.

Lemma split_nonempty (sep : ascii) (s : str) : split sep s <> [].
Proof.
  destruct s as [|c s]; cbn [split]; [discriminate|].
  destruct (Ascii.eqb c sep); [discriminate|].
  destruct (split sep s); discriminate.
Qed.

(** Joining the lines of a text gives the text back. *)
Lemma join_split (sep : ascii) (s : str) : join [sep] (split sep s) = s.
Proof.
  induction s as [|c s IH]; cbn [split join].
  - reflexivity.
  - destruct (Ascii.eqb c sep) eqn:E.
    + apply Ascii.eqb_eq in E. subst c.
      pose proof (split_nonempty sep s) as Hne.
      destruct (split sep s) as [|w ws] eqn:Es; [contradiction|].
      simpl in *. now rewrite IH.
    + pose proof (split_nonempty sep s) as Hne.
      destruct (split sep s) as [|w ws] eqn:Es; [contradiction|].
      destruct ws as [|w' ws]; simpl in *; now rewrite <- IH.
Qed.

Lemma sumTokens_nonneg (pieces : list str) : 0 <= sumTokens pieces.
Proof.
  induction pieces as [|p ps IH]; simpl; [lia|].
  pose proof (estimateTokenCount_nonneg p). lia.
Qed.

Lemma sumTokens_app (a b : list str) :
  sumTokens (a ++ b) = sumTokens a + sumTokens b.
Proof.
  induction a as [|p a IH]; simpl; lia.
Qed.

(** The packing loop keeps exactly [kept]. *)
Lemma selectLoop_kept (maxTokens : Z) (scored : list Scored) :
  forall result used,
    selectLoop maxTokens scored result used
    = (fold_left appendPiece (map s_content (kept maxTokens used scored)) result,
       used + costOf (kept maxTokens used scored)).
Proof.
  induction scored as [|s rest IH]; intros result used; simpl.
  - f_equal. lia.
  - destruct (used + s_tokens s <=? maxTokens) eqn:Hfit.
    + assert ((used + s_tokens s >? maxTokens) = false) as ->.
      { apply Z.leb_le in Hfit. rewrite Z.gtb_ltb. apply Z.ltb_ge. lia. }
      rewrite IH. simpl. f_equal. lia.
    + assert ((used + s_tokens s >? maxTokens) = true) as ->.
      { apply Z.leb_gt in Hfit. rewrite Z.gtb_ltb. apply Z.ltb_lt. lia. }
      apply IH.
Qed.

(** The decision on a section rests on what was kept before it, and the
    scan goes on after a section that was passed over. *)
Lemma kept_app (maxTokens : Z) (pre post : list Scored) :
  forall used,
    kept maxTokens used (pre ++ post)
    = kept maxTokens used pre
        ++ kept maxTokens (used + costOf (kept maxTokens used pre)) post.
Proof.
  induction pre as [|s pre IH]; intros used; simpl.
  - now rewrite Z.add_0_r.
  - destruct (used + s_tokens s <=? maxTokens); simpl.
    + rewrite IH, Z.add_assoc. reflexivity.
    + apply IH.
Qed.

Lemma kept_within (maxTokens : Z) (scored : list Scored) :
  forall used,
    used <= maxTokens ->
    used + costOf (kept maxTokens used scored) <= maxTokens.
Proof.
  induction scored as [|s rest IH]; intros used Hused; simpl.
  - lia.
  - destruct (used + s_tokens s <=? maxTokens) eqn:Hfit; simpl.
    + apply Z.leb_le in Hfit. specialize (IH _ Hfit). lia.
    + now apply IH.
Qed.

End OptimizerFacts.

Section SelectiveFacts.
Import Str Optimizer Spec.

(** Sorting commutes with a map that respects the order. *)
Lemma insertBy_map {A B : Type} (f : A -> B) (after : A -> A -> bool)
  (after' : B -> B -> bool) (x : A) (l : list A) :
  (forall a b, after' (f a) (f b) = after a b) ->
  insertBy after' (f x) (map f l) = map f (insertBy after x l).
Proof.
  intros Hf. induction l as [|y l IH]; cbn [map insertBy]; [reflexivity|].
  rewrite Hf. destruct (after x y); cbn [map]; [now rewrite IH | reflexivity].
Qed.

Lemma sortBy_map {A B : Type} (f : A -> B) (after : A -> A -> bool)
  (after' : B -> B -> bool) (l : list A) :
  (forall a b, after' (f a) (f b) = after a b) ->
  sortBy after' (map f l) = map f (sortBy after l).
Proof.
  intros Hf. induction l as [|x l IH]; cbn [map sortBy]; [reflexivity|].
  rewrite IH. now apply insertBy_map.
Qed.

(** The records that [selectiveOptimization] ranks carry the section, its
    relevance score and its estimate: ranking the records is ranking the
    sections by [calculateRelevanceScore]. *)
Lemma sortDesc_scoreSection (secs : list str) :
  sortDesc s_score (map scoreSection secs)
  = map scoreSection (sortDesc calculateRelevanceScore secs).
Proof.
  unfold sortDesc. apply sortBy_map. intros a b. reflexivity.
Qed.

Lemma kept_scoreSection (maxTokens : Z) (secs : list str) :
  forall used,
    kept maxTokens used (map scoreSection secs)
    = map scoreSection (Props.keptSections maxTokens used secs).
Proof.
  induction secs as [|s secs IH]; intros used;
    cbn [map kept Props.keptSections]; [reflexivity|].
  cbn [scoreSection s_tokens].
  destruct (used + estimateTokenCount s <=? maxTokens); cbn [map];
    now rewrite IH.
Qed.

Lemma contents_scoreSection (secs : list str) :
  map s_content (map scoreSection secs) = secs.
Proof.
  induction secs as [|s secs IH]; cbn [map scoreSection s_content];
    [reflexivity | now rewrite IH].
Qed.

Lemma costOf_scoreSection (secs : list str) :
  costOf (map scoreSection secs) = sumTokens secs.
Proof.
  induction secs as [|s secs IH]; [reflexivity|].
  cbn [map costOf sumTokens fold_right scoreSection s_tokens].
  fold (costOf (map scoreSection secs)). fold (sumTokens secs). now rewrite IH.
Qed.

Lemma keptSections_app (maxTokens : Z) (pre post : list str) :
  forall used,
    Props.keptSections maxTokens used (pre ++ post)
    = Props.keptSections maxTokens used pre
        ++ Props.keptSections maxTokens
             (used + sumTokens (Props.keptSections maxTokens used pre)) post.
Proof.
  intros used.
  pose proof (f_equal (map s_content)
                (kept_app maxTokens (map scoreSection pre)
                   (map scoreSection post) used)) as H.
  rewrite <- map_app, !kept_scoreSection, map_app in H.
  rewrite !contents_scoreSection, costOf_scoreSection in H. exact H.
Qed.

Lemma keptSections_within (maxTokens : Z) (secs : list str) :
  forall used,
    used <= maxTokens ->
    used + sumTokens (Props.keptSections maxTokens used secs) <= maxTokens.
Proof.
  intros used Hused.
  pose proof (kept_within maxTokens (map scoreSection secs) used Hused) as H.
  now rewrite kept_scoreSection, costOf_scoreSection in H.
Qed.

Lemma keptSections_sub (maxTokens : Z) (P : str -> Prop) (secs : list str) :
  forall used,
    Forall P secs -> Forall P (Props.keptSections maxTokens used secs).
Proof.
  induction secs as [|s secs IH]; intros used H; [constructor|].
  inversion H; subst. cbn [Props.keptSections].
  destruct (used + estimateTokenCount s <=? maxTokens); [constructor|]; auto.
Qed.

(** Sections are never empty. *)
Lemma pushTrimmed_nonempty (secs : list str) (cur : str) :
  Forall (fun sec => sec <> []) secs ->
  Forall (fun sec => sec <> []) (pushTrimmed secs cur).
Proof.
  intros H. unfold pushTrimmed.
  destruct (trim cur) as [|c t]; cbn [truthy isEmpty negb]; [exact H|].
  apply Forall_app. split; [exact H|]. constructor; [discriminate | constructor].
Qed.

Lemma splitSteps_nonempty (lines : list str) :
  forall st,
    Forall (fun sec => sec <> []) (sections st) ->
    Forall (fun sec => sec <> []) (sections (fold_left splitStep lines st)).
Proof.
  induction lines as [|line lines IH]; intros st H; cbn [fold_left];
    [exact H|].
  apply IH. unfold splitStep.
  destruct (negb _ && isSectionMarker line)%bool; cbn [sections];
    [now apply pushTrimmed_nonempty | exact H].
Qed.

Lemma sections_nonempty (content : str) :
  Forall (fun sec => sec <> []) (splitIntoSections content).
Proof.
  unfold splitIntoSections. apply pushTrimmed_nonempty, splitSteps_nonempty.
  constructor.
Qed.

(** Pieces that are not empty are joined by blank lines. *)
Lemma fold_appendPiece_join (pieces : list str) :
  forall c result,
    Forall (fun p => p <> []) pieces ->
    fold_left appendPiece pieces (c :: result)
    = join [nl; nl] ((c :: result) :: pieces).
Proof.
  induction pieces as [|p pieces IH]; intros c result H; cbn [fold_left];
    [reflexivity|].
  inversion H as [|p' ps Hp Hps]; subst.
  unfold appendPiece at 2. cbn [truthy isEmpty negb].
  destruct p as [|d p]; [contradiction|].
  destruct ((c :: result) ++ [nl; nl] ++ d :: p) as [|e r] eqn:E;
    [discriminate|].
  rewrite (IH e r Hps), <- E.
  destruct pieces as [|q pieces]; cbn [join]; [reflexivity|].
  now rewrite <- !app_assoc.
Qed.

Lemma joinPieces_join (pieces : list str) :
  Forall (fun p => p <> []) pieces ->
  joinPieces pieces = join [nl; nl] pieces.
Proof.
  intros H. unfold joinPieces. destruct pieces as [|p pieces]; [reflexivity|].
  inversion H as [|p' ps Hp Hps]; subst. cbn [fold_left].
  unfold appendPiece at 2. cbn [truthy isEmpty negb app].
  destruct p as [|c p]; [contradiction|].
  now apply fold_appendPiece_join.
Qed.

End SelectiveFacts.

(** C6.  For every text, selective optimization ranks the sections of the
    text by descending [calculateRelevanceScore] (ties in the order of the
    text) and walks the ranking once: a section is appended exactly when
    its [estimateTokenCount] fits on top of the estimates of what was kept
    before it, and the walk goes on past a section that does not fit.  The
    result is the kept sections, in the order of the ranking, separated by
    blank lines; a non-negative budget is never exceeded.  The sort and the
    loop do the same on any scored records: on A (cost 100, score 90),
    B (250, 40), C (80, 95) with budget 200 they give C then A, cost 180.
    The same costs arise from a text: its three sections of 100, 250 and 80
    tokens are ranked C, A, B, and the result is C then A, 180 tokens. *)
Theorem selective_packs_by_descending_score :
  forall (text : str) (maxTokens : Z),
    let score := Optimizer.calculateRelevanceScore in
    let cost := Optimizer.estimateTokenCount in
    let secs := Optimizer.splitIntoSections text in
    let ranked := Optimizer.sortDesc score secs in
    let chosen := Props.keptSections maxTokens 0 ranked in
    StronglySorted (fun a b => score b <= score a) ranked
    /\ Permutation ranked secs
    /\ (forall v,
          filter (fun s => score s =? v) ranked
          = filter (fun s => score s =? v) secs)
    /\ Optimizer.selectiveOptimization text maxTokens = Spec.joinPieces chosen
    /\ Spec.joinPieces chosen = Str.join [Str.nl; Str.nl] chosen
    /\ (forall pre s post,
          ranked = pre ++ s :: post ->
          let used := Spec.sumTokens (Props.keptSections maxTokens 0 pre) in
          chosen
          = Props.keptSections maxTokens 0 pre
              ++ (if used + cost s <=? maxTokens
                  then s :: Props.keptSections maxTokens (used + cost s) post
                  else Props.keptSections maxTokens used post))
    /\ (0 <= maxTokens -> Spec.sumTokens chosen <= maxTokens)
    /\ (forall scored : list Optimizer.Scored,
          let rankedS := Optimizer.sortDesc Optimizer.s_score scored in
          StronglySorted
            (fun a b => Optimizer.s_score b <= Optimizer.s_score a) rankedS
          /\ Permutation rankedS scored
          /\ (forall v,
                filter (fun s => Optimizer.s_score s =? v) rankedS
                = filter (fun s => Optimizer.s_score s =? v) scored)
          /\ Optimizer.packScored scored maxTokens
             = (Spec.joinPieces
                  (map Optimizer.s_content (Spec.kept maxTokens 0 rankedS)),
                Spec.costOf (Spec.kept maxTokens 0 rankedS))
          /\ (forall pre s post,
                rankedS = pre ++ s :: post ->
                let used := Spec.costOf (Spec.kept maxTokens 0 pre) in
                Spec.kept maxTokens 0 rankedS
                = Spec.kept maxTokens 0 pre
                    ++ (if used + Optimizer.s_tokens s <=? maxTokens
                        then s :: Spec.kept maxTokens
                                    (used + Optimizer.s_tokens s) post
                        else Spec.kept maxTokens used post))
          /\ (0 <= maxTokens ->
              Spec.costOf (Spec.kept maxTokens 0 rankedS) <= maxTokens))
    /\ Optimizer.packScored
         [Fixtures.sectionA; Fixtures.sectionB; Fixtures.sectionC] 200
       = (lit "C" ++ [Str.nl; Str.nl] ++ lit "A", 180)
    /\ Spec.kept 200 0
         (Optimizer.sortDesc Optimizer.s_score
            [Fixtures.sectionA; Fixtures.sectionB; Fixtures.sectionC])
       = [Fixtures.sectionC; Fixtures.sectionA]
    /\ Optimizer.splitIntoSections Samples.threeParts
       = [Samples.partA; Samples.partB; Samples.partC]
    /\ map cost [Samples.partA; Samples.partB; Samples.partC] = [100; 250; 80]
    /\ Optimizer.sortDesc score [Samples.partA; Samples.partB; Samples.partC]
       = [Samples.partC; Samples.partA; Samples.partB]
    /\ Optimizer.selectiveOptimization Samples.threeParts 200
       = Samples.partC ++ [Str.nl; Str.nl] ++ Samples.partA
    /\ Spec.sumTokens [Samples.partC; Samples.partA] = 180.
Proof.
  intros text maxTokens score cost secs ranked chosen.
  split; [apply sortDesc_sorted|].
  split; [apply sortBy_perm|].
  split; [intros v; apply sortDesc_stable|].
  split.
  { unfold Optimizer.selectiveOptimization, Optimizer.packScored.
    rewrite selectLoop_kept. cbn [fst].
    rewrite sortDesc_scoreSection, kept_scoreSection, contents_scoreSection.
    reflexivity. }
  split.
  { apply joinPieces_join, keptSections_sub.
    apply (Permutation_Forall (Permutation_sym (sortBy_perm _ secs))).
    apply sections_nonempty. }
  split.
  { intros pre s post Hr used. unfold chosen. rewrite Hr.
    rewrite keptSections_app. cbn [Props.keptSections]. fold used. fold cost.
    replace (0 + used) with used by lia. reflexivity. }
  split.
  { intros Hmax. pose proof (keptSections_within maxTokens ranked 0 Hmax).
    fold chosen in H. lia. }
  split.
  { intros scored rankedS.
    split; [apply sortDesc_sorted|].
    split; [apply sortBy_perm|].
    split; [intros v; apply sortDesc_stable|].
    split.
    { unfold Optimizer.packScored. fold rankedS.
      rewrite selectLoop_kept. unfold Spec.joinPieces. f_equal. }
    split.
    { intros pre s post Hr used. rewrite Hr.
      rewrite kept_app. simpl. fold used.
      replace (0 + used) with used by lia. reflexivity. }
    intros Hmax. pose proof (kept_within maxTokens rankedS 0 Hmax). lia. }
  repeat split; vm_compute; reflexivity.
Qed.

Section SummarizeFacts.
Import Str Optimizer Spec.

(** The shape of the result of the summarize loop: the regular summaries of
    the first [k] sections, then at most one very short summary. *)
Lemma summarizeLoop_shape (maxTokens : Z) (secs : list str) :
  forall result used,
  exists (k : nat) (tail : list str),
    (k <= List.length secs)%nat
    /\ summarizeLoop maxTokens secs result used
       = fold_left appendPiece (regularSummaries (firstn k secs) ++ tail) result
    /\ (k = 0%nat
        \/ used + sumTokens (regularSummaries (firstn k secs)) <= maxTokens)
    /\ ((k = List.length secs /\ tail = [])
        \/ exists s,
             nth_error secs k = Some s
             /\ maxTokens
                < used + sumTokens (regularSummaries (firstn k secs))
                  + estimateTokenCount (summarizeSection s false)
             /\ tail
                = if used + sumTokens (regularSummaries (firstn k secs))
                     + estimateTokenCount (summarizeSection s true)
                     <=? maxTokens
                  then [summarizeSection s true] else []).
Proof.
  induction secs as [|s rest IH]; intros result used.
  - exists 0%nat, []. simpl. repeat split; auto.
  - simpl.
    destruct (used + estimateTokenCount (summarizeSection s false) >? maxTokens)
      eqn:Hover.
    + exists 0%nat.
      exists (if used + estimateTokenCount (summarizeSection s true) <=? maxTokens
              then [summarizeSection s true] else []).
      simpl. rewrite Z.add_0_r.
      split; [lia|]. split.
      { destruct (used + estimateTokenCount (summarizeSection s true)
                  <=? maxTokens); reflexivity. }
      split; [now left|]. right. exists s.
      split; [reflexivity|]. split; [|reflexivity].
      rewrite Z.gtb_ltb in Hover. apply Z.ltb_lt in Hover. lia.
    + rewrite Z.gtb_ltb in Hover. apply Z.ltb_ge in Hover.
      destruct (IH (appendPiece result (summarizeSection s false))
                  (used + estimateTokenCount (summarizeSection s false)))
        as (k & tail & Hk & Hres & Hfit & Hstop).
      exists (S k), tail. simpl.
      split; [lia|]. split; [exact Hres|]. split.
      { right. destruct Hfit as [-> | Hfit]; simpl; lia. }
      destruct Hstop as [[-> ->] | (s' & Hnth & Hgt & Htail)].
      * now left.
      * right. exists s'. split; [exact Hnth|].
        rewrite !Z.add_assoc. split; [exact Hgt | exact Htail].
Qed.

End SummarizeFacts.



(** C8.  A chunk of fewer than ten lines hands its whole text to its
    successor: [overlapLines] is 0 and [slice(-0)] is the whole array.  With
    chunk size 3 the two-section text gives the chunks [# A / x] and
    [# B / y]; after the overlaps the second is [# A / x / / # B / y], six
    tokens on a chunk size of three, where the bound
    [min(5, 10% of the lines)] allows no overlap at all. *)
Theorem overlap_of_short_chunk_is_whole_chunk :
  (forall c : Optimizer.ContextChunk,
     Z.of_nat (List.length (Str.split Str.nl (Optimizer.content c))) < 10 ->
     Optimizer.overlapLines
       (Z.of_nat (List.length (Str.split Str.nl (Optimizer.content c)))) = 0
     /\ Optimizer.overlapOf c = Optimizer.content c)
  /\ map Optimizer.content (Optimizer.buildChunks Fixtures.twoSections 3)
     = [Fixtures.text ["# A"; "x"]%string; Fixtures.text ["# B"; "y"]%string]
  /\ map Optimizer.content
       (Optimizer.chunkContext Fixtures.twoSections (Some 3))
     = [Fixtures.text ["# A"; "x"]%string;
        Fixtures.text ["# A"; "x"; ""; "# B"; "y"]%string]
  /\ map Optimizer.tokenCount
       (Optimizer.chunkContext Fixtures.twoSections (Some 3))
     = [3; 6].
Proof.
  split.
  { intros c Hlt.
    assert (Optimizer.overlapLines
              (Z.of_nat (List.length (Str.split Str.nl (Optimizer.content c))))
            = 0) as H0.
    { unfold Optimizer.overlapLines.
      rewrite Z.div_small by lia. reflexivity. }
    split; [exact H0|].
    unfold Optimizer.overlapOf. rewrite H0. unfold Str.sliceFrom. simpl.
    rewrite Z.min_l by lia. simpl. apply join_split. }
  repeat split; vm_compute; reflexivity.
Qed.

Lemma percentOf_zero_total (value : Z) :
  Optimizer.percentOf value 0 = NaN \/ Optimizer.percentOf value 0 = PosInfinity.
Proof.
  unfold Optimizer.percentOf. simpl. destruct (value =? 0); auto.
Qed.

(** C10.  The percentages are computed by a division without a guard: on
    empty content, where the total is 0, each of the five is [NaN]; on any
    content whose total is 0 none of them is a finite number. *)
Theorem getTokenInfo_divides_by_zero_total :
  Optimizer.totalTokens (Optimizer.getTokenInfo []) = 0
  /\ map snd (Optimizer.breakdown (Optimizer.getTokenInfo []))
     = [NaN; NaN; NaN; NaN; NaN]
  /\ (forall text : str,
        Optimizer.totalTokens (Optimizer.getTokenInfo text) = 0 ->
        Forall (fun kv => snd kv = NaN \/ snd kv = PosInfinity)
          (Optimizer.breakdown (Optimizer.getTokenInfo text))).
Proof.
  split; [reflexivity|]. split; [reflexivity|].
  intros text Hzero. unfold Optimizer.getTokenInfo in *.
  cbn [Optimizer.totalTokens Optimizer.breakdown] in *.
  rewrite Hzero.
  repeat (constructor; [apply percentOf_zero_total|]).
  constructor.
Qed.

(* ================================================================== *)
(** * Effects: outcomes of composed computations *)
(* ================================================================== *)

Section MonadFacts.
Import Fs.

Lemma outcome_ret {A : Type} (a : A) : outcome (ret a) = Ok a.
Proof. reflexivity. Qed.

Lemma outcome_bind {A B : Type} (m : M A) (f : A -> M B) :
  outcome (bind m f)
  = match outcome m with
    | Ok a => outcome (f a)
    | Err e => Err e
    end.
Proof.
  destruct m as [t [a|e]]; simpl; [|reflexivity].
  destruct (f a). reflexivity.
Qed.

Lemma outcome_tryCatch {A : Type} (m : M A) (h : error -> M A) :
  outcome (tryCatch m h)
  = match outcome m with
    | Ok a => Ok a
    | Err e => outcome (h e)
    end.
Proof.
  destruct m as [t [a|e]]; simpl; [reflexivity|].
  destruct (h e). reflexivity.
Qed.

Lemma outcome_access {A : Type} (op : FsOp) (p : str) (r : option A) :
  outcome (access op p r)
  = match r with Some a => Ok a | None => Err (IOFailure p) end.
Proof. reflexivity. Qed.

Lemma outcome_liftOpt {A : Type} (e : error) (r : option A) :
  outcome (liftOpt e r) = match r with Some a => Ok a | None => Err e end.
Proof. destruct r; reflexivity. Qed.

Lemma outcome_pair {A : Type} (t : list FsOp) (r : result A) :
  outcome (t, r) = r.
Proof. reflexivity. Qed.

(** A sequence succeeds when its first part succeeds and the rest does. *)
Lemma bind_ok_inv {A B : Type} (m : M A) (f : A -> M B) (b : B) :
  outcome (bind m f) = Ok b ->
  exists a, outcome m = Ok a /\ outcome (f a) = Ok b.
Proof.
  rewrite outcome_bind. destruct (outcome m) as [a|e]; [|discriminate].
  intros H. now exists a.
Qed.

End MonadFacts.

Arguments Fs.bind : simpl never.
Arguments Fs.tryCatch : simpl never.
Arguments Fs.access : simpl never.
Arguments Fs.liftOpt : simpl never.

(** One step through the outcome of a composed computation. *)
Ltac outcome_step :=
  rewrite ?outcome_bind, ?outcome_tryCatch, ?outcome_ret, ?outcome_access,
    ?outcome_liftOpt, ?outcome_pair.

Tactic Notation "bind_inv" hyp(H) ident(x) ident(Hx) :=
  apply bind_ok_inv in H; destruct H as (x & Hx & H).


(* ================================================================== *)
(** * Loading: the budget invariant *)
(* ================================================================== *)

Section LoadingFacts.
Import Str Fs Loading.

(** A sub-loader's state is sound when the estimates of its files sum to at
    most the tokens it counted, and within a budget when moreover the count
    is at most the budget. *)
Lemma estimateTokens_nonneg (c : str) : 0 <= estimateTokens c.
Proof.
  unfold estimateTokens. apply ceilDiv_nonneg; [apply len_nonneg | lia].
Qed.

Lemma sumEstimates_nonneg (m : list (str * str)) : 0 <= sumEstimates m.
Proof.
  induction m as [|kv m IH]; simpl; [lia|].
  pose proof (estimateTokens_nonneg (snd kv)). lia.
Qed.



Lemma mergeLoaded_tokens (loaded : list (str * str)) :
  forall st, l_tokens (mergeLoaded loaded st) = l_tokens st + sumEstimates loaded.
Proof.
  unfold mergeLoaded.
  induction loaded as [|kv loaded IH]; intros st; simpl.
  - lia.
  - rewrite IH. simpl. lia.
Qed.



End LoadingFacts.

Section FocusedFacts.
Import Str Fs Loading.

Variable fs : IFileSystem.
Variable pf : Platform.
Variable scoreFiles :
  list str -> Scorer.ScoringCriteria -> M (list Scorer.FileRelevance).




End FocusedFacts.

Lemma tryCatch_ret_inv {A : Type} (m : Fs.M A) (fallback a : A) :
  Fs.outcome (Fs.tryCatch m (fun _ => Fs.ret fallback)) = Ok a ->
  Fs.outcome m = Ok a \/ a = fallback.
Proof.
  rewrite outcome_tryCatch. destruct (Fs.outcome m) as [x|e].
  - intros H. now left.
  - rewrite outcome_ret. intros H. inversion H. now right.
Qed.

Section ProgressiveFacts.
Import Str Fs Loading.

Variable fs : IFileSystem.
Variable scoreFiles :
  list str -> Scorer.ScoringCriteria -> M (list Scorer.FileRelevance).
Variable analyzeProject : str -> M ProjectInfo.
Variable engineSort : (str -> str -> Z) -> list str -> list str.









End ProgressiveFacts.

Section BreadthFirstFacts.
Import Str Fs Loading.

Variable fs : IFileSystem.
Variable pf : Platform.







End BreadthFirstFacts.




(** C2.  The progressive strategy counts README.md twice: once with the core
    files and once with the documentation.  On the project that holds only a
    four-character README it returns that one file, whose estimate is 1,
    and [totalTokens = 2]. *)
Theorem progressive_counts_readme_twice :
  exists ctx,
    Fs.outcome
      (loadContext (Fixtures.wiringOf Fixtures.readmeFs) ProgressiveStrategy
         (lit "/p") Fixtures.noOptions) = Ok ctx
    /\ Loading.files ctx = [(lit "README.md", lit "# Hi")]
    /\ Loading.sumEstimates (Loading.files ctx) = 1
    /\ Loading.totalTokens ctx = 2.
Proof.
  eexists. split; [vm_compute; reflexivity|].
  repeat split; reflexivity.
Qed.

(** C5.  Without a query (absent or empty) and without a non-empty list of
    include patterns the focused strategy fails with a configuration error,
    and it has made no access to the file system. *)
Theorem focused_requires_focus :
  forall (fs : Fs.IFileSystem) (pf : Fs.Platform)
         (scoreFiles : list str -> Scorer.ScoringCriteria
                       -> Fs.M (list Scorer.FileRelevance))
         (rootPath : str) (options : Loading.LoadingOptions),
    (Loading.query options = None \/ Loading.query options = Some []) ->
    (Loading.includePatterns options = None
     \/ Loading.includePatterns options = Some []) ->
    exists msg,
      Focused.loadContext fs pf scoreFiles rootPath options
      = ([], Err (ConfigurationError msg))
      /\ Fs.trace (Focused.loadContext fs pf scoreFiles rootPath options) = [].
Proof.
  intros fs pf scoreFiles rootPath options Hq Hp.
  unfold Focused.loadContext.
  assert (Focused.lacksFocus options = true) as ->.
  { unfold Focused.lacksFocus.
    destruct Hq as [-> | ->]; destruct Hp as [-> | ->]; reflexivity. }
  eexists. split; reflexivity.
Qed.

(** C5, witness: no query and no patterns on the project with one README. *)
Lemma focused_requires_focus_witness :
  (Loading.query Fixtures.noOptions = None
   \/ Loading.query Fixtures.noOptions = Some [])
  /\ (Loading.includePatterns Fixtures.noOptions = None
      \/ Loading.includePatterns Fixtures.noOptions = Some [])
  /\ exists msg,
       Focused.loadContext Fixtures.readmeFs Fixtures.plainPlatform
         (Scorer.scoreFiles Fixtures.readmeFs Fixtures.plainPlatform)
         (lit "/p") Fixtures.noOptions
       = ([], Err (ConfigurationError msg))
       /\ Fs.trace
            (Focused.loadContext Fixtures.readmeFs Fixtures.plainPlatform
               (Scorer.scoreFiles Fixtures.readmeFs Fixtures.plainPlatform)
               (lit "/p") Fixtures.noOptions) = [].
Proof.
  split; [now left|]. split; [now left|].
  apply (focused_requires_focus Fixtures.readmeFs Fixtures.plainPlatform
           (Scorer.scoreFiles Fixtures.readmeFs Fixtures.plainPlatform)
           (lit "/p") Fixtures.noOptions); now left.
Defined.

(* ================================================================== *)
(** * RelevanceScorer: clamping, order, threshold *)
(* ================================================================== *)

Section ScorerFacts.
Import Str Fs.

Variable fs : IFileSystem.
Variable pf : Platform.

Lemma clampQ_range (x : Q) : (0 <= Scorer.clampQ x /\ Scorer.clampQ x <= 100)%Q.
Proof.
  unfold Scorer.clampQ. split.
  - apply Q.le_max_l.
  - apply Q.max_lub; [discriminate | apply Q.le_min_l].
Qed.

Lemma bind_ok_intro {A B : Type} (m : M A) (f : A -> M B) (a : A) (b : B) :
  outcome m = Ok a -> outcome (f a) = Ok b -> outcome (bind m f) = Ok b.
Proof.
  intros Hm Hf. rewrite outcome_bind, Hm. exact Hf.
Qed.

(** Every score that [scoreFile] returns is clamped. *)
Lemma scoreFile_range (filePath : str) (criteria : Scorer.ScoringCriteria)
  (r : Scorer.FileRelevance) :
  outcome (Scorer.scoreFile fs pf filePath criteria) = Ok r ->
  Scorer.path r = filePath
  /\ (0 <= Scorer.score r /\ Scorer.score r <= 100)%Q.
Proof.
  intros H. unfold Scorer.scoreFile in H.
  bind_inv H f Hf. cbv zeta in H.
  bind_inv H s1 H1. bind_inv H s2 H2. bind_inv H s3 H3.
  inversion H; subst; simpl. split; [reflexivity | apply clampQ_range].
Qed.

Lemma scoreAll_range (files : list str) (criteria : Scorer.ScoringCriteria) :
  forall scored,
    outcome (Scorer.scoreAll fs pf files criteria) = Ok scored ->
    map Scorer.path scored = files
    /\ Forall (fun f => (0 <= Scorer.score f /\ Scorer.score f <= 100)%Q) scored.
Proof.
  induction files as [|p rest IH]; intros scored H;
    cbn [Scorer.scoreAll] in H.
  - inversion H; subst. split; [reflexivity | constructor].
  - bind_inv H r Hr. bind_inv H rs Hrs. inversion H; subst.
    destruct (scoreFile_range _ _ _ Hr) as [Hp Hrange].
    destruct (IH _ Hrs) as [Hpaths Hall].
    split; [simpl; now rewrite Hp, Hpaths | now constructor].
Qed.

(** The scoring of one file fails only on a pattern that is no regular
    expression. *)
Lemma statsScore_ok (filePath : str) :
  (exists z, outcome (Scorer.calculateSizeScore fs filePath) = Ok z)
  /\ (exists z, outcome (Scorer.calculateRecencyScore fs pf filePath) = Ok z).
Proof.
  unfold Scorer.calculateSizeScore, Scorer.calculateRecencyScore, Scorer.statsOf.
  split; outcome_step; destruct (getStats fs filePath); simpl; eauto.
Qed.

Lemma calculateRelevance_ok (filePath : str) (ctx : option str) :
  exists f, outcome (Scorer.calculateRelevance fs pf filePath ctx) = Ok f.
Proof.
  destruct (statsScore_ok filePath) as [[z1 H1] [z2 H2]].
  unfold Scorer.calculateRelevance. eexists.
  eapply bind_ok_intro; [exact H1|].
  eapply bind_ok_intro; [exact H2|]. reflexivity.
Qed.

Lemma tryCatch_ret_ok {A : Type} (m : M A) (fallback : A) :
  exists a, outcome (tryCatch m (fun _ => ret fallback)) = Ok a.
Proof.
  rewrite outcome_tryCatch.
  destruct (outcome m) as [a|e]; [now exists a | now exists fallback].
Qed.

Lemma calculateQueryRelevance_ok (filePath q : str) :
  exists z, outcome (Scorer.calculateQueryRelevance fs pf filePath q) = Ok z.
Proof.
  unfold Scorer.calculateQueryRelevance. cbv zeta.
  match goal with
  | |- context [tryCatch ?m (fun _ => ret ?d)] =>
      destruct (tryCatch_ret_ok m d) as [z Hz]
  end.
  eexists. eapply bind_ok_intro; [exact Hz | reflexivity].
Qed.

Lemma someM_ok (filePath : str) (patterns : list str) :
  (forall source s, exists b, regexpTestI pf source s = Some b) ->
  exists b,
    outcome (Scorer.someM (Scorer.matchesPattern pf filePath) patterns) = Ok b.
Proof.
  intros Hre. induction patterns as [|p rest IH]; cbn [Scorer.someM].
  - eexists. reflexivity.
  - destruct (Hre (Glob.scorerRegex p) filePath) as [b Hb].
    destruct IH as [b' Hb'].
    exists (if b then true else b').
    eapply bind_ok_intro.
    + unfold Scorer.matchesPattern. rewrite outcome_liftOpt, Hb. reflexivity.
    + destruct b; [reflexivity | exact Hb'].
Qed.

Lemma bind_ok_ex {A B : Type} (m : M A) (f : A -> M B) :
  (exists a, outcome m = Ok a) ->
  (forall a, exists b, outcome (f a) = Ok b) ->
  exists b, outcome (bind m f) = Ok b.
Proof.
  intros [a Ha] Hf. destruct (Hf a) as [b Hb]. exists b.
  now apply (bind_ok_intro m f a b).
Qed.

Lemma ret_ok_ex {A : Type} (a : A) : exists b, outcome (ret a) = Ok b.
Proof. now exists a. Qed.

Lemma scoreFile_ok (filePath : str) (criteria : Scorer.ScoringCriteria) :
  (forall source s, exists b, regexpTestI pf source s = Some b) ->
  exists r, outcome (Scorer.scoreFile fs pf filePath criteria) = Ok r.
Proof.
  intros Hre. unfold Scorer.scoreFile.
  apply bind_ok_ex; [apply calculateRelevance_ok|]. intros f. cbv zeta.
  apply bind_ok_ex.
  { destruct (Scorer.query criteria) as [q|]; [|apply ret_ok_ex].
    destruct (truthy q); [|apply ret_ok_ex].
    apply bind_ok_ex; [apply calculateQueryRelevance_ok|].
    intros z. apply ret_ok_ex. }
  intros s1. apply bind_ok_ex.
  { destruct (Scorer.includePatterns criteria) as [ps|]; [|apply ret_ok_ex].
    apply bind_ok_ex; [now apply someM_ok|]. intros b. apply ret_ok_ex. }
  intros s2. apply bind_ok_ex.
  { destruct (Scorer.excludePatterns criteria) as [ps|]; [|apply ret_ok_ex].
    apply bind_ok_ex; [now apply someM_ok|]. intros b. apply ret_ok_ex. }
  intros s3. apply ret_ok_ex.
Qed.

Lemma scoreAll_ok (files : list str) (criteria : Scorer.ScoringCriteria) :
  (forall source s, exists b, regexpTestI pf source s = Some b) ->
  exists scored, outcome (Scorer.scoreAll fs pf files criteria) = Ok scored.
Proof.
  intros Hre. induction files as [|p rest IH]; cbn [Scorer.scoreAll].
  - eexists. reflexivity.
  - destruct (scoreFile_ok p criteria Hre) as [r Hr].
    destruct IH as [rs Hrs]. exists (r :: rs).
    eapply bind_ok_intro; [exact Hr|].
    eapply bind_ok_intro; [exact Hrs | reflexivity].
Qed.

End ScorerFacts.

Section ScoreOrder.

Lemma Qltb_false (a b : Q) : Scorer.Qltb a b = false <-> (b <= a)%Q.
Proof.
  unfold Scorer.Qltb. rewrite negb_false_iff. apply Qle_bool_iff.
Qed.

Lemma Qltb_true (a b : Q) : Scorer.Qltb a b = true <-> (a < b)%Q.
Proof.
  unfold Scorer.Qltb. rewrite negb_true_iff. split.
  - intros H. apply Qnot_le_lt. intros Hle.
    apply Qle_bool_iff in Hle. congruence.
  - intros Hlt. destruct (Qle_bool b a) eqn:E; [|reflexivity].
    apply Qle_bool_iff in E. exfalso. apply (Qlt_not_le _ _ Hlt E).
Qed.

Lemma sortByScore_sorted (l : list Scorer.FileRelevance) :
  StronglySorted (fun a b => (Scorer.score b <= Scorer.score a)%Q)
    (Scorer.sortByScore l).
Proof.
  unfold Scorer.sortByScore.
  eapply StronglySorted_mono;
    [|apply (sortBy_sorted
               (fun a b => Scorer.Qltb (Scorer.score a) (Scorer.score b)))].
  - intros a b H. now apply Qltb_false in H.
  - intros a b H. apply Qltb_true in H. apply Qltb_false.
    now apply Qlt_le_weak.
  - intros a b c H1 H2. apply Qltb_false in H1, H2. apply Qltb_false.
    eapply Qle_trans; eassumption.
Qed.

Lemma sortByScore_stable (q : Q) (l : list Scorer.FileRelevance) :
  filter (fun f => Qeq_bool (Scorer.score f) q) (Scorer.sortByScore l)
  = filter (fun f => Qeq_bool (Scorer.score f) q) l.
Proof.
  unfold Scorer.sortByScore. apply sortBy_stable.
  intros a b Ha Hb. apply Qeq_bool_iff in Ha, Hb. apply Qltb_false.
  rewrite Ha, Hb. apply Qle_refl.
Qed.

Lemma StronglySorted_filter {A : Type} (R : A -> A -> Prop) (P : A -> bool)
  (l : list A) :
  StronglySorted R l -> StronglySorted R (filter P l).
Proof.
  induction 1 as [|x l Hs IH Hx]; simpl; [constructor|].
  destruct (P x); [|exact IH].
  constructor; [exact IH|].
  apply Forall_forall. intros y Hy. apply filter_In in Hy.
  rewrite Forall_forall in Hx. now apply Hx.
Qed.

Lemma filter_comm {A : Type} (P T : A -> bool) (l : list A) :
  filter P (filter T l) = filter T (filter P l).
Proof.
  induction l as [|x l IH]; simpl; [reflexivity|].
  destruct (T x) eqn:Et; destruct (P x) eqn:Ep; simpl;
    rewrite ?Et, ?Ep, IH; reflexivity.
Qed.

Lemma filter_all {A : Type} (T : A -> bool) (l : list A) :
  Forall (fun x => T x = true) l -> filter T l = l.
Proof.
  induction 1 as [|x l Hx Hl IH]; simpl; [reflexivity|].
  now rewrite Hx, IH.
Qed.

(** On clamped scores the threshold step is the filter by [meets]: a
    threshold of 0, which the code skips, holds back nothing. *)
Lemma applyThreshold_meets (t : option Q) (l : list Scorer.FileRelevance) :
  Forall (fun f => (0 <= Scorer.score f)%Q) l ->
  Scorer.applyThreshold t l = filter (Spec.meets t) l.
Proof.
  intros Hpos. unfold Scorer.applyThreshold, Spec.meets.
  destruct t as [t|].
  - destruct (Qeq_bool t 0) eqn:E; [|reflexivity].
    apply Qeq_bool_iff in E. symmetry. apply filter_all.
    eapply Forall_impl; [|exact Hpos].
    intros f Hf. apply Qle_bool_iff. now rewrite E.
  - symmetry. apply filter_all. now apply Forall_forall.
Qed.

End ScoreOrder.

(** C3.  [scoreFiles] returns whenever every pattern of the criteria is a
    regular expression; what it returns is in descending order of score,
    keeps files of equal score in their input order, and holds exactly the
    scored files that meet the threshold (all of them when there is none);
    every score lies between 0 and 100. *)
Theorem scoreFiles_sorted_stable_thresholded :
  forall (fs : Fs.IFileSystem) (pf : Fs.Platform) (files : list str)
         (criteria : Scorer.ScoringCriteria),
    ((forall source s, exists b, Fs.regexpTestI pf source s = Some b) ->
     exists scored,
       Fs.outcome (Scorer.scoreAll fs pf files criteria) = Ok scored)
    /\ (forall scored,
          Fs.outcome (Scorer.scoreAll fs pf files criteria) = Ok scored ->
          map Scorer.path scored = files
          /\ exists result,
               Fs.outcome (Scorer.scoreFiles fs pf files criteria) = Ok result
               /\ StronglySorted
                    (fun a b => (Scorer.score b <= Scorer.score a)%Q) result
               /\ (forall q,
                     filter (fun f => Qeq_bool (Scorer.score f) q) result
                     = filter (fun f => Qeq_bool (Scorer.score f) q)
                         (filter (Spec.meets (Scorer.threshold criteria))
                            scored))
               /\ (forall f,
                     In f result
                     <-> In f scored
                         /\ Spec.meets (Scorer.threshold criteria) f = true)
               /\ Forall
                    (fun f => (0 <= Scorer.score f /\ Scorer.score f <= 100)%Q)
                    result).
Proof.
  intros fs pf files criteria. split; [apply scoreAll_ok|].
  intros scored Hall.
  destruct (scoreAll_range fs pf files criteria scored Hall) as [Hpaths Hrange].
  split; [exact Hpaths|].
  exists (Scorer.applyThreshold (Scorer.threshold criteria)
            (Scorer.sortByScore scored)).
  assert (Forall (fun f => (0 <= Scorer.score f /\ Scorer.score f <= 100)%Q)
            (Scorer.sortByScore scored)) as Hsorted_range.
  { eapply Permutation_Forall; [|exact Hrange].
    apply Permutation_sym, sortBy_perm. }
  rewrite applyThreshold_meets
    by (eapply Forall_impl; [|exact Hsorted_range]; intros f Hf; apply Hf).
  split.
  { unfold Scorer.scoreFiles.
    eapply bind_ok_intro; [exact Hall|]. simpl.
    rewrite applyThreshold_meets; [reflexivity|].
    eapply Forall_impl; [|exact Hsorted_range]. intros f Hf. apply Hf. }
  split; [apply StronglySorted_filter, sortByScore_sorted|].
  split.
  { intros q. rewrite filter_comm, sortByScore_stable. apply filter_comm. }
  split.
  { intros f. rewrite filter_In. split; intros [Hin Hm]; split; try exact Hm.
    - eapply Permutation_in; [apply sortBy_perm | exact Hin].
    - eapply Permutation_in; [apply Permutation_sym, sortBy_perm | exact Hin]. }
  apply Forall_forall. intros f Hf. apply filter_In in Hf.
  rewrite Forall_forall in Hsorted_range. now apply Hsorted_range.
Qed.

(** C3, witness: three paths, the second of which outranks the other two,
    which tie. *)
Lemma scoreFiles_sorted_stable_thresholded_witness :
  (forall source s,
     exists b, Fs.regexpTestI Fixtures.plainPlatform source s = Some b)
  /\ exists scored,
       Fs.outcome
         (Scorer.scoreAll Fixtures.mixedFs Fixtures.plainPlatform
            Fixtures.mixedPaths Fixtures.tsCriteria) = Ok scored
       /\ map Scorer.path scored = Fixtures.mixedPaths
       /\ exists result,
            Fs.outcome
              (Scorer.scoreFiles Fixtures.mixedFs Fixtures.plainPlatform
                 Fixtures.mixedPaths Fixtures.tsCriteria) = Ok result
            /\ map Scorer.path result = map lit ["index.ts"; "a.md"; "b.md"]%string
            /\ StronglySorted
                 (fun a b => (Scorer.score b <= Scorer.score a)%Q) result.
Proof.
  split; [intros source s; eexists; reflexivity|].
  eexists. split; [vm_compute; reflexivity|].
  match goal with
  | |- map Scorer.path ?scored = _ /\ _ =>
      destruct (proj2 (scoreFiles_sorted_stable_thresholded
                         Fixtures.mixedFs Fixtures.plainPlatform
                         Fixtures.mixedPaths Fixtures.tsCriteria) scored)
        as (Hpaths & result & Hres & Hsorted & _)
  end; [vm_compute; reflexivity|].
  split; [exact Hpaths|].
  exists result. split; [exact Hres|]. split; [|exact Hsorted].
  assert (Ok result
          = Fs.outcome
              (Scorer.scoreFiles Fixtures.mixedFs Fixtures.plainPlatform
                 Fixtures.mixedPaths Fixtures.tsCriteria)) as E
    by (symmetry; exact Hres).
  vm_compute in E. inversion E. reflexivity.
Defined.

(* ================================================================== *)
(** * The focused boost *)
(* ================================================================== *)

Section MapFacts.

Lemma str_eqb_eq (a b : str) : Str.eqb a b = true <-> a = b.
Proof.
  revert b. induction a as [|x a IH]; intros [|y b]; simpl;
    try (split; [discriminate | discriminate]); [tauto|].
  rewrite andb_true_iff, Ascii.eqb_eq, IH.
  split; [intros [-> ->]; reflexivity | intros H; inversion H; auto].
Qed.

Lemma str_eqb_refl (a : str) : Str.eqb a a = true.
Proof. now apply str_eqb_eq. Qed.

Lemma get_set_same {V : Type} (k : str) (v : V) (m : list (str * V)) :
  JsMap.get k (JsMap.set k v m) = Some v.
Proof.
  induction m as [|[k' v'] m IH]; simpl.
  - now rewrite str_eqb_refl.
  - destruct (Str.eqb k k') eqn:E; simpl.
    + now rewrite str_eqb_refl.
    + now rewrite E.
Qed.

Lemma get_set_other {V : Type} (k k' : str) (v : V) (m : list (str * V)) :
  Str.eqb k k' = false ->
  JsMap.get k (JsMap.set k' v m) = JsMap.get k m.
Proof.
  intros Hne. induction m as [|[k0 v0] m IH]; simpl.
  - now rewrite Hne.
  - destruct (Str.eqb k' k0) eqn:E; simpl.
    + apply str_eqb_eq in E. subst k0. now rewrite Hne.
    + destruct (Str.eqb k k0); [reflexivity | exact IH].
Qed.


End MapFacts.

Section BoostFacts.
Import Str Fs Loading.

Variable fs : IFileSystem.
Variable pf : Platform.

Lemma scale_mono (n : nat) :
  forall a b : Q, (0 <= a)%Q -> (a <= b)%Q -> (a <= Spec.scale b n)%Q.
Proof.
  induction n as [|n IH]; intros a b Ha Hab; simpl.
  - exact Hab.
  - apply IH; [exact Ha | lra].
Qed.






End BoostFacts.



(* ================================================================== *)
(** * Compression *)
(* ================================================================== *)

Section SearchFacts.
Import Str Optimizer.

Lemma startsWith_app (p a b : str) :
  startsWith p a = true -> startsWith p (a ++ b) = true.
Proof.
  revert a. induction p as [|x p IH]; intros a H; [reflexivity|].
  destruct a as [|y a]; simpl in *; [discriminate|].
  apply andb_true_iff in H. destruct H as [Hxy Hp].
  now rewrite Hxy, IH.
Qed.

Lemma includes_app_l (p a b : str) :
  includes p a = true -> includes p (a ++ b) = true.
Proof.
  induction a as [|y a IH]; simpl; intros H.
  - rewrite orb_false_r in H. destruct p; [|discriminate].
    destruct b; reflexivity.
  - apply orb_true_iff in H. destruct H as [H | H].
    + change (y :: a ++ b) with ((y :: a) ++ b).
      now rewrite startsWith_app.
    + rewrite IH by exact H. apply orb_true_r.
Qed.

Lemma includes_app_r (p a b : str) :
  includes p b = true -> includes p (a ++ b) = true.
Proof.
  intros H. induction a as [|y a IH]; simpl; [exact H|].
  rewrite IH. apply orb_true_r.
Qed.

(** A part of a text without an occurrence has none either. *)
Lemma includes_parts (p a b : str) :
  includes p (a ++ b) = false -> includes p a = false /\ includes p b = false.
Proof.
  intros H. split.
  - destruct (includes p a) eqn:E; [|reflexivity].
    now rewrite (includes_app_l p a b E) in H.
  - destruct (includes p b) eqn:E; [|reflexivity].
    now rewrite (includes_app_r p a b E) in H.
Qed.

Lemma startsWith_repeat_sep (x c : ascii) (k : nat) (a b : str) :
  Ascii.eqb x c = false ->
  startsWith (repeat x k) (a ++ c :: b) = true ->
  startsWith (repeat x k) a = true.
Proof.
  intros Hxc. revert a. induction k as [|k IH]; intros a H; [reflexivity|].
  destruct a as [|y a]; simpl in *.
  - now rewrite Hxc in H.
  - apply andb_true_iff in H. destruct H as [Hxy Hr].
    now rewrite Hxy, IH.
Qed.

(** A run of [x] does not reach across another character. *)
Lemma includes_sep (x c : ascii) (k : nat) (a b : str) :
  Ascii.eqb x c = false ->
  includes (repeat x (S k)) a = false ->
  includes (repeat x (S k)) b = false ->
  includes (repeat x (S k)) (a ++ c :: b) = false.
Proof.
  intros Hxc Ha Hb. induction a as [|y a IH].
  - cbn [app includes]. rewrite Hb.
    cbn [repeat startsWith]. now rewrite Hxc.
  - cbn [app includes] in *.
    apply orb_false_iff in Ha. destruct Ha as [Hs Ha].
    rewrite (IH Ha), orb_false_r.
    destruct (startsWith (repeat x (S k)) (y :: a ++ c :: b)) eqn:E;
      [|reflexivity].
    change (y :: a ++ c :: b) with ((y :: a) ++ c :: b) in E.
    apply (startsWith_repeat_sep x c (S k) (y :: a) b Hxc) in E. congruence.
Qed.

(** Between two characters other than [x], a text adds no run of [x]. *)
Lemma includes_sandwich (x c1 c2 : ascii) (k : nat) (pre mid post : str) :
  Ascii.eqb x c1 = false -> Ascii.eqb x c2 = false ->
  includes (repeat x (S k)) pre = false ->
  includes (repeat x (S k)) (c1 :: mid ++ [c2]) = false ->
  includes (repeat x (S k)) post = false ->
  includes (repeat x (S k)) (pre ++ (c1 :: mid ++ [c2]) ++ post) = false.
Proof.
  intros H1 H2 Hpre Hmid Hpost.
  change ((c1 :: mid ++ [c2]) ++ post) with (c1 :: (mid ++ [c2]) ++ post).
  apply includes_sep; [exact H1 | exact Hpre |].
  rewrite <- app_assoc. cbn [app].
  apply includes_sep; [exact H2 | | exact Hpost].
  change (c1 :: mid ++ [c2]) with ([c1] ++ mid ++ [c2]) in Hmid.
  apply includes_parts in Hmid. destruct Hmid as [_ Hmid].
  apply includes_parts in Hmid. tauto.
Qed.

Lemma breakOn_spec (d s pre post : str) :
  breakOn d s = Some (pre, post) -> s = pre ++ d ++ post.
Proof.
  revert pre post. induction s as [|c s IH]; intros pre post H.
  - cbn [breakOn] in H. destruct (startsWith d []) eqn:E; [|discriminate].
    inversion H; subst. destruct d; [reflexivity | discriminate].
  - cbn [breakOn] in H. destruct (startsWith d (c :: s)) eqn:E.
    + inversion H; subst. cbn [app].
      clear -E. revert E. generalize (c :: s) as t.
      induction d as [|x d IHd]; intros t E; [reflexivity|].
      destruct t as [|y t]; simpl in *; [discriminate|].
      apply andb_true_iff in E. destruct E as [Exy Ed].
      apply Ascii.eqb_eq in Exy. subst y. f_equal. now apply IHd.
    + destruct (breakOn d s) as [[pre' post']|]; [|discriminate].
      inversion H; subst. cbn [app]. f_equal. now apply IH.
Qed.

End SearchFacts.

Section ReplaceFacts.
Import Str Optimizer.

Variables opn cls : str.
Variable f : str -> str.

Lemma breakOn_shorter (d s pre post : str) :
  breakOn d s = Some (pre, post) ->
  List.length s = (List.length pre + List.length d + List.length post)%nat.
Proof.
  intros H. apply breakOn_spec in H. subst s.
  rewrite !length_app. lia.
Qed.

(** The rounds of [replaceBetween]: with a non-empty opening mark every
    round takes at least one character, so [length s] rounds are enough. *)
Lemma replaceBetween_fuel_any :
  opn <> [] ->
  forall n m s,
    (List.length s <= n)%nat -> (List.length s <= m)%nat ->
    replaceBetween n opn cls f s = replaceBetween m opn cls f s.
Proof.
  intros Hopn.
  assert (forall k, replaceBetween k opn cls f [] = []) as Hnil.
  { intros [|k]; [reflexivity|]. cbn [replaceBetween breakOn].
    destruct opn; [contradiction | reflexivity]. }
  induction n as [|n IH]; intros m s Hn Hm.
  - destruct s; [|simpl in Hn; lia]. now rewrite !Hnil.
  - destruct m as [|m].
    + destruct s; [|simpl in Hm; lia]. now rewrite !Hnil.
    + cbn [replaceBetween].
      destruct (breakOn opn s) as [[pre rest]|] eqn:Ho; [|reflexivity].
      destruct (breakOn cls rest) as [[body post]|] eqn:Hc; [|reflexivity].
      apply breakOn_shorter in Ho. apply breakOn_shorter in Hc.
      assert (0 < List.length opn)%nat
        by (destruct opn; [contradiction | simpl; lia]).
      rewrite (IH m post) by lia. reflexivity.
Qed.

Lemma replaceBetween_fuel (n : nat) (s : str) :
  opn <> [] -> (List.length s <= n)%nat ->
  replaceBetween n opn cls f s = replaceAllBetween opn cls f s.
Proof.
  intros Hopn Hn. unfold replaceAllBetween.
  now apply replaceBetween_fuel_any.
Qed.

(** A replacement that keeps matches free of runs of [x], and keeps them
    between two characters other than [x], keeps the text free of them. *)
Lemma replaceBetween_clean (x c1 c2 : ascii) (k : nat) :
  Ascii.eqb x c1 = false -> Ascii.eqb x c2 = false ->
  (forall body,
     includes (repeat x (S k)) (opn ++ body ++ cls) = false ->
     includes (repeat x (S k)) (f (opn ++ body ++ cls)) = false
     /\ exists mid, f (opn ++ body ++ cls) = c1 :: mid ++ [c2]) ->
  forall n s,
    includes (repeat x (S k)) s = false ->
    includes (repeat x (S k)) (replaceBetween n opn cls f s) = false.
Proof.
  intros H1 H2 Hf. induction n as [|n IH]; intros s Hs; [exact Hs|].
  cbn [replaceBetween].
  destruct (breakOn opn s) as [[pre rest]|] eqn:Ho; [|exact Hs].
  destruct (breakOn cls rest) as [[body post]|] eqn:Hc; [|exact Hs].
  apply breakOn_spec in Ho. apply breakOn_spec in Hc. subst rest.
  assert (s = pre ++ (opn ++ body ++ cls) ++ post) as Es
    by (subst s; now rewrite <- !app_assoc).
  rewrite Es in Hs.
  apply includes_parts in Hs. destruct Hs as [Hpre Hs].
  apply includes_parts in Hs. destruct Hs as [Hm Hpost].
  destruct (Hf body Hm) as [Hfm [mid Emid]].
  rewrite Emid in *.
  apply includes_sandwich; auto.
Qed.

(** A replacement that brings in no character of a kind brings none into
    the text. *)
Lemma replaceBetween_chars (g : ascii -> bool) :
  (forall m, existsb g m = false -> existsb g (f m) = false) ->
  forall n s,
    existsb g s = false -> existsb g (replaceBetween n opn cls f s) = false.
Proof.
  intros Hf. induction n as [|n IH]; intros s Hs; [exact Hs|].
  cbn [replaceBetween].
  destruct (breakOn opn s) as [[pre rest]|] eqn:Ho; [|exact Hs].
  destruct (breakOn cls rest) as [[body post]|] eqn:Hc; [|exact Hs].
  apply breakOn_spec in Ho. apply breakOn_spec in Hc. subst rest. subst s.
  rewrite !existsb_app in Hs.
  repeat (apply orb_false_iff in Hs; destruct Hs as [? Hs]).
  rewrite !existsb_app. rewrite (IH post Hs), orb_false_r.
  apply orb_false_iff. split; [assumption|].
  apply Hf. rewrite !existsb_app.
  repeat (apply orb_false_iff; split); assumption.
Qed.

(** A replacement that never lengthens a match never lengthens the text. *)
Lemma replaceBetween_length :
  (forall m, (List.length (f m) <= List.length m)%nat) ->
  forall n s,
    (List.length (replaceBetween n opn cls f s) <= List.length s)%nat.
Proof.
  intros Hf. induction n as [|n IH]; intros s; [reflexivity|].
  cbn [replaceBetween].
  destruct (breakOn opn s) as [[pre rest]|] eqn:Ho; [|reflexivity].
  destruct (breakOn cls rest) as [[body post]|] eqn:Hc; [|reflexivity].
  apply breakOn_spec in Ho. apply breakOn_spec in Hc. subst rest. subst s.
  specialize (Hf (opn ++ body ++ cls)). specialize (IH post).
  rewrite !length_app in *. lia.
Qed.

End ReplaceFacts.

Section LineFacts.
Import Str Optimizer.

Lemma join_cons (sep : str) (w : str) (ls : list str) :
  ls <> [] -> join sep (w :: ls) = w ++ sep ++ join sep ls.
Proof.
  destruct ls; [contradiction | reflexivity].
Qed.

Lemma join_app (sep : str) (a b : list str) :
  a <> [] -> b <> [] ->
  join sep (a ++ b) = join sep a ++ sep ++ join sep b.
Proof.
  intros Ha Hb. induction a as [|w a IH]; [contradiction|].
  destruct a as [|w' a].
  - cbn [app]. now rewrite join_cons.
  - change ((w :: w' :: a) ++ b) with (w :: (w' :: a) ++ b).
    rewrite join_cons by discriminate.
    rewrite IH by discriminate.
    rewrite (join_cons sep w (w' :: a)) by discriminate.
    now rewrite <- !app_assoc.
Qed.

(** The lines of a text hold no newline. *)
Lemma split_free (sep : ascii) (s : str) :
  Forall (fun w => ~ In sep w) (split sep s).
Proof.
  induction s as [|c s IH]; cbn [split].
  - constructor; [intros [] | constructor].
  - destruct (Ascii.eqb c sep) eqn:E.
    + constructor; [intros [] | exact IH].
    + destruct (split sep s) as [|w ws].
      * constructor; [|constructor].
        intros [H | []]. subst c. now rewrite Ascii.eqb_refl in E.
      * inversion IH; subst. constructor; [|assumption].
        intros [H | H]; [|contradiction].
        subst c. now rewrite Ascii.eqb_refl in E.
Qed.

Lemma existsb_eqb_In (x : str) (l : list str) :
  existsb (Str.eqb x) l = true <-> In x l.
Proof.
  rewrite existsb_exists. split.
  - intros (y & Hy & E). apply str_eqb_eq in E. now subst.
  - intros H. exists x. split; [exact H | apply str_eqb_refl].
Qed.

(** [dedup] keeps the first occurrence of every line, in order. *)
Lemma dedupAux_spec (l : list str) :
  forall seen,
    NoDup (dedupAux seen l)
    /\ (forall x, In x (dedupAux seen l) <-> In x l /\ ~ In x seen).
Proof.
  induction l as [|y l IH]; intros seen; cbn [dedupAux].
  - split; [constructor | intros x; simpl; tauto].
  - destruct (existsb (Str.eqb y) seen) eqn:E.
    + destruct (IH seen) as [Hnd Hin]. split; [exact Hnd|].
      apply existsb_eqb_In in E.
      intros x. rewrite Hin. simpl. split; [tauto|].
      intros [[-> | H] Hs]; [contradiction | tauto].
    + destruct (IH (y :: seen)) as [Hnd Hin].
      assert (~ In y seen) as Hy.
      { intros H. apply existsb_eqb_In in H. congruence. }
      split.
      * constructor; [|exact Hnd]. rewrite Hin. simpl. tauto.
      * intros x. simpl. rewrite Hin. simpl.
        destruct (list_eq_dec Ascii.ascii_dec y x) as [-> | Hne]; tauto.
Qed.

Lemma dedupAux_snoc (l : list str) (x : str) :
  forall seen,
    dedupAux seen (l ++ [x])
    = dedupAux seen l
        ++ (if existsb (Str.eqb x) (seen ++ l) then [] else [x]).
Proof.
  induction l as [|y l IH]; intros seen; cbn [app dedupAux].
  - rewrite app_nil_r. destruct (existsb (Str.eqb x) seen); reflexivity.
  - destruct (existsb (Str.eqb y) seen) eqn:E.
    + rewrite IH. f_equal.
      rewrite !existsb_app. simpl.
      destruct (Str.eqb x y) eqn:Exy; [|reflexivity].
      apply str_eqb_eq in Exy. subst y. rewrite E. reflexivity.
    + rewrite IH. cbn [app].
      assert (existsb (Str.eqb x) (y :: seen ++ l)
              = existsb (Str.eqb x) (seen ++ y :: l)) as ->; [|reflexivity].
      cbn [existsb]. rewrite !existsb_app. cbn [existsb].
      destruct (Str.eqb x y), (existsb (Str.eqb x) seen); reflexivity.
Qed.

(** Taking lines away does not lengthen the joined text. *)
Lemma join_length_cons (w : str) (ls : list str) :
  (List.length (join [nl] ls) <= List.length (join [nl] (w :: ls)))%nat.
Proof.
  destruct ls as [|w' ls]; [simpl; lia|].
  rewrite (join_cons [nl] w) by discriminate.
  rewrite !length_app. lia.
Qed.

Lemma dedupAux_length (l : list str) :
  forall seen,
    (List.length (join [nl] (dedupAux seen l)) <= List.length (join [nl] l))%nat.
Proof.
  induction l as [|y l IH]; intros seen; cbn [dedupAux]; [reflexivity|].
  destruct (existsb (Str.eqb y) seen).
  - etransitivity; [apply IH | apply join_length_cons].
  - specialize (IH (y :: seen)).
    destruct l as [|z l].
    + cbn [dedupAux]. reflexivity.
    + rewrite (join_cons [nl] y (z :: l)) by discriminate.
      destruct (dedupAux (y :: seen) (z :: l)) as [|d ds] eqn:Ed.
      * simpl. rewrite !length_app. lia.
      * rewrite (join_cons [nl] y (d :: ds)) by discriminate.
        rewrite !length_app. lia.
Qed.

(** The lines of a text without a run have none; lines without a run, joined
    by newlines, give a text without one. *)
Lemma join_clean_lines (p : str) (ls : list str) :
  includes p (join [nl] ls) = false -> Forall (fun w => includes p w = false) ls.
Proof.
  induction ls as [|w ls IH]; intros H; [constructor|].
  destruct ls as [|w' ls].
  - constructor; [exact H | constructor].
  - rewrite join_cons in H by discriminate.
    apply includes_parts in H. destruct H as [Hw H].
    apply includes_parts in H. destruct H as [_ H].
    constructor; [exact Hw | now apply IH].
Qed.

Lemma lines_clean_join (x : ascii) (k : nat) (ls : list str) :
  Ascii.eqb x nl = false ->
  Forall (fun w => includes (repeat x (S k)) w = false) ls ->
  includes (repeat x (S k)) (join [nl] ls) = false.
Proof.
  intros Hx. induction 1 as [|w ls Hw Hls IH]; [reflexivity|].
  destruct ls as [|w' ls]; [exact Hw|].
  rewrite join_cons by discriminate.
  cbn [app]. now apply includes_sep.
Qed.

Lemma join_chars (g : ascii -> bool) (ls : list str) :
  g nl = false ->
  (existsb g (join [nl] ls) = false
   <-> Forall (fun w => existsb g w = false) ls).
Proof.
  intros Hg. induction ls as [|w ls IH].
  - simpl. split; [constructor | reflexivity].
  - destruct ls as [|w' ls].
    + simpl. split; [intros H; now repeat constructor
                    | intros H; now inversion H].
    + rewrite join_cons by discriminate.
      rewrite !existsb_app. cbn [existsb]. rewrite Hg.
      rewrite orb_false_l, orb_false_iff, IH. split.
      * intros [Hw Hl]. now constructor.
      * intros H. inversion H; subst. now split.
Qed.

(** No newline stands first in a line, so a text joined from lines starts
    with as many newlines as it has empty lines in front. *)
Lemma includes_free_prefix (w t : str) :
  ~ In nl w ->
  includes [nl; nl; nl] (w ++ t) = includes [nl; nl; nl] t.
Proof.
  induction w as [|c w IH]; intros Hfree; [reflexivity|].
  cbn [app includes]. rewrite IH by (intros H; apply Hfree; now right).
  cbn [startsWith].
  assert (Ascii.eqb nl c = false) as ->.
  { apply Ascii.eqb_neq. intros E. apply Hfree. now left. }
  reflexivity.
Qed.

Lemma join_unique_lines_clean (ls : list str) :
  Forall (fun w => ~ In nl w) ls -> NoDup ls ->
  includes [nl; nl; nl] (join [nl] ls) = false
  /\ startsWith [nl; nl] (join [nl] ls) = false
  /\ (forall w rest, ls = w :: rest -> w <> [] ->
      startsWith [nl] (join [nl] ls) = false).
Proof.
  induction ls as [|w ls IH]; intros Hfree Hnd.
  - split; [reflexivity | split; [reflexivity | intros ? ? H; discriminate]].
  - inversion Hfree as [|? ? Hw Hls]; subst.
    inversion Hnd as [|? ? Hnotin Hnd']; subst.
    destruct (IH Hls Hnd') as (Hinc & Hs2 & Hs1).
    destruct ls as [|w' ls].
    + cbn [join]. destruct w as [|c w].
      * split; [reflexivity | split; [reflexivity|]].
        intros ? ? E H. injection E as <- _. now contradiction H.
      * assert (Ascii.eqb nl c = false) as Ec.
        { apply Ascii.eqb_neq. intros E. apply Hw. now left. }
        split.
        { rewrite <- (app_nil_r (c :: w)).
          now rewrite includes_free_prefix. }
        split; cbn [startsWith]; rewrite Ec; [reflexivity|].
        intros; reflexivity.
    + rewrite join_cons by discriminate.
      destruct w as [|c w].
      * (* an empty line in front: the next line is not empty *)
        assert (w' <> []) as Hw'.
        { intros ->. apply Hnotin. now left. }
        specialize (Hs1 w' ls eq_refl Hw').
        cbn [app]. split.
        { cbn [includes startsWith]. rewrite Ascii.eqb_refl.
          cbn [andb].
          destruct (join [nl] (w' :: ls)) as [|d t] eqn:Ej; [reflexivity|].
          cbn [startsWith] in Hs1. rewrite andb_true_r in Hs1.
          cbn [startsWith]. rewrite Hs1. cbn [andb orb].
          cbn [includes] in Hinc. exact Hinc. }
        split.
        { cbn [startsWith]. rewrite Ascii.eqb_refl. cbn [andb].
          destruct (join [nl] (w' :: ls)) as [|d t]; [reflexivity|].
          cbn [startsWith] in *. rewrite andb_true_r in Hs1.
          now rewrite Hs1. }
        intros ? ? E H. injection E as <- _. now contradiction H.
      * assert (Ascii.eqb nl c = false) as Ec.
        { apply Ascii.eqb_neq. intros E. apply Hw. now left. }
        split.
        { rewrite includes_free_prefix by exact Hw.
          cbn [app includes]. rewrite Hinc, orb_false_r.
          cbn [startsWith]. rewrite Ascii.eqb_refl. cbn [andb].
          exact Hs2. }
        split; cbn [app startsWith]; rewrite Ec; [reflexivity|].
        intros; reflexivity.
Qed.

End LineFacts.

Section CallbackFacts.
Import Str Optimizer.

(** A block of more than 20 lines keeps what stands before its tenth newline
    and after its fifth newline from the end; the marker takes the place of
    what stood between. *)
Lemma truncateBlock_long (m : str) :
  (20 < List.length (split nl m))%nat ->
  exists a x b,
    m = a ++ nl :: x ++ nl :: b
    /\ truncateBlock m = a ++ nl :: lit "// ... truncated ..." ++ nl :: b.
Proof.
  intros HL. unfold truncateBlock.
  set (lines := split nl m) in *.
  assert (Z.ltb 20 (Z.of_nat (List.length lines)) = true) as ->
    by (apply Z.ltb_lt; lia).
  assert (sliceFrom (-5) lines = skipn (List.length lines - 5) lines) as ->.
  { unfold sliceFrom. cbn [Z.ltb Z.compare]. f_equal. lia. }
  set (L := List.length lines) in *.
  set (A := firstn 10 lines).
  set (M := firstn (L - 15) (skipn 10 lines)).
  set (B := skipn (L - 5) lines).
  assert (lines = A ++ M ++ B) as Hlines.
  { unfold A, M, B.
    replace (L - 5)%nat with ((L - 15) + 10)%nat by lia.
    rewrite <- skipn_skipn. now rewrite !firstn_skipn. }
  assert (A <> []) as HA.
  { intros E. apply (f_equal (@List.length _)) in E.
    unfold A in E. rewrite length_firstn in E.
    cbn [List.length] in E. fold L in E. lia. }
  assert (M <> []) as HM.
  { intros E. apply (f_equal (@List.length _)) in E.
    unfold M in E. rewrite length_firstn, length_skipn in E.
    cbn [List.length] in E. fold L in E. lia. }
  assert (B <> []) as HB.
  { intros E. apply (f_equal (@List.length _)) in E.
    unfold B in E. rewrite length_skipn in E.
    cbn [List.length] in E. fold L in E. lia. }
  exists (join [nl] A), (join [nl] M), (join [nl] B). split.
  - rewrite <- (join_split nl m) at 1. fold lines. rewrite Hlines.
    assert (M ++ B <> []) as HMB.
    { intros E. apply app_eq_nil in E. now destruct E. }
    rewrite (join_app [nl] A (M ++ B) HA HMB).
    rewrite (join_app [nl] M B HM HB).
    reflexivity.
  - unfold truncationMarker. rewrite <- !app_assoc. reflexivity.
Qed.

Lemma truncateBlock_short (m : str) :
  ~ (20 < List.length (split nl m))%nat -> truncateBlock m = m.
Proof.
  intros HL. unfold truncateBlock.
  assert (Z.ltb 20 (Z.of_nat (List.length (split nl m))) = false) as ->
    by (apply Z.ltb_ge; lia).
  reflexivity.
Qed.

Lemma truncateBlock_clean (x : ascii) (k : nat) (m : str) :
  Spec.markerFree x k ->
  includes (repeat x (S k)) m = false ->
  includes (repeat x (S k)) (truncateBlock m) = false.
Proof.
  intros (Hs & Hd & Hmk) Hm.
  destruct (Compare_dec.lt_dec 20 (List.length (split nl m))) as [HL | HL];
    [|now rewrite truncateBlock_short].
  destruct (truncateBlock_long m HL) as (a & y & b & Em & ->).
  assert (includes (repeat x (S k)) (a ++ [nl]) = false) as Ha.
  { rewrite Em in Hm.
    change (a ++ nl :: y ++ nl :: b) with (a ++ [nl] ++ y ++ nl :: b) in Hm.
    rewrite app_assoc in Hm. now apply includes_parts in Hm. }
  assert (includes (repeat x (S k)) (nl :: b) = false) as Hb.
  { rewrite Em in Hm.
    change (a ++ nl :: y ++ nl :: b) with (a ++ (nl :: y) ++ nl :: b) in Hm.
    rewrite !app_assoc in Hm. now apply includes_parts in Hm. }
  change (a ++ nl :: lit "// ... truncated ..." ++ nl :: b)
    with (a ++ [nl] ++ "/"%char :: (lit "/ ... truncated .." ++ "."%char :: nl :: b)).
  rewrite app_assoc.
  apply includes_sep; [exact Hs | exact Ha |].
  apply includes_sep; [exact Hd | exact Hmk | exact Hb].
Qed.

Lemma truncateBlock_chars (g : ascii -> bool) (m : str) :
  existsb g truncationMarker = false ->
  existsb g m = false -> existsb g (truncateBlock m) = false.
Proof.
  intros Hmk Hm.
  destruct (Compare_dec.lt_dec 20 (List.length (split nl m))) as [HL | HL];
    [|now rewrite truncateBlock_short].
  destruct (truncateBlock_long m HL) as (a & y & b & Em & ->).
  rewrite Em in Hm.
  change (a ++ nl :: y ++ nl :: b) with (a ++ (nl :: y) ++ [nl] ++ b) in Hm.
  rewrite !existsb_app in Hm.
  repeat (apply orb_false_iff in Hm; destruct Hm as [? Hm]).
  change (a ++ nl :: lit "// ... truncated ..." ++ nl :: b)
    with (a ++ truncationMarker ++ b).
  rewrite !existsb_app, Hmk, Hm. now rewrite H.
Qed.

(** Swapping what stands between two newlines keeps the first and the last
    character of a text that starts and ends with another character. *)
Lemma edges_kept (c1 c2 : ascii) (a x y b mid : str) :
  c1 <> nl -> c2 <> nl ->
  a ++ nl :: x ++ nl :: b = c1 :: mid ++ [c2] ->
  exists mid', a ++ nl :: y ++ nl :: b = c1 :: mid' ++ [c2].
Proof.
  intros H1 H2 E.
  destruct a as [|c a]; [cbn [app] in E; congruence|].
  cbn [app] in E. injection E as -> E.
  destruct (exists_last (l := nl :: b)) as (b' & c & Eb); [discriminate|].
  assert (c = c2) as ->.
  { change (a ++ nl :: x ++ nl :: b) with (a ++ (nl :: x) ++ nl :: b) in E.
    rewrite Eb, !app_assoc in E. now apply app_inj_tail in E. }
  destruct b' as [|d b'].
  - cbn [app] in Eb. congruence.
  - cbn [app] in Eb. injection Eb as <- Eb.
    exists (a ++ nl :: y ++ nl :: b'). cbn [app]. f_equal.
    rewrite Eb. rewrite <- !app_assoc. cbn [app].
    now rewrite <- !app_assoc.
Qed.

Lemma truncateBlock_edges (body : str) :
  exists mid, truncateBlock (fence ++ body ++ fence) = backtick :: mid ++ [backtick].
Proof.
  set (m := fence ++ body ++ fence).
  assert (m = backtick :: ([backtick; backtick] ++ body ++ [backtick; backtick])
                ++ [backtick]) as Em.
  { unfold m, fence. cbn [app]. do 3 f_equal.
    rewrite <- !app_assoc. reflexivity. }
  destruct (Compare_dec.lt_dec 20 (List.length (split nl m))) as [HL | HL].
  - destruct (truncateBlock_long m HL) as (a & y & b & Ea & ->).
    rewrite Ea in Em.
    eapply edges_kept; [| | exact Em]; discriminate.
  - rewrite truncateBlock_short by exact HL. eexists. exact Em.
Qed.

Lemma shortenComment_cases (m : str) :
  shortenComment m = m \/ shortenComment m = commentPlaceholder.
Proof.
  unfold shortenComment. destruct (200 <? len m); [now right | now left].
Qed.

Lemma shortenComment_edges (body : str) :
  exists mid,
    shortenComment (lit "/*" ++ body ++ lit "*/") = "/"%char :: mid ++ ["/"%char].
Proof.
  destruct (shortenComment_cases (lit "/*" ++ body ++ lit "*/")) as [-> | ->].
  - exists ("*"%char :: body ++ ["*"%char]). cbn [app lit].
    change (lit "/*") with ["/"%char; "*"%char].
    change (lit "*/") with ["*"%char; "/"%char].
    cbn [app]. do 2 f_equal. rewrite <- app_assoc. reflexivity.
  - exists (lit "* ... detailed comment removed ... *"). reflexivity.
Qed.

Lemma shortenComment_length (m : str) :
  (List.length (shortenComment m) <= List.length m)%nat.
Proof.
  unfold shortenComment. destruct (200 <? len m) eqn:E; [|reflexivity].
  apply Z.ltb_lt in E. unfold len in E.
  change (List.length commentPlaceholder) with 38%nat. lia.
Qed.

End CallbackFacts.

Section CollapseFacts.
Import Str Optimizer.

Lemma isBlank_not_nl (c : ascii) : isBlank c = true -> Ascii.eqb c nl = false.
Proof.
  unfold isBlank. intros H. apply orb_true_iff in H.
  destruct H as [H | H]; apply Ascii.eqb_eq in H; subst c; reflexivity.
Qed.

Lemma flushNewlines_length (k : nat) :
  (List.length (flushNewlines k) <= k)%nat
  /\ (3 <= k -> List.length (flushNewlines k) < k)%nat.
Proof.
  unfold flushNewlines. rewrite repeat_length.
  destruct (Nat.leb 3 k) eqn:E.
  - apply Nat.leb_le in E. lia.
  - apply Nat.leb_gt in E. lia.
Qed.

Lemma includes_repeat_nl (k : nat) :
  includes [nl; nl; nl] (repeat nl k) = Nat.leb 3 k.
Proof.
  destruct k as [|[|[|k]]]; reflexivity.
Qed.

(** Newlines: a run of [j + k] newlines before another character is written
    out as two when it has three or more, as it stands otherwise. *)
Lemma collapseNewlinesFrom_run (k : nat) :
  forall j c rest,
    Ascii.eqb c nl = false ->
    collapseNewlinesFrom j (repeat nl k ++ c :: rest)
    = flushNewlines (j + k) ++ c :: collapseNewlinesFrom 0 rest.
Proof.
  induction k as [|k IH]; intros j c rest Hc; cbn [repeat app collapseNewlinesFrom].
  - rewrite Hc, Nat.add_0_r. reflexivity.
  - rewrite Ascii.eqb_refl, IH by exact Hc.
    now rewrite Nat.add_succ_r.
Qed.

Lemma collapseNewlinesFrom_length (s : str) :
  forall k,
    (List.length (collapseNewlinesFrom k s) <= k + List.length s)%nat
    /\ (includes [nl; nl; nl] (repeat nl k ++ s) = true ->
        List.length (collapseNewlinesFrom k s) < k + List.length s)%nat.
Proof.
  induction s as [|c s IH]; intros k; cbn [collapseNewlinesFrom].
  - rewrite app_nil_r, includes_repeat_nl.
    destruct (flushNewlines_length k) as [Hle Hlt]. split.
    + cbn [List.length]. lia.
    + intros H. apply Nat.leb_le in H. cbn [List.length]. specialize (Hlt H). lia.
  - destruct (Ascii.eqb c nl) eqn:E.
    + apply Ascii.eqb_eq in E. subst c.
      destruct (IH (S k)) as [Hle Hlt]. cbn [List.length]. split; [lia|].
      intros H. replace (repeat nl k ++ nl :: s) with (repeat nl (S k) ++ s) in H.
      * specialize (Hlt H). lia.
      * change (nl :: s) with ([nl] ++ s). rewrite app_assoc.
        f_equal. now rewrite <- repeat_cons.
    + destruct (IH 0%nat) as [Hle Hlt].
      destruct (flushNewlines_length k) as [Fle Flt].
      rewrite length_app. cbn [List.length] in *. split; [lia|].
      intros H.
      destruct (includes [nl; nl; nl] (repeat nl k)) eqn:Hk.
      * rewrite includes_repeat_nl in Hk. apply Nat.leb_le in Hk.
        specialize (Flt Hk). lia.
      * destruct (includes [nl; nl; nl] s) eqn:Hs.
        { cbn [repeat app] in Hlt. specialize (Hlt Hs). lia. }
        assert (Ascii.eqb nl c = false) as E'.
        { rewrite Ascii.eqb_sym. exact E. }
        pose proof (includes_sep nl c 2 (repeat nl k) s E' Hk Hs) as Hno.
        cbn [repeat] in Hno, H. congruence.
Qed.

(** Blanks: every run of spaces and tabs becomes one space. *)
Lemma collapseBlanksFrom_clean (s : str) :
  forall b,
    existsb (Ascii.eqb tab) (collapseBlanksFrom b s) = false
    /\ includes [space; space] (collapseBlanksFrom b s) = false
    /\ startsWith [space] (collapseBlanksFrom true s) = false.
Proof.
  induction s as [|c s IH]; intros b; cbn [collapseBlanksFrom].
  - now destruct b.
  - destruct (IH true) as (Ht & Hi & Hs).
    destruct (IH false) as (Ht' & Hi' & _).
    destruct (isBlank c) eqn:Ec.
    + split; [|split].
      * destruct b; [exact Ht|]. cbn [existsb]. now rewrite Ht.
      * destruct b; [exact Hi|]. cbn [includes]. rewrite Hi.
        cbn [startsWith]. cbn [startsWith] in Hs.
        destruct (collapseBlanksFrom true s); [reflexivity|].
        now rewrite Hs.
      * exact Hs.
    + unfold isBlank in Ec. apply orb_false_iff in Ec. destruct Ec as [E1 E2].
      split; [|split].
      * cbn [existsb]. rewrite Ht'. now rewrite Ascii.eqb_sym, E2.
      * cbn [includes startsWith]. rewrite Hi'.
        now rewrite Ascii.eqb_sym, E1.
      * cbn [startsWith]. now rewrite Ascii.eqb_sym, E1.
Qed.

Lemma collapseBlanksFrom_length (s : str) :
  forall b,
    (List.length (collapseBlanksFrom b s) <= List.length s)%nat
    /\ (Spec.hasBlankPair s = true ->
        List.length (collapseBlanksFrom b s) < List.length s)%nat
    /\ (Spec.startsBlank s = true ->
        List.length (collapseBlanksFrom true s) < List.length s)%nat.
Proof.
  induction s as [|c s IH]; intros b.
  - cbn. repeat split; try lia; discriminate.
  - destruct (IH true) as (Hle & Hp & Hs).
    destruct (IH false) as (Hle' & Hp' & _).
    assert (Spec.hasBlankPair (c :: s) = true ->
            isBlank c = true /\ Spec.startsBlank s = true
            \/ Spec.hasBlankPair s = true) as Hcases.
    { cbn [Spec.hasBlankPair]. destruct s as [|d s]; [discriminate|].
      intros H. apply orb_true_iff in H. destruct H as [H | H]; [|now right].
      apply andb_true_iff in H. now left. }
    cbn [collapseBlanksFrom Spec.startsBlank].
    destruct (isBlank c) eqn:Ec.
    + split; [|split].
      * destruct b; cbn [List.length]; lia.
      * intros H. destruct (Hcases H) as [[_ Hb] | Hb].
        { specialize (Hs Hb). destruct b; cbn [List.length]; lia. }
        specialize (Hp Hb). destruct b; cbn [List.length]; lia.
      * intros _. cbn [List.length]. lia.
    + split; [|split].
      * cbn [List.length]. lia.
      * intros H. destruct (Hcases H) as [[Hb _] | Hb]; [discriminate|].
        specialize (Hp' Hb). cbn [List.length]. lia.
      * discriminate.
Qed.

Lemma hasBlankPair_app_r (a t : str) :
  Spec.hasBlankPair t = true -> Spec.hasBlankPair (a ++ t) = true.
Proof.
  intros H. induction a as [|c a IH]; [exact H|].
  cbn [app Spec.hasBlankPair].
  destruct (a ++ t) eqn:E; [discriminate|].
  rewrite IH. apply orb_true_r.
Qed.

(** Collapsing newlines leaves two blanks in a row where they stand. *)
Lemma collapseNewlinesFrom_blanks (s : str) :
  forall k,
    Spec.hasBlankPair s = true ->
    Spec.hasBlankPair (collapseNewlinesFrom k s) = true.
Proof.
  induction s as [|c s IH]; intros k H; [discriminate|].
  cbn [collapseNewlinesFrom].
  destruct (Ascii.eqb c nl) eqn:E.
  - apply IH. apply Ascii.eqb_eq in E. subst c.
    cbn [Spec.hasBlankPair] in H. destruct s; [discriminate|].
    exact H.
  - apply hasBlankPair_app_r.
    cbn [Spec.hasBlankPair] in H. destruct s as [|d s]; [discriminate|].
    apply orb_true_iff in H. destruct H as [H | H].
    + apply andb_true_iff in H. destruct H as [Hc Hd].
      cbn [collapseNewlinesFrom]. rewrite (isBlank_not_nl d Hd).
      cbn [flushNewlines Nat.leb repeat app Spec.hasBlankPair].
      now rewrite Hc, Hd.
    + specialize (IH 0%nat H).
      change (c :: collapseNewlinesFrom 0 (d :: s))
        with ([c] ++ collapseNewlinesFrom 0 (d :: s)).
      now apply hasBlankPair_app_r.
Qed.

Lemma dedupLines_length (s : str) :
  (List.length (dedupLines s) <= List.length s)%nat.
Proof.
  unfold dedupLines, dedup.
  etransitivity; [apply dedupAux_length|].
  now rewrite join_split.
Qed.

(** The first three steps never lengthen the text, and shorten a text that
    holds three newlines or two blanks in a row. *)
Lemma removeRedundancy_length (s : str) :
  (List.length (removeRedundancy s) <= List.length s)%nat
  /\ (Spec.hasRedundantWhitespace s = true ->
      List.length (removeRedundancy s) < List.length s)%nat.
Proof.
  unfold removeRedundancy.
  pose proof (dedupLines_length (collapseBlanks (collapseNewlines s))) as Hd.
  destruct (collapseBlanksFrom_length (collapseNewlines s) false)
    as (Hb & Hb' & _).
  destruct (collapseNewlinesFrom_length s 0) as (Hn & Hn').
  fold (collapseBlanks (collapseNewlines s)) in Hb, Hb'.
  fold (collapseNewlines s) in Hn, Hn'.
  cbn [repeat app] in Hn'. split; [lia|].
  unfold Spec.hasRedundantWhitespace. intros H.
  apply orb_true_iff in H. destruct H as [H | H].
  - specialize (Hn' H). lia.
  - apply (collapseNewlinesFrom_blanks s 0) in H.
    specialize (Hb' H). lia.
Qed.

End CollapseFacts.

Section CompressFacts.
Import Str Optimizer.

Lemma dedup_sub (P : str -> Prop) (ls : list str) :
  Forall P ls -> Forall P (dedup ls).
Proof.
  intros H. apply Forall_forall. intros x Hx.
  apply (dedupAux_spec ls []) in Hx.
  rewrite Forall_forall in H. now apply H.
Qed.

Lemma removeRedundancy_clean (s : str) :
  includes [nl; nl; nl] (removeRedundancy s) = false
  /\ includes [space; space] (removeRedundancy s) = false
  /\ existsb (Ascii.eqb tab) (removeRedundancy s) = false.
Proof.
  unfold removeRedundancy, dedupLines.
  set (t := collapseBlanks (collapseNewlines s)).
  destruct (collapseBlanksFrom_clean (collapseNewlines s) false)
    as (Htab & Hsp & _).
  fold (collapseBlanks (collapseNewlines s)) in Htab, Hsp. fold t in Htab, Hsp.
  split; [|split].
  - apply join_unique_lines_clean.
    + apply dedup_sub, split_free.
    + apply (dedupAux_spec (split nl t) []).
  - apply (lines_clean_join space 1); [reflexivity|].
    apply dedup_sub. apply (join_clean_lines [space; space]).
    now rewrite join_split.
  - apply join_chars; [reflexivity|].
    apply dedup_sub. apply (join_chars (Ascii.eqb tab)); [reflexivity|].
    now rewrite join_split.
Qed.

(** Truncating fenced blocks and shortening comments start no run of [x]. *)
Lemma callbacks_clean (x : ascii) (k : nat) (s : str) :
  Spec.markerFree x k ->
  Ascii.eqb x backtick = false -> Ascii.eqb x "/" = false ->
  includes (repeat x (S k)) commentPlaceholder = false ->
  includes (repeat x (S k)) s = false ->
  includes (repeat x (S k)) (removeVerboseComments (compressCodeBlocks s)) = false.
Proof.
  intros Hmk Hbt Hsl Hph Hs.
  unfold removeVerboseComments, compressCodeBlocks, replaceAllBetween.
  apply (replaceBetween_clean _ _ _ x "/"%char "/"%char k Hsl Hsl).
  - intros body Hm. split; [|apply shortenComment_edges].
    destruct (shortenComment_cases (lit "/*" ++ body ++ lit "*/")) as [-> | ->];
      assumption.
  - apply (replaceBetween_clean _ _ _ x backtick backtick k Hbt Hbt);
      [|exact Hs].
    intros body Hm. split; [|apply truncateBlock_edges].
    now apply truncateBlock_clean.
Qed.

Lemma callbacks_chars (s : str) :
  existsb (Ascii.eqb tab) s = false ->
  existsb (Ascii.eqb tab) (removeVerboseComments (compressCodeBlocks s)) = false.
Proof.
  intros Hs.
  unfold removeVerboseComments, compressCodeBlocks, replaceAllBetween.
  apply replaceBetween_chars.
  - intros m Hm. destruct (shortenComment_cases m) as [-> | ->];
      [exact Hm | reflexivity].
  - apply replaceBetween_chars; [|exact Hs].
    intros m Hm. now apply truncateBlock_chars.
Qed.

Lemma removeVerboseComments_length (t : str) :
  (List.length (removeVerboseComments t) <= List.length t)%nat.
Proof.
  unfold removeVerboseComments, replaceAllBetween.
  apply replaceBetween_length, shortenComment_length.
Qed.

(** A line is kept where it occurs first: up to there, the kept lines are
    the kept lines of what precedes it. *)
Lemma dedupAux_app (a b : list str) :
  forall seen,
    exists seen',
      (forall x, In x seen' <-> In x a \/ In x seen)
      /\ dedupAux seen (a ++ b) = dedupAux seen a ++ dedupAux seen' b.
Proof.
  induction a as [|y a IH]; intros seen; cbn [app dedupAux].
  - exists seen. split; [intros x; simpl; tauto | reflexivity].
  - destruct (existsb (Str.eqb y) seen) eqn:E.
    + destruct (IH seen) as (seen' & Hin & Heq). exists seen'.
      split; [|exact Heq].
      apply existsb_eqb_In in E. intros x. rewrite Hin. simpl.
      split; [tauto|]. intros [[<- | H] | H]; tauto.
    + destruct (IH (y :: seen)) as (seen' & Hin & Heq). exists seen'.
      split; [|now rewrite Heq].
      intros x. rewrite Hin. simpl. tauto.
Qed.

Lemma dedup_first_occurrence (pre post : list str) (l : str) :
  ~ In l pre ->
  exists after,
    dedup (pre ++ l :: post) = dedup pre ++ l :: after.
Proof.
  intros Hl. unfold dedup.
  destruct (dedupAux_app pre (l :: post) []) as (seen' & Hin & ->).
  cbn [dedupAux].
  destruct (existsb (Str.eqb l) seen') eqn:E.
  - apply existsb_eqb_In, Hin in E. simpl in E. tauto.
  - eexists. reflexivity.
Qed.

(** A run of spaces and tabs is written as one space, and every other
    character as itself. *)
Lemma collapseBlanksFrom_run (run rest : str) :
  forallb isBlank run = true ->
  Spec.startsBlank rest = false ->
  collapseBlanksFrom true (run ++ rest) = collapseBlanksFrom false rest.
Proof.
  intros Hrun Hrest. induction run as [|b run IH]; cbn [app].
  - destruct rest as [|c rest]; [reflexivity|].
    cbn [Spec.startsBlank] in Hrest. cbn [collapseBlanksFrom].
    now rewrite Hrest.
  - cbn [forallb] in Hrun. apply andb_prop in Hrun. destruct Hrun as [Hb Hrun].
    cbn [collapseBlanksFrom]. rewrite Hb. now apply IH.
Qed.

Lemma collapseNewlinesFrom_end (k : nat) :
  forall j, collapseNewlinesFrom j (repeat nl k) = flushNewlines (j + k).
Proof.
  induction k as [|k IH]; intros j; cbn [repeat collapseNewlinesFrom].
  - now rewrite Nat.add_0_r.
  - rewrite Ascii.eqb_refl, IH. now rewrite Nat.add_succ_r.
Qed.

End CompressFacts.

(** C9, as the code has it.  Whatever the input, the output of the compress
    optimization holds no three newlines in a row, no two spaces in a row
    and no tab, inside code fences as well as outside.  Its first three
    steps write a run of three or more newlines as exactly two and leave a
    shorter run alone, write every run of spaces and tabs as one space and
    every other character as itself, and keep every line at its first
    occurrence only: the kept lines are distinct, they are the lines of the
    text, and what is kept before a line is what occurs before the first
    occurrence of the line.  These steps never lengthen the text, and
    shorten every text that holds three newlines or two blanks in a row;
    shortening comments never lengthens it.  The output as a whole is
    shorter than such an input when no fenced block is truncated. *)
Theorem compress_collapses_whitespace (s : str) :
  Spec.noTripleNewline (Optimizer.compressContent s)
  /\ Spec.noBlankRun (Optimizer.compressContent s)
  /\ (exists ls,
        NoDup ls
        /\ Optimizer.removeRedundancy s = Str.join [Str.nl] ls
        /\ (forall l,
              In l ls <->
              In l (Str.split Str.nl
                      (Optimizer.collapseBlanks (Optimizer.collapseNewlines s))))
        /\ (forall pre l post,
              Str.split Str.nl
                (Optimizer.collapseBlanks (Optimizer.collapseNewlines s))
              = pre ++ l :: post ->
              ~ In l pre ->
              exists before after,
                ls = before ++ l :: after
                /\ forall x, In x before <-> In x pre))
  /\ (forall j k c rest,
        Ascii.eqb c Str.nl = false ->
        Optimizer.collapseNewlinesFrom j (repeat Str.nl k ++ c :: rest)
        = repeat Str.nl (if Nat.leb 3 (j + k) then 2 else j + k)
            ++ c :: Optimizer.collapseNewlinesFrom 0 rest)
  /\ (forall j k,
        Optimizer.collapseNewlinesFrom j (repeat Str.nl k)
        = repeat Str.nl (if Nat.leb 3 (j + k) then 2 else j + k))
  /\ Optimizer.collapseBlanks [] = []
  /\ (forall c rest,
        Optimizer.isBlank c = false ->
        Optimizer.collapseBlanks (c :: rest)
        = c :: Optimizer.collapseBlanks rest)
  /\ (forall b run rest,
        forallb Optimizer.isBlank (b :: run) = true ->
        Spec.startsBlank rest = false ->
        Optimizer.collapseBlanks (b :: run ++ rest)
        = Str.space :: Optimizer.collapseBlanks rest)
  /\ (List.length (Optimizer.removeRedundancy s) <= List.length s)%nat
  /\ (Spec.hasRedundantWhitespace s = true ->
      List.length (Optimizer.removeRedundancy s) < List.length s)%nat
  /\ (forall t,
        List.length (Optimizer.removeVerboseComments t) <= List.length t)%nat
  /\ (Spec.hasRedundantWhitespace s = true ->
      Optimizer.compressCodeBlocks (Optimizer.removeRedundancy s)
      = Optimizer.removeRedundancy s ->
      List.length (Optimizer.compressContent s) < List.length s)%nat.
Proof.
  destruct (removeRedundancy_clean s) as (Hn & Hsp & Htab).
  destruct (removeRedundancy_length s) as (Hle & Hlt).
  unfold Spec.noTripleNewline, Spec.noBlankRun, Optimizer.compressContent.
  repeat apply conj.
  - apply (callbacks_clean Str.nl 2); try reflexivity; try exact Hn.
    repeat split; reflexivity.
  - apply (callbacks_clean Str.space 1); try reflexivity; try exact Hsp.
    repeat split; reflexivity.
  - now apply callbacks_chars.
  - exists (Str.dedup (Str.split Str.nl
              (Optimizer.collapseBlanks (Optimizer.collapseNewlines s)))).
    destruct (dedupAux_spec
                (Str.split Str.nl
                   (Optimizer.collapseBlanks (Optimizer.collapseNewlines s))) [])
      as (Hnd & Hin).
    split; [exact Hnd | split; [reflexivity|]].
    split.
    + intros l. unfold Str.dedup. rewrite Hin. simpl. tauto.
    + intros pre l post Hlines Hfirst. rewrite Hlines.
      destruct (dedup_first_occurrence pre post l Hfirst) as (after & ->).
      exists (Str.dedup pre), after. split; [reflexivity|].
      intros x. unfold Str.dedup.
      destruct (dedupAux_spec pre []) as (_ & Hpre). rewrite Hpre.
      simpl. tauto.
  - intros j k c rest Hc. now apply collapseNewlinesFrom_run.
  - intros j k. apply collapseNewlinesFrom_end.
  - reflexivity.
  - intros c rest Hc. unfold Optimizer.collapseBlanks.
    cbn [Optimizer.collapseBlanksFrom]. now rewrite Hc.
  - intros b run rest Hrun Hrest. unfold Optimizer.collapseBlanks.
    cbn [forallb] in Hrun. apply andb_prop in Hrun.
    destruct Hrun as [Hb Hrun].
    cbn [Optimizer.collapseBlanksFrom]. rewrite Hb.
    f_equal. now apply collapseBlanksFrom_run.
  - exact Hle.
  - exact Hlt.
  - apply removeVerboseComments_length.
  - intros H E. rewrite E.
    pose proof (removeVerboseComments_length (Optimizer.removeRedundancy s)).
    specialize (Hlt H). lia.
Qed.

(** C9 fails as stated.  The text of [Fixtures.longFence] holds two spaces
    in a row; its 52 characters become 60: one space goes, and the fenced
    block of 21 lines loses six one-letter lines (12 characters) for a
    marker of 22. *)
Lemma compress_lengthens_long_fence :
  Spec.hasRedundantWhitespace Fixtures.longFence = true
  /\ List.length Fixtures.longFence = 52%nat
  /\ List.length (Optimizer.compressContent Fixtures.longFence) = 60%nat
  /\ ~ (List.length (Optimizer.compressContent Fixtures.longFence)
        < List.length Fixtures.longFence)%nat.
Proof.
  repeat apply conj; try (vm_compute; reflexivity).
  vm_compute. lia.
Qed.

(* ================================================================== *)
(** * Further properties of the optimizer *)
(* ================================================================== *)

Section EstimateFacts.
Import Str Optimizer Spec.

Lemma isSpace_not_punctuation (c : ascii) :
  isSpace c = true -> isPunctuation c = false.
Proof.
  destruct c as [[] [] [] [] [] [] [] []]; intros H;
    first [reflexivity | discriminate H].
Qed.

Lemma wordsAux_app_space (a : str) :
  forall cur c b,
    isSpace c = true ->
    wordsAux cur (a ++ c :: b) = wordsAux cur a ++ words b.
Proof.
  induction a as [|x a IH]; intros cur c b Hc; cbn [app wordsAux].
  - rewrite Hc. destruct cur; reflexivity.
  - destruct (isSpace x).
    + destruct cur; [now apply IH|].
      cbn [app]. f_equal. now apply IH.
    + now apply IH.
Qed.

Lemma words_app_space (a b : str) (c : ascii) :
  isSpace c = true -> words (a ++ c :: b) = words a ++ words b.
Proof.
  apply wordsAux_app_space.
Qed.

Lemma fold_wordCost_shift (ws : list str) :
  forall acc,
    fold_left (fun tokenCount w => tokenCount + wordCost w) ws acc
    = acc + fold_left (fun tokenCount w => tokenCount + wordCost w) ws 0.
Proof.
  induction ws as [|w ws IH]; intros acc; cbn [fold_left]; [lia|].
  rewrite IH, (IH (0 + wordCost w)). lia.
Qed.

Lemma fold_wordCost_app (a b : list str) :
  fold_left (fun tokenCount w => tokenCount + wordCost w) (a ++ b) 0
  = fold_left (fun tokenCount w => tokenCount + wordCost w) a 0
    + fold_left (fun tokenCount w => tokenCount + wordCost w) b 0.
Proof.
  rewrite fold_left_app. apply fold_wordCost_shift.
Qed.

Lemma count_app (f : ascii -> bool) (a b : str) :
  count f (a ++ b) = count f a + count f b.
Proof.
  unfold count. rewrite filter_app, length_app. lia.
Qed.

Lemma count_nonneg (f : ascii -> bool) (s : str) : 0 <= count f s.
Proof.
  unfold count. lia.
Qed.

Lemma ceilDiv_subadditive (x y : Z) :
  0 <= x -> 0 <= y ->
  ceilDiv (3 * (x + y)) 10 <= ceilDiv (3 * x) 10 + ceilDiv (3 * y) 10.
Proof.
  intros Hx Hy. unfold ceilDiv.
  Z.div_mod_to_equations. lia.
Qed.

(** The estimate of two texts joined by white space is at most the sum of
    their estimates: the words are those of the two texts, and the
    punctuation is rounded up once, not twice. *)
Lemma estimate_app_space (a b : str) (c : ascii) :
  isSpace c = true ->
  estimateTokenCount (a ++ c :: b)
  <= estimateTokenCount a + estimateTokenCount b.
Proof.
  intros Hc. unfold estimateTokenCount.
  rewrite (words_app_space a b c Hc), fold_wordCost_app.
  change (a ++ c :: b) with (a ++ [c] ++ b).
  rewrite !count_app.
  assert (count isPunctuation [c] = 0) as ->.
  { unfold count. cbn [filter]. now rewrite (isSpace_not_punctuation c Hc). }
  pose proof (ceilDiv_subadditive (count isPunctuation a)
                (count isPunctuation b)
                (count_nonneg _ _) (count_nonneg _ _)).
  rewrite Z.add_0_l. lia.
Qed.

Lemma estimate_cons_space (b : str) (c : ascii) :
  isSpace c = true -> estimateTokenCount (c :: b) = estimateTokenCount b.
Proof.
  intros Hc. unfold estimateTokenCount.
  change (c :: b) with ([] ++ c :: b) at 1.
  rewrite (words_app_space [] b c Hc). cbn [words wordsAux app].
  unfold count. cbn [filter]. now rewrite (isSpace_not_punctuation c Hc).
Qed.

Lemma estimate_nil : estimateTokenCount [] = 0.
Proof. reflexivity. Qed.

Lemma estimate_appendPiece (result piece : str) :
  estimateTokenCount (appendPiece result piece)
  <= estimateTokenCount result + estimateTokenCount piece.
Proof.
  unfold appendPiece. destruct result as [|r result].
  - cbn [truthy isEmpty negb app]. rewrite estimate_nil. lia.
  - cbn [truthy isEmpty negb].
    change ((r :: result) ++ [nl; nl] ++ piece)
      with ((r :: result) ++ nl :: (nl :: piece)).
    etransitivity; [apply estimate_app_space; reflexivity|].
    rewrite (estimate_cons_space piece nl) by reflexivity. lia.
Qed.

Lemma estimate_pieces (pieces : list str) :
  forall result,
    estimateTokenCount (fold_left appendPiece pieces result)
    <= estimateTokenCount result + sumTokens pieces.
Proof.
  induction pieces as [|p pieces IH]; intros result; cbn [fold_left sumTokens fold_right].
  - lia.
  - etransitivity; [apply IH|].
    pose proof (estimate_appendPiece result p).
    fold (sumTokens pieces). lia.
Qed.

(** What the packing loop keeps when nothing fits. *)
Lemma kept_nothing (maxTokens : Z) (scored : list Scored) :
  forall used,
    maxTokens < used ->
    Forall (fun s => 0 <= s_tokens s) scored ->
    kept maxTokens used scored = [].
Proof.
  induction scored as [|s scored IH]; intros used Hused Hpos; [reflexivity|].
  inversion Hpos; subst. cbn [kept].
  destruct (used + s_tokens s <=? maxTokens) eqn:E.
  - apply Z.leb_le in E. lia.
  - now apply IH.
Qed.

Lemma kept_sub (maxTokens : Z) (P : Scored -> Prop) (scored : list Scored) :
  forall used,
    Forall P scored -> Forall P (kept maxTokens used scored).
Proof.
  induction scored as [|s scored IH]; intros used H; [constructor|].
  inversion H; subst. cbn [kept].
  destruct (used + s_tokens s <=? maxTokens); [constructor|]; auto.
Qed.

Lemma costOf_sumTokens (l : list Scored) :
  Forall (fun s => s_tokens s = estimateTokenCount (s_content s)) l ->
  sumTokens (map s_content l) = costOf l.
Proof.
  induction 1 as [|s l Hs Hl IH]; [reflexivity|].
  cbn [map sumTokens costOf fold_right]. fold (sumTokens (map s_content l)).
  fold (costOf l). lia.
Qed.

Lemma selective_estimate (text : str) (maxTokens : Z) :
  estimateTokenCount (selectiveOptimization text maxTokens)
  <= Z.max 0 maxTokens.
Proof.
  unfold selectiveOptimization, packScored.
  rewrite selectLoop_kept. cbn [fst].
  set (ranked := sortDesc s_score (map scoreSection (splitIntoSections text))).
  assert (Forall (fun s => s_tokens s = estimateTokenCount (s_content s)) ranked)
    as Hranked.
  { apply Forall_forall. intros s Hs.
    apply (Permutation_in s (sortBy_perm _ _)) in Hs.
    apply in_map_iff in Hs. destruct Hs as (sec & <- & _). reflexivity. }
  etransitivity; [apply estimate_pieces|]. rewrite estimate_nil, Z.add_0_l.
  rewrite costOf_sumTokens by (apply kept_sub; exact Hranked).
  destruct (Z_lt_le_dec maxTokens 0) as [Hneg | Hpos].
  - rewrite kept_nothing; [cbn; lia | exact Hneg |].
    eapply Forall_impl; [|exact Hranked].
    intros s ->. apply estimateTokenCount_nonneg.
  - pose proof (kept_within maxTokens ranked 0 Hpos). lia.
Qed.

Lemma summarize_estimate (text : str) (maxTokens : Z) :
  estimateTokenCount (summarizeContent text maxTokens) <= Z.max 0 maxTokens.
Proof.
  unfold summarizeContent.
  destruct (summarizeLoop_shape maxTokens
              (prioritizeSections (splitIntoSections text)) [] 0)
    as (k & tail & _ & -> & Hk & Htail).
  set (secs := prioritizeSections (splitIntoSections text)) in *.
  etransitivity; [apply estimate_pieces|]. rewrite estimate_nil, Z.add_0_l.
  rewrite sumTokens_app.
  assert (sumTokens (regularSummaries (firstn k secs)) + sumTokens tail
          <= maxTokens
          \/ (sumTokens (regularSummaries (firstn k secs)) = 0
              /\ sumTokens tail = 0)) as Hsum.
  { destruct Htail as [[_ ->] | (s & _ & _ & ->)].
    - cbn [sumTokens fold_right].
      destruct Hk as [-> | Hk]; [right; now cbn | left; lia].
    - destruct (0 + sumTokens (regularSummaries (firstn k secs))
                + estimateTokenCount (summarizeSection s true) <=? maxTokens)
        eqn:E.
      + apply Z.leb_le in E. left. cbn [sumTokens fold_right]. lia.
      + cbn [sumTokens fold_right].
        destruct Hk as [-> | Hk]; [right; now cbn | left; lia]. }
  destruct Hsum as [H | [H1 H2]]; lia.
Qed.

End EstimateFacts.

(** X1.  The selective and the summarize optimization keep to the budget as
    the optimizer itself measures it: the estimate of the optimized text is
    at most the target ([maxTokens], or 8000 when that is absent or 0), and
    0 when the target is negative. *)
Theorem optimized_tokens_within_target (text : str) (maxTokens : option Z) :
  Optimizer.optimizedTokens
    (Optimizer.optimizeContext text Optimizer.Selective maxTokens)
  <= Z.max 0 (orDefault maxTokens Optimizer.DEFAULT_MAX_TOKENS)
  /\ Optimizer.optimizedTokens
       (Optimizer.optimizeContext text Optimizer.Summarize maxTokens)
     <= Z.max 0 (orDefault maxTokens Optimizer.DEFAULT_MAX_TOKENS).
Proof.
  split; cbn [Optimizer.optimizeContext Optimizer.optimizedTokens].
  - apply selective_estimate.
  - apply summarize_estimate.
Qed.

Section ReductionFacts.

Lemma percent_range (a b : Z) :
  0 < a -> a <= b ->
  (0 < inject_Z a / inject_Z b * 100 /\ inject_Z a / inject_Z b * 100 <= 100)%Q.
Proof.
  intros Ha Hab.
  assert (0 < inject_Z b)%Q as Hb.
  { change 0%Q with (inject_Z 0). rewrite <- Zlt_Qlt. lia. }
  assert (0 < inject_Z a)%Q as Ha'.
  { change 0%Q with (inject_Z 0). rewrite <- Zlt_Qlt. lia. }
  assert (inject_Z a <= inject_Z b)%Q as Hab' by (rewrite <- Zle_Qle; lia).
  assert (0 < inject_Z a / inject_Z b)%Q as Hpos.
  { apply Qlt_shift_div_l; [exact Hb|]. now rewrite Qmult_0_l. }
  assert (inject_Z a / inject_Z b <= 1)%Q as Hone.
  { apply Qle_shift_div_r; [exact Hb|]. now rewrite Qmult_1_l. }
  split; [nra | nra].
Qed.

End ReductionFacts.

(** X2.  The reduction that [optimizeContext] reports is a percentage: it
    lies between 0 and 100, and it is positive exactly when the optimized text
    is estimated smaller than the original.  A text that grows is reported
    with reduction 0, and the division is never by zero. *)
Theorem reduction_is_a_percentage (text : str)
  (strategy : Optimizer.OptimizationStrategy) (maxTokens : option Z) :
  let r := Optimizer.optimizeContext text strategy maxTokens in
  (0 <= Optimizer.reduction r /\ Optimizer.reduction r <= 100)%Q
  /\ ((0 < Optimizer.reduction r)%Q
      <-> Optimizer.optimizedTokens r < Optimizer.originalTokens r)
  /\ 0 <= Optimizer.optimizedTokens r
  /\ (Optimizer.originalTokens r = 0 -> (Optimizer.reduction r == 0)%Q).
Proof.
  cbv zeta.
  cbn [Optimizer.optimizeContext Optimizer.reduction Optimizer.optimizedTokens
       Optimizer.originalTokens].
  set (original := Optimizer.estimateTokenCount text).
  set (final := Optimizer.estimateTokenCount _).
  assert (0 <= final) as Hfinal by apply estimateTokenCount_nonneg.
  destruct (original - final >? 0) eqn:E.
  - apply Z.gtb_lt in E.
    destruct (percent_range (original - final) original) as [Hlo Hhi];
      [lia | lia |].
    split; [split; lra|].
    split; [split; intros _; [lia | lra]|].
    split; [exact Hfinal | intros H0; lia].
  - assert (original - final <= 0) as E'.
    { destruct (Z_lt_le_dec 0 (original - final)) as [H | H]; [|exact H].
      apply Z.gtb_lt in H. congruence. }
    split; [split; lra|].
    split; [split; intros H; [lra | lia]|].
    split; [exact Hfinal | intros _; reflexivity].
Qed.

Section TrimFacts.
Import Str Optimizer.

Lemma dropWhile_head (f : ascii -> bool) (s : str) :
  match dropWhile f s with
  | [] => True
  | c :: _ => f c = false
  end.
Proof.
  induction s as [|c s IH]; cbn [dropWhile]; [exact I|].
  destruct (f c) eqn:E; [exact IH | exact E].
Qed.

Lemma dropWhile_app_keep (f : ascii -> bool) (l : str) (c : ascii) :
  f c = false -> dropWhile f (l ++ [c]) = dropWhile f l ++ [c].
Proof.
  intros Hc. induction l as [|x l IH]; cbn [app dropWhile].
  - now rewrite Hc.
  - destruct (f x); [exact IH | reflexivity].
Qed.

Lemma dropWhile_all (f : ascii -> bool) (s : str) :
  forallb f s = true -> dropWhile f s = [].
Proof.
  induction s as [|c s IH]; cbn [forallb dropWhile]; [reflexivity|].
  intros H. apply andb_true_iff in H. destruct H as [-> H]. now apply IH.
Qed.

(** What [trim] leaves is empty or has no white space at either end. *)
Lemma trim_isTrimmed (s : str) :
  trim s <> [] -> Props.isTrimmed (trim s) = true.
Proof.
  unfold trim, trimEnd, trimStart. intros Hne.
  pose proof (dropWhile_head isSpace s) as Hhead.
  destruct (dropWhile isSpace s) as [|c u]; [now contradiction Hne|].
  cbn [rev] in *. rewrite (dropWhile_app_keep isSpace (rev u) c Hhead) in *.
  rewrite rev_app_distr. cbn [rev app].
  unfold Props.isTrimmed. cbn [rev]. rewrite rev_involutive, Hhead.
  pose proof (dropWhile_head isSpace (rev u)) as Hlast.
  destruct (dropWhile isSpace (rev u)) as [|d w]; cbn [app].
  - now rewrite Hhead.
  - now rewrite Hlast.
Qed.

Lemma isTrimmed_trim (s : str) : Props.isTrimmed s = true -> trim s = s.
Proof.
  unfold Props.isTrimmed, trim, trimEnd, trimStart.
  destruct s as [|c s]; [discriminate|].
  destruct (rev (c :: s)) as [|d w] eqn:E; [discriminate|].
  intros H. apply andb_true_iff in H. destruct H as [Hc Hd].
  apply negb_true_iff in Hc. apply negb_true_iff in Hd.
  cbn [dropWhile]. rewrite Hc, E. cbn [dropWhile]. rewrite Hd.
  now rewrite <- E, rev_involutive.
Qed.

Lemma isTrimmed_nonempty (s : str) : Props.isTrimmed s = true -> s <> [].
Proof.
  destruct s; [discriminate | discriminate].
Qed.

Lemma pushTrimmed_trimmed (secs : list str) (cur : str) :
  Forall (fun sec => Props.isTrimmed sec = true) secs ->
  Forall (fun sec => Props.isTrimmed sec = true) (pushTrimmed secs cur).
Proof.
  intros H. unfold pushTrimmed.
  destruct (trim cur) as [|c t] eqn:E; cbn [truthy isEmpty negb]; [exact H|].
  apply Forall_app. split; [exact H|].
  constructor; [|constructor].
  rewrite <- E. apply trim_isTrimmed. rewrite E. discriminate.
Qed.

Lemma splitSteps_trimmed (lines : list str) :
  forall st,
    Forall (fun sec => Props.isTrimmed sec = true) (sections st) ->
    Forall (fun sec => Props.isTrimmed sec = true)
      (sections (fold_left splitStep lines st)).
Proof.
  induction lines as [|line lines IH]; intros st H; [exact H|].
  cbn [fold_left]. apply IH. unfold splitStep.
  destruct (negb _ && isSectionMarker line)%bool; cbn [sections];
    [now apply pushTrimmed_trimmed | exact H].
Qed.

Lemma sections_trimmed (content : str) :
  Forall (fun sec => Props.isTrimmed sec = true) (splitIntoSections content).
Proof.
  unfold splitIntoSections. apply pushTrimmed_trimmed, splitSteps_trimmed.
  constructor.
Qed.

End TrimFacts.

(** X3.  Every section that [splitIntoSections] returns is non-empty and has
    no white space at its start or end: trimming it again changes nothing. *)
Theorem sections_are_trimmed (content : str) :
  Forall (fun section =>
            Props.isTrimmed section = true
            /\ section <> []
            /\ Str.trim section = section)
    (Optimizer.splitIntoSections content).
Proof.
  eapply Forall_impl; [|apply sections_trimmed].
  intros sec H. split; [exact H|]. split.
  - now apply isTrimmed_nonempty.
  - now apply isTrimmed_trim.
Qed.

Section TokenInfoFacts.
Import Str Optimizer.

Lemma classify_whitespace (d : Distribution) (section : str) :
  Props.isTrimmed section = true ->
  d_whitespace (classify d section) = d_whitespace d.
Proof.
  intros H. unfold classify.
  destruct (isCodeBlock section); [reflexivity|].
  destruct (isComment section); [reflexivity|].
  destruct (isDocumentation section); [reflexivity|].
  rewrite (isTrimmed_trim section H).
  destruct section as [|c section]; [discriminate H|].
  reflexivity.
Qed.

Lemma classifyAll_whitespace (secs : list str) :
  forall d,
    Forall (fun sec => Props.isTrimmed sec = true) secs ->
    d_whitespace (fold_left classify secs d) = d_whitespace d.
Proof.
  induction secs as [|sec secs IH]; intros d H; [reflexivity|].
  inversion H; subst. cbn [fold_left].
  rewrite IH by assumption. now apply classify_whitespace.
Qed.

Lemma breakdown_whitespace (a b c d e : jsnum) :
  JsMap.get (lit "whitespace")
    [(lit "code", a); (lit "documentation", b); (lit "comments", c);
     (lit "whitespace", d); (lit "other", e)] = Some d.
Proof. reflexivity. Qed.

End TokenInfoFacts.

(** X4.  [getTokenInfo] never counts a token as white space: the sections it
    classifies are trimmed and non-empty, so the test for a blank section
    never holds.  The share reported under [whitespace] is that of 0 tokens:
    0 for a text with tokens. *)
Theorem whitespace_share_is_zero (text : str) :
  JsMap.get (lit "whitespace")
    (Optimizer.breakdown (Optimizer.getTokenInfo text))
  = Some (Optimizer.percentOf 0
            (Optimizer.totalTokens (Optimizer.getTokenInfo text)))
  /\ (Optimizer.totalTokens (Optimizer.getTokenInfo text) <> 0 ->
      exists q,
        JsMap.get (lit "whitespace")
          (Optimizer.breakdown (Optimizer.getTokenInfo text))
        = Some (Finite q)
        /\ (q == 0)%Q).
Proof.
  assert (JsMap.get (lit "whitespace")
            (Optimizer.breakdown (Optimizer.getTokenInfo text))
          = Some (Optimizer.percentOf 0
                    (Optimizer.totalTokens (Optimizer.getTokenInfo text))))
    as Hget.
  { unfold Optimizer.getTokenInfo.
    cbn [Optimizer.breakdown Optimizer.totalTokens].
    rewrite breakdown_whitespace.
    rewrite classifyAll_whitespace by apply sections_trimmed.
    reflexivity. }
  split; [exact Hget|].
  intros Hne. rewrite Hget. unfold Optimizer.percentOf.
  destruct (Optimizer.totalTokens (Optimizer.getTokenInfo text) =? 0) eqn:E.
  - apply Z.eqb_eq in E. contradiction.
  - eexists. split; [reflexivity|].
    unfold Qdiv. now rewrite !Qmult_0_l.
Qed.

Section ChunkFacts.
Import Str Optimizer.

Lemma numbered_snoc (cs : list ContextChunk) (c : str) :
  Props.numbered cs ->
  Props.numbered (cs ++ [createChunk c (Z.of_nat (List.length cs))]).
Proof.
  intros [Hidx Htok]. split.
  - rewrite map_app, length_app, Hidx. cbn [List.length map index createChunk].
    rewrite Nat.add_1_r, seq_S, map_app. reflexivity.
  - apply Forall_app. split; [exact Htok|].
    constructor; [reflexivity | constructor].
Qed.

Lemma pushSubChunks_numbered (subs : list str) :
  forall cs,
    Props.numbered cs ->
    Props.numbered (fst (pushSubChunks subs cs (Z.of_nat (List.length cs))))
    /\ snd (pushSubChunks subs cs (Z.of_nat (List.length cs)))
       = Z.of_nat
           (List.length
              (fst (pushSubChunks subs cs (Z.of_nat (List.length cs))))).
Proof.
  induction subs as [|c subs IH]; intros cs H; cbn [pushSubChunks].
  - now split.
  - specialize (IH (cs ++ [createChunk c (Z.of_nat (List.length cs))])
                  (numbered_snoc cs c H)).
    rewrite length_app in IH. cbn [List.length] in IH.
    replace (Z.of_nat (List.length cs + 1)) with (Z.of_nat (List.length cs) + 1)
      in IH by lia.
    exact IH.
Qed.

Lemma chunkStep_numbered (chunkSize : Z) (st : ChunkState) (section : str) :
  Props.numbered (chunks st) ->
  chunkIndex st = Z.of_nat (List.length (chunks st)) ->
  Props.numbered (chunks (chunkStep chunkSize st section))
  /\ chunkIndex (chunkStep chunkSize st section)
     = Z.of_nat (List.length (chunks (chunkStep chunkSize st section))).
Proof.
  intros Hn Hi. unfold chunkStep.
  destruct (estimateTokenCount section >? chunkSize).
  - destruct (truthy (currentChunk st)).
    + rewrite Hi.
      pose proof (numbered_snoc (chunks st) (currentChunk st) Hn) as Hn'.
      pose proof (pushSubChunks_numbered
                    (splitLargeSection section chunkSize) _ Hn') as Hp.
      rewrite length_app in Hp. cbn [List.length] in Hp.
      replace (Z.of_nat (List.length (chunks st) + 1))
        with (Z.of_nat (List.length (chunks st)) + 1) in Hp by lia.
      destruct (pushSubChunks _ _ _) as [cs' i']. exact Hp.
    + rewrite Hi.
      pose proof (pushSubChunks_numbered
                    (splitLargeSection section chunkSize) _ Hn) as Hp.
      destruct (pushSubChunks _ _ _) as [cs' i']. exact Hp.
  - destruct (currentTokens st + estimateTokenCount section >? chunkSize);
      cbn [chunks chunkIndex].
    + rewrite Hi. split; [now apply numbered_snoc|].
      rewrite length_app. cbn [List.length]. lia.
    + now split.
Qed.

Lemma chunkSteps_numbered (chunkSize : Z) (secs : list str) :
  forall st,
    Props.numbered (chunks st) ->
    chunkIndex st = Z.of_nat (List.length (chunks st)) ->
    Props.numbered (chunks (fold_left (chunkStep chunkSize) secs st))
    /\ chunkIndex (fold_left (chunkStep chunkSize) secs st)
       = Z.of_nat
           (List.length (chunks (fold_left (chunkStep chunkSize) secs st))).
Proof.
  induction secs as [|sec secs IH]; intros st Hn Hi; [now split|].
  cbn [fold_left].
  destruct (chunkStep_numbered chunkSize st sec Hn Hi) as [Hn' Hi'].
  now apply IH.
Qed.

Lemma buildChunks_numbered (text : str) (chunkSize : Z) :
  Props.numbered (buildChunks text chunkSize).
Proof.
  unfold buildChunks.
  destruct (chunkSteps_numbered chunkSize (splitIntoSections text)
              {| chunks := []; currentChunk := []; currentTokens := 0;
                 chunkIndex := 0 |}) as [Hn Hi].
  - split; [reflexivity | constructor].
  - reflexivity.
  - destruct (truthy _); [|exact Hn].
    rewrite Hi. now apply numbered_snoc.
Qed.

Lemma overlapFrom_facts (rest : list ContextChunk) :
  forall cur,
    map index (overlapFrom cur rest) = map index (cur :: rest)
    /\ List.length (overlapFrom cur rest) = List.length (cur :: rest)
    /\ (tokenCount cur = estimateTokenCount (content cur) ->
        Forall (fun c => tokenCount c = estimateTokenCount (content c))
          (overlapFrom cur rest)).
Proof.
  induction rest as [|next rest IH]; intros cur; cbn [overlapFrom].
  - split; [reflexivity|]. split; [reflexivity|].
    intros H. constructor; [exact H | constructor].
  - destruct (IH (prependOverlap cur next)) as (Hidx & Hlen & Htok).
    split; [|split].
    + cbn [map]. rewrite Hidx. reflexivity.
    + cbn [List.length]. rewrite Hlen. reflexivity.
    + intros H. constructor; [exact H|]. apply Htok. reflexivity.
Qed.

Lemma addChunkOverlap_numbered (cs : list ContextChunk) :
  Props.numbered cs ->
  Props.numbered (addChunkOverlap cs)
  /\ List.length (addChunkOverlap cs) = List.length cs.
Proof.
  intros [Hidx Htok]. destruct cs as [|c rest]; [now repeat split|].
  cbn [addChunkOverlap].
  destruct (overlapFrom_facts rest c) as (Hi & Hl & Ht).
  inversion Htok; subst.
  split; [split|]; [now rewrite Hi, Hl | now apply Ht | exact Hl].
Qed.

End ChunkFacts.

(** X5.  The chunks that [chunkContext] returns carry their position as
    [index] (0, 1, 2, ...), also when a large section is split, and the
    [tokenCount] of every chunk is the estimate of its content, the overlap
    included.  Adding the overlaps neither adds nor drops a chunk. *)
Theorem chunks_are_numbered (text : str) (maxChunkSize : option Z) :
  let cs := Optimizer.chunkContext text maxChunkSize in
  map Optimizer.index cs = map Z.of_nat (seq 0 (List.length cs))
  /\ Forall (fun c => Optimizer.tokenCount c
                      = Optimizer.estimateTokenCount (Optimizer.content c)) cs
  /\ List.length cs
     = List.length (Optimizer.buildChunks text (orDefault maxChunkSize 2000)).
Proof.
  cbv zeta. unfold Optimizer.chunkContext.
  destruct (addChunkOverlap_numbered _
              (buildChunks_numbered text (orDefault maxChunkSize 2000)))
    as [[Hidx Htok] Hlen].
  now repeat split.
Qed.

Section BlankFacts.
Import Str Regex Optimizer.

Lemma isSpace_cases (c : ascii) :
  isSpace c = true ->
  In (nat_of_ascii c) [9; 10; 11; 12; 13; 32; 160]%nat.
Proof.
  destruct c as [[] [] [] [] [] [] [] []]; intros H;
    first [discriminate H | cbn; tauto].
Qed.

Lemma matchesAll_Never (s : str) : matchesAll Never s = false.
Proof.
  induction s as [|c s IH]; [reflexivity | exact IH].
Qed.

Lemma words_blank (s : str) : forallb isSpace s = true -> words s = [].
Proof.
  unfold words. induction s as [|c s IH]; cbn [forallb wordsAux];
    [reflexivity|].
  intros H. apply andb_true_iff in H. destruct H as [-> H]. now apply IH.
Qed.

Lemma count_blank (s : str) :
  forallb isSpace s = true -> count isPunctuation s = 0.
Proof.
  unfold count. induction s as [|c s IH]; cbn [forallb filter];
    [reflexivity|].
  intros H. apply andb_true_iff in H. destruct H as [Hc H].
  rewrite (isSpace_not_punctuation c Hc). now apply IH.
Qed.

Lemma estimate_blank (s : str) :
  forallb isSpace s = true -> estimateTokenCount s = 0.
Proof.
  intros H. unfold estimateTokenCount.
  now rewrite (words_blank s H), (count_blank s H).
Qed.

Lemma split_blank (s : str) :
  forallb isSpace s = true ->
  Forall (fun line => forallb isSpace line = true) (split nl s).
Proof.
  induction s as [|c s IH]; cbn [forallb split].
  - intros _. constructor; [reflexivity | constructor].
  - intros H. apply andb_true_iff in H. destruct H as [Hc H].
    specialize (IH H). destruct (Ascii.eqb c nl).
    + constructor; [reflexivity | exact IH].
    + destruct (split nl s) as [|w ws]; [constructor; [|constructor]|].
      * cbn [forallb]. now rewrite Hc.
      * inversion IH; subst. constructor; [|assumption].
        cbn [forallb]. now rewrite Hc.
Qed.

(** A blank line opens no fence and is no section marker. *)
Lemma blank_line_plain (line : str) :
  forallb isSpace line = true ->
  startsWith fence line = false /\ isSectionMarker line = false.
Proof.
  destruct line as [|c line]; [now split|].
  cbn [forallb]. intros H. apply andb_true_iff in H. destruct H as [Hc _].
  apply isSpace_cases in Hc.
  assert (forall n, nat_of_ascii c = n -> c = ascii_of_nat n) as Hof.
  { intros n <-. now rewrite ascii_nat_embedding. }
  unfold isSectionMarker, testStart, testWhole.
  cbn [In] in Hc.
  repeat (destruct Hc as [Hc | Hc];
          [apply eq_sym, Hof in Hc; subst c; cbn;
           rewrite ?matchesAll_Never; now split|]).
  contradiction.
Qed.

Lemma splitSteps_blank (lines : list str) :
  forall st,
    Forall (fun line => forallb isSpace line = true) lines ->
    sections st = [] ->
    forallb isSpace (currentSection st) = true ->
    inCodeBlock st = false ->
    sections (fold_left splitStep lines st) = []
    /\ forallb isSpace (currentSection (fold_left splitStep lines st)) = true.
Proof.
  induction lines as [|line lines IH]; intros st Hl Hs Hc Hi; [now split|].
  inversion Hl as [|? ? Hline Hrest]; subst. cbn [fold_left].
  destruct (blank_line_plain line Hline) as [Hfence Hmark].
  apply IH; try assumption; unfold splitStep; rewrite Hfence, Hmark, Hi;
    cbn [negb andb sections currentSection inCodeBlock]; try assumption;
    try reflexivity.
  rewrite !forallb_app, Hc, Hline.
  destruct (truthy (currentSection st)); reflexivity.
Qed.

Lemma sections_blank (content : str) :
  forallb isSpace content = true -> splitIntoSections content = [].
Proof.
  intros H. unfold splitIntoSections.
  destruct (splitSteps_blank (split nl content)
              {| sections := []; currentSection := []; inCodeBlock := false |}
              (split_blank content H) eq_refl eq_refl eq_refl) as [Hs Hc].
  rewrite Hs. unfold pushTrimmed, trim, trimStart.
  now rewrite (dropWhile_all isSpace _ Hc).
Qed.

End BlankFacts.

(** X6.  A text of nothing but white space (the empty text included) has an
    estimate of 0 tokens and no section: it gives no chunk, and the
    summarize and the selective optimization give the empty text. *)
Theorem blank_content_has_no_sections (content : str) :
  Props.isBlankText content = true ->
  Optimizer.estimateTokenCount content = 0
  /\ Optimizer.splitIntoSections content = []
  /\ (forall maxChunkSize, Optimizer.chunkContext content maxChunkSize = [])
  /\ (forall maxTokens,
        Optimizer.summarizeContent content maxTokens = []
        /\ Optimizer.selectiveOptimization content maxTokens = []).
Proof.
  unfold Props.isBlankText. intros H.
  pose proof (sections_blank content H) as Hs.
  split; [now apply estimate_blank|]. split; [exact Hs|]. split.
  - intros m. unfold Optimizer.chunkContext, Optimizer.buildChunks.
    rewrite Hs. reflexivity.
  - intros m. unfold Optimizer.summarizeContent,
      Optimizer.selectiveOptimization. rewrite Hs. now split.
Qed.

(** X6, witness: two spaces, a newline, a tab and a space. *)
Lemma blank_content_has_no_sections_witness :
  Props.isBlankText Samples.blankText = true
  /\ Optimizer.estimateTokenCount Samples.blankText = 0
  /\ Optimizer.splitIntoSections Samples.blankText = [].
Proof.
  split; [reflexivity|].
  destruct (blank_content_has_no_sections Samples.blankText eq_refl)
    as (H1 & H2 & _).
  now split.
Defined.

Section LargeSectionFacts.
Import Str Optimizer.

Lemma split_app_sep (sep : ascii) (a b : str) :
  split sep (a ++ sep :: b) = split sep a ++ split sep b.
Proof.
  induction a as [|c a IH]; cbn [app split].
  - now rewrite Ascii.eqb_refl.
  - destruct (Ascii.eqb c sep); [now rewrite IH|].
    rewrite IH. pose proof (split_nonempty sep a) as Hne.
    destruct (split sep a) as [|w ws]; [contradiction | reflexivity].
Qed.

Lemma split_no_sep (sep : ascii) (s : str) :
  ~ In sep s -> split sep s = [s].
Proof.
  induction s as [|c s IH]; intros H; cbn [split]; [reflexivity|].
  destruct (Ascii.eqb c sep) eqn:E.
  - apply Ascii.eqb_eq in E. subst c. exfalso. apply H. now left.
  - rewrite IH; [reflexivity|]. intros Hin. apply H. now right.
Qed.

Lemma nonEmptyLines_line (line : str) :
  ~ In nl line -> Props.nonEmptyLines line = filter truthy [line].
Proof.
  intros H. unfold Props.nonEmptyLines. now rewrite split_no_sep.
Qed.

(** One line more: the lines that are not empty are those of the chunks and
    of the current chunk, in order. *)
Lemma splitLargeStep_lines (maxTokens : Z) (st : LineSplit) (line : str) :
  ~ In nl line ->
  Forall (fun p => p <> []) (ls_chunks st) ->
  flat_map Props.nonEmptyLines (ls_chunks (splitLargeStep maxTokens st line))
    ++ Props.nonEmptyLines (ls_current (splitLargeStep maxTokens st line))
  = (flat_map Props.nonEmptyLines (ls_chunks st)
       ++ Props.nonEmptyLines (ls_current st)) ++ filter truthy [line]
  /\ Forall (fun p => p <> []) (ls_chunks (splitLargeStep maxTokens st line)).
Proof.
  intros Hline Hne. unfold splitLargeStep.
  destruct (ls_current st) as [|c cur] eqn:Ecur.
  - rewrite andb_false_r. cbn [ls_chunks ls_current truthy isEmpty negb app].
    split; [|exact Hne].
    rewrite (nonEmptyLines_line line Hline). cbn [Props.nonEmptyLines].
    unfold Props.nonEmptyLines at 2. cbn [split filter truthy isEmpty negb].
    now rewrite app_nil_r.
  - cbn [truthy isEmpty negb]. rewrite andb_true_r.
    destruct (ls_tokens st + estimateTokenCount line >? maxTokens);
      cbn [ls_chunks ls_current].
    + split.
      * rewrite flat_map_app. cbn [flat_map]. rewrite app_nil_r.
        rewrite (nonEmptyLines_line line Hline).
        now rewrite <- !app_assoc.
      * apply Forall_app. split; [exact Hne|].
        constructor; [discriminate | constructor].
    + split; [|exact Hne].
      change ((c :: cur) ++ [nl] ++ line) with ((c :: cur) ++ nl :: line).
      unfold Props.nonEmptyLines at 2.
      rewrite split_app_sep, filter_app, (split_no_sep nl line Hline).
      now rewrite <- !app_assoc.
Qed.

Lemma splitLargeSteps_lines (maxTokens : Z) (lines : list str) :
  forall st,
    Forall (fun line => ~ In nl line) lines ->
    Forall (fun p => p <> []) (ls_chunks st) ->
    flat_map Props.nonEmptyLines
      (ls_chunks (fold_left (splitLargeStep maxTokens) lines st))
      ++ Props.nonEmptyLines
           (ls_current (fold_left (splitLargeStep maxTokens) lines st))
    = (flat_map Props.nonEmptyLines (ls_chunks st)
         ++ Props.nonEmptyLines (ls_current st)) ++ filter truthy lines
    /\ Forall (fun p => p <> [])
         (ls_chunks (fold_left (splitLargeStep maxTokens) lines st)).
Proof.
  induction lines as [|line lines IH]; intros st Hlines Hne.
  - cbn [fold_left filter]. now rewrite app_nil_r.
  - inversion Hlines as [|? ? Hline Hrest]; subst. cbn [fold_left].
    destruct (splitLargeStep_lines maxTokens st line Hline Hne) as [Hstep Hne'].
    destruct (IH _ Hrest Hne') as [Hall Hne''].
    split; [|exact Hne''].
    rewrite Hall, Hstep. change (line :: lines) with ([line] ++ lines).
    now rewrite filter_app, <- !app_assoc.
Qed.

Lemma splitLargeStep_bound (maxTokens : Z) (st : LineSplit) (line : str) :
  ~ In nl line ->
  (ls_tokens st <= maxTokens \/ ~ In nl (ls_current st)) ->
  estimateTokenCount (ls_current st) <= ls_tokens st ->
  Forall (Props.withinOrOneLine maxTokens) (ls_chunks st) ->
  let st' := splitLargeStep maxTokens st line in
  (ls_tokens st' <= maxTokens \/ ~ In nl (ls_current st'))
  /\ estimateTokenCount (ls_current st') <= ls_tokens st'
  /\ Forall (Props.withinOrOneLine maxTokens) (ls_chunks st').
Proof.
  intros Hline Hcur Hest Hchunks. cbv zeta. unfold splitLargeStep.
  pose proof (estimateTokenCount_nonneg (ls_current st)) as Hpos.
  pose proof (estimateTokenCount_nonneg line) as Hlpos.
  destruct (ls_current st) as [|c cur] eqn:Ecur.
  - rewrite andb_false_r. cbn [ls_chunks ls_current ls_tokens truthy isEmpty negb app].
    split; [now right|]. split; [lia | exact Hchunks].
  - cbn [truthy isEmpty negb]. rewrite andb_true_r.
    destruct (ls_tokens st + estimateTokenCount line >? maxTokens) eqn:E;
      cbn [ls_chunks ls_current ls_tokens].
    + split; [now right|]. split; [lia|].
      apply Forall_app. split; [exact Hchunks|].
      constructor; [|constructor].
      destruct Hcur as [Hcur | Hcur]; [left; lia | now right].
    + assert (ls_tokens st + estimateTokenCount line <= maxTokens) as E'.
      { destruct (Z_lt_le_dec maxTokens (ls_tokens st + estimateTokenCount line))
          as [H | H]; [|exact H].
        apply Z.gtb_lt in H. congruence. }
      split; [now left|]. split; [|exact Hchunks].
      change ((c :: cur) ++ [nl] ++ line) with ((c :: cur) ++ nl :: line).
      etransitivity; [apply estimate_app_space; reflexivity|]. lia.
Qed.

Lemma splitLargeSteps_bound (maxTokens : Z) (lines : list str) :
  forall st,
    Forall (fun line => ~ In nl line) lines ->
    (ls_tokens st <= maxTokens \/ ~ In nl (ls_current st)) ->
    estimateTokenCount (ls_current st) <= ls_tokens st ->
    Forall (Props.withinOrOneLine maxTokens) (ls_chunks st) ->
    let st' := fold_left (splitLargeStep maxTokens) lines st in
    (ls_tokens st' <= maxTokens \/ ~ In nl (ls_current st'))
    /\ estimateTokenCount (ls_current st') <= ls_tokens st'
    /\ Forall (Props.withinOrOneLine maxTokens) (ls_chunks st').
Proof.
  induction lines as [|line lines IH]; intros st Hlines Hcur Hest Hchunks;
    [now repeat split|].
  inversion Hlines as [|? ? Hline Hrest]; subst. cbn [fold_left].
  destruct (splitLargeStep_bound maxTokens st line Hline Hcur Hest Hchunks)
    as (H1 & H2 & H3).
  now apply IH.
Qed.

End LargeSectionFacts.

(** X7.  [splitLargeSection] loses no text: the lines of the section that
    are not empty are the lines of the pieces that are not empty, in the same
    order.  No piece is empty.  (An empty line that would start a piece is
    dropped.) *)
Theorem large_section_keeps_its_lines (section : str) (maxTokens : Z) :
  flat_map Props.nonEmptyLines (Optimizer.splitLargeSection section maxTokens)
  = Props.nonEmptyLines section
  /\ Forall (fun piece => piece <> [])
       (Optimizer.splitLargeSection section maxTokens).
Proof.
  unfold Optimizer.splitLargeSection.
  destruct (splitLargeSteps_lines maxTokens (Str.split Str.nl section)
              {| Optimizer.ls_chunks := []; Optimizer.ls_current := [];
                 Optimizer.ls_tokens := 0 |}
              (split_free Str.nl section) (Forall_nil _)) as [Hlines Hne].
  cbn [Optimizer.ls_chunks Optimizer.ls_current flat_map app] in Hlines.
  unfold Props.nonEmptyLines at 3 in Hlines.
  cbn [Str.split filter Str.truthy Str.isEmpty negb app] in Hlines.
  fold (Props.nonEmptyLines section) in Hlines.
  destruct (Optimizer.ls_current _) as [|c cur] eqn:Ecur;
    cbn [Str.truthy Str.isEmpty negb].
  - split; [|exact Hne]. rewrite <- Hlines.
    unfold Props.nonEmptyLines at 2.
    cbn [Str.split filter Str.truthy Str.isEmpty negb].
    now rewrite app_nil_r.
  - split.
    + rewrite flat_map_app. cbn [flat_map]. now rewrite app_nil_r.
    + apply Forall_app. split; [exact Hne|].
      constructor; [discriminate | constructor].
Qed.

(** X8.  A piece that [splitLargeSection] returns is estimated within the
    limit unless it is a single line: only a line that is too long by itself
    gives a piece above the limit. *)
Theorem large_section_pieces_fit (section : str) (maxTokens : Z) :
  Forall (fun piece =>
            Optimizer.estimateTokenCount piece <= maxTokens
            \/ ~ In Str.nl piece)
    (Optimizer.splitLargeSection section maxTokens).
Proof.
  unfold Optimizer.splitLargeSection.
  destruct (splitLargeSteps_bound maxTokens (Str.split Str.nl section)
              {| Optimizer.ls_chunks := []; Optimizer.ls_current := [];
                 Optimizer.ls_tokens := 0 |}
              (split_free Str.nl section))
    as (Hcur & Hest & Hchunks).
  - right. intros [].
  - cbn. reflexivity.
  - constructor.
  - destruct (Str.truthy _); [|exact Hchunks].
    apply Forall_app. split; [exact Hchunks|].
    constructor; [|constructor].
    destruct Hcur as [Hcur | Hcur]; [left; lia | now right].
Qed.

Section SummaryFacts.
Import Str Optimizer.

Lemma substring0_length (n : nat) (s : str) :
  (List.length (substring0 n s) <= n)%nat.
Proof.
  unfold substring0. rewrite length_firstn. lia.
Qed.

End SummaryFacts.

(** X9.  The very short summary of a section is short whatever the section:
    at most 103 characters, and at most 67 for a code block. *)
Theorem very_short_summary_is_short (section : str) :
  (List.length (Optimizer.summarizeSection section true) <= 103)%nat
  /\ (Optimizer.isCodeBlock section = true ->
      (List.length (Optimizer.summarizeSection section true) <= 67)%nat).
Proof.
  unfold Optimizer.summarizeSection.
  destruct (Optimizer.isCodeBlock section).
  - rewrite !length_app.
    match goal with
    | |- context [Str.substring0 50 ?l] =>
        pose proof (substring0_length 50 l) as H
    end.
    change (List.length (lit "[Code block: ")) with 13%nat.
    change (List.length (lit "...]")) with 4%nat.
    split; [lia | intros _; lia].
  - split; [|discriminate].
    destruct (Optimizer.nonBlankLines section) as [|l0 rest].
    + change (List.length (lit "undefined...")) with 12%nat. lia.
    + rewrite length_app. pose proof (substring0_length 100 l0).
      change (List.length (lit "...")) with 3%nat. lia.
Qed.

(** X10.  The importance of a section lies between -2 and 33, and its
    relevance for the selective optimization between 0 and 42: the relevance
    is never negative, whatever the section mentions. *)
Theorem section_scores_are_bounded (section : str) :
  -2 <= Optimizer.calculateSectionImportance section <= 33
  /\ 0 <= Optimizer.calculateRelevanceScore section <= 42.
Proof.
  assert (-2 <= Optimizer.calculateSectionImportance section <= 33) as H.
  { unfold Optimizer.calculateSectionImportance.
    repeat match goal with
           | |- context [if ?b then _ else _] => destruct b
           end; lia. }
  split; [exact H|].
  unfold Optimizer.calculateRelevanceScore.
  set (i := Optimizer.calculateSectionImportance section) in *.
  repeat match goal with
         | |- context [if ?b then _ else _] => destruct b
         end; lia.
Qed.

(* ================================================================== *)
(** * Further properties of the relevance scorer *)
(* ================================================================== *)

Section FactorFacts.
Import Str Fs.

Lemma clampZ_range (x : Z) : 0 <= Scorer.clampZ x <= 100.
Proof.
  unfold Scorer.clampZ. lia.
Qed.

Lemma percentage_of_Z (z : Z) :
  0 <= z <= 100 -> Props.isPercentage (inject_Z z).
Proof.
  intros [H0 H100]. split.
  - change 0%Q with (inject_Z 0). now rewrite <- Zle_Qle.
  - change 100%Q with (inject_Z 100). now rewrite <- Zle_Qle.
Qed.

Lemma typeScore_range (filePath : str) :
  10 <= Scorer.calculateTypeScore filePath <= 90.
Proof.
  unfold Scorer.calculateTypeScore.
  destruct (find _ Scorer.typeScores) as [kv|] eqn:E; [|lia].
  apply find_some in E. destruct E as [Hin _].
  unfold Scorer.typeScores in Hin. cbn [In] in Hin.
  repeat (destruct Hin as [<- | Hin]; [cbn; lia|]).
  contradiction.
Qed.

Lemma sizeScoreOf_range (bytes : Z) : 20 <= Scorer.sizeScoreOf bytes <= 100.
Proof.
  unfold Scorer.sizeScoreOf.
  repeat match goal with
         | |- context [if ?b then _ else _] => destruct b
         end; lia.
Qed.

Lemma recencyScoreOf_range (age : Z) : 10 <= Scorer.recencyScoreOf age <= 100.
Proof.
  unfold Scorer.recencyScoreOf.
  repeat match goal with
         | |- context [if ?b then _ else _] => destruct b
         end; lia.
Qed.

Lemma depthScore_nonneg (filePath : str) (ctx : option str) :
  0 <= Scorer.calculateDepthScore filePath ctx.
Proof.
  unfold Scorer.calculateDepthScore.
  destruct ctx as [c|]; [destruct (truthy c)|];
    repeat match goal with
           | |- context [if ?b then _ else _] => destruct b
           end; lia.
Qed.

End FactorFacts.

(** X11.  [calculateRelevance] never fails, whatever the file system does:
    a file whose stats cannot be read gets the neutral 50 for size and for
    recency.  The path, name, type, size and recency factors lie between 0
    and 100, and the depth factor is never negative. *)
Theorem relevance_factors_are_bounded (fs : Fs.IFileSystem) (pf : Fs.Platform)
  (filePath : str) (contextPath : option str) :
  exists f,
    Fs.outcome (Scorer.calculateRelevance fs pf filePath contextPath) = Ok f
    /\ Props.isPercentage (Scorer.pathScore f)
    /\ Props.isPercentage (Scorer.nameScore f)
    /\ Props.isPercentage (Scorer.typeScore f)
    /\ Props.isPercentage (Scorer.sizeScore f)
    /\ Props.isPercentage (Scorer.recencyScore f)
    /\ (0 <= Scorer.depthScore f)%Q
    /\ (Fs.getStats fs filePath = None ->
        Scorer.sizeScore f = 50%Q /\ Scorer.recencyScore f = 50%Q).
Proof.
  unfold Scorer.calculateRelevance, Scorer.calculateSizeScore,
    Scorer.calculateRecencyScore, Scorer.statsOf.
  destruct (Fs.getStats fs filePath) as [stats|] eqn:Es;
    cbv [Fs.bind Fs.tryCatch Fs.access Fs.ret Fs.outcome snd];
    (eexists; split; [reflexivity|]);
    cbn [Scorer.pathScore Scorer.nameScore Scorer.typeScore Scorer.sizeScore
         Scorer.recencyScore Scorer.depthScore].
  - repeat match goal with |- _ /\ _ => split end; try discriminate.
    + apply percentage_of_Z, clampZ_range.
    + apply percentage_of_Z, clampZ_range.
    + apply percentage_of_Z. pose proof (typeScore_range filePath). lia.
    + apply percentage_of_Z.
      pose proof (sizeScoreOf_range (Fs.size stats)). lia.
    + apply percentage_of_Z.
      pose proof (recencyScoreOf_range (Fs.now pf - Fs.modifiedAt stats)). lia.
    + change 0%Q with (inject_Z 0). rewrite <- Zle_Qle.
      apply depthScore_nonneg.
  - repeat match goal with |- _ /\ _ => split end; try reflexivity.
    + apply percentage_of_Z, clampZ_range.
    + apply percentage_of_Z, clampZ_range.
    + apply percentage_of_Z. pose proof (typeScore_range filePath). lia.
    + apply percentage_of_Z. lia.
    + apply percentage_of_Z. lia.
    + change 0%Q with (inject_Z 0). rewrite <- Zle_Qle.
      apply depthScore_nonneg.
    + intros _. split; reflexivity.
Qed.

(** X12.  The depth factor is at most 100 when there is no context path, or
    when the context path has no more segments than the file path.  For a
    file above the context it exceeds 100: by 10 for every segment that the
    context path has more. *)
Theorem depth_score_above_the_context (filePath : str) :
  Scorer.calculateDepthScore filePath None <= 100
  /\ (forall c,
        Scorer.segments c <= Scorer.segments filePath ->
        Scorer.calculateDepthScore filePath (Some c) <= 100)
  /\ (forall c,
        c <> [] ->
        Scorer.segments filePath < Scorer.segments c ->
        Scorer.calculateDepthScore filePath (Some c)
        = 100 + 10 * (Scorer.segments c - Scorer.segments filePath)).
Proof.
  assert (0 <= Scorer.segments filePath) as Hseg by (unfold Scorer.segments; lia).
  unfold Scorer.calculateDepthScore. split; [|split].
  - repeat match goal with
           | |- context [if ?b then _ else _] => destruct b
           end; lia.
  - intros c Hc. destruct (Str.truthy c).
    + destruct (_ =? 0) eqn:E0; [lia|].
      destruct (_ =? 1) eqn:E1; [lia|].
      destruct (_ =? 2) eqn:E2; [lia|]. lia.
    + repeat match goal with
             | |- context [if ?b then _ else _] => destruct b
             end; lia.
  - intros c Hne Hc. destruct c as [|x c]; [contradiction|].
    cbn [Str.truthy Str.isEmpty negb].
    destruct (_ =? 0) eqn:E0; [apply Z.eqb_eq in E0; lia|].
    destruct (_ =? 1) eqn:E1; [apply Z.eqb_eq in E1; lia|].
    destruct (_ =? 2) eqn:E2; [apply Z.eqb_eq in E2; lia|]. lia.
Qed.

Section ScoreFileFacts.
Import Str Fs.

Variable fs : IFileSystem.
Variable pf : Platform.

Lemma clampQ_zero : (Scorer.clampQ 0 == 0)%Q.
Proof. reflexivity. Qed.

Lemma filter_none {A : Type} (P : A -> bool) (l : list A) :
  Forall (fun x => P x = false) l -> filter P l = [].
Proof.
  induction 1 as [|x l Hx Hl IH]; cbn [filter]; [reflexivity|].
  now rewrite Hx.
Qed.

End ScoreFileFacts.

(** X13.  A file that matches an exclude pattern scores 0, whatever its
    factors, the query and the include patterns. *)
Theorem excluded_file_scores_zero (fs : Fs.IFileSystem) (pf : Fs.Platform)
  (filePath : str) (criteria : Scorer.ScoringCriteria) (patterns : list str)
  (r : Scorer.FileRelevance) :
  Scorer.excludePatterns criteria = Some patterns ->
  Fs.outcome (Scorer.someM (Scorer.matchesPattern pf filePath) patterns)
  = Ok true ->
  Fs.outcome (Scorer.scoreFile fs pf filePath criteria) = Ok r ->
  (Scorer.score r == 0)%Q.
Proof.
  intros Hex Hmatch H. unfold Scorer.scoreFile in H.
  bind_inv H f Hf. cbv zeta in H.
  bind_inv H s1 H1. bind_inv H s2 H2. bind_inv H s3 H3.
  rewrite Hex in H3. bind_inv H3 m Hm.
  rewrite Hmatch in Hm. inversion Hm; subst m.
  inversion H3; subst s3. inversion H; subst r.
  cbn [Scorer.score]. apply clampQ_zero.
Qed.

(** X13, witness: [index.ts] under the exclude pattern [index]. *)
Lemma excluded_file_scores_zero_witness :
  exists r,
    Fs.outcome
      (Scorer.scoreFile Fixtures.indexFs Fixtures.plainPlatform
         (lit "index.ts") Samples.excludeIndex) = Ok r
    /\ (Scorer.score r == 0)%Q.
Proof.
  eexists. split; [vm_compute; reflexivity|].
  apply (excluded_file_scores_zero Fixtures.indexFs Fixtures.plainPlatform
           (lit "index.ts") Samples.excludeIndex [lit "index"]).
  - reflexivity.
  - vm_compute. reflexivity.
  - vm_compute. reflexivity.
Defined.

(** X14.  An include pattern that the platform refuses as a regular
    expression makes [scoreFiles] fail for every non-empty list of files, when
    it is the first pattern: the error is not caught, and no file is scored. *)
Theorem invalid_include_pattern_rejects (fs : Fs.IFileSystem)
  (pf : Fs.Platform) (filePath : str) (files : list str)
  (criteria : Scorer.ScoringCriteria) (pattern : str) (rest : list str) :
  Scorer.includePatterns criteria = Some (pattern :: rest) ->
  Fs.regexpTestI pf (Glob.scorerRegex pattern) filePath = None ->
  Fs.outcome (Scorer.scoreFiles fs pf (filePath :: files) criteria)
  = Err (InvalidPattern pattern).
Proof.
  intros Hinc Hre. unfold Scorer.scoreFiles.
  rewrite outcome_bind. cbn [Scorer.scoreAll]. rewrite outcome_bind.
  assert (Fs.outcome (Scorer.scoreFile fs pf filePath criteria)
          = Err (InvalidPattern pattern)) as ->; [|reflexivity].
  unfold Scorer.scoreFile. rewrite outcome_bind.
  destruct (calculateRelevance_ok fs pf filePath (Scorer.contextPath criteria))
    as [f ->].
  cbv zeta. rewrite outcome_bind.
  match goal with
  | |- match Fs.outcome ?m with _ => _ end = _ =>
      assert (exists s, Fs.outcome m = Ok s) as [s ->]
  end.
  { destruct (Scorer.query criteria) as [q|]; [|apply ret_ok_ex].
    destruct (Str.truthy q); [|apply ret_ok_ex].
    apply bind_ok_ex; [apply calculateQueryRelevance_ok|].
    intros z. apply ret_ok_ex. }
  rewrite outcome_bind, Hinc, outcome_bind. cbn [Scorer.someM].
  rewrite outcome_bind. unfold Scorer.matchesPattern.
  rewrite outcome_liftOpt, Hre. reflexivity.
Qed.

(** X14, witness: the pattern of one opening bracket. *)
Lemma invalid_include_pattern_rejects_witness :
  Fs.outcome
    (Scorer.scoreFiles Fixtures.indexFs Samples.strictPlatform
       [lit "index.ts"] Samples.includeBracket)
  = Err (InvalidPattern (lit "[")).
Proof.
  apply (invalid_include_pattern_rejects Fixtures.indexFs
           Samples.strictPlatform (lit "index.ts") []
           Samples.includeBracket (lit "[") []).
  - reflexivity.
  - vm_compute. reflexivity.
Defined.

(** X15.  Query words of one or two characters are ignored: for a query
    made of such words only, the query relevance of every file is 0, whether
    the file can be read or not. *)
Theorem short_query_words_are_ignored (fs : Fs.IFileSystem) (pf : Fs.Platform)
  (filePath q : str) :
  Forall (fun w => Str.len w <= 2) (Str.words (Str.toLowerCase q)) ->
  Fs.outcome (Scorer.calculateQueryRelevance fs pf filePath q) = Ok 0.
Proof.
  intros Hshort. unfold Scorer.calculateQueryRelevance. cbv zeta.
  rewrite (filter_none (fun term => Str.len term >? 2)
             (Str.words (Str.toLowerCase q))).
  - cbn [fold_left]. unfold Scorer.statsOf, Scorer.contentOf.
    destruct (Fs.getStats fs filePath) as [stats|];
      cbv [Fs.bind Fs.tryCatch Fs.access Fs.ret Fs.outcome snd];
      [|reflexivity].
    destruct (Fs.size stats <? 100 * 1024); [|reflexivity].
    destruct (Fs.readFile fs filePath); reflexivity.
  - eapply Forall_impl; [|exact Hshort].
    intros w Hw. cbv beta in *.
    destruct (Str.len w >? 2) eqn:E; [|reflexivity].
    apply Z.gtb_lt in E. lia.
Qed.

(** X15, witness: the query [go ui]. *)
Lemma short_query_words_are_ignored_witness :
  Fs.outcome
    (Scorer.calculateQueryRelevance Fixtures.indexFs Fixtures.plainPlatform
       (lit "index.ts") (lit "go ui")) = Ok 0.
Proof.
  apply (short_query_words_are_ignored Fixtures.indexFs Fixtures.plainPlatform
           (lit "index.ts") (lit "go ui")).
  repeat constructor; vm_compute; discriminate.
Defined.

(* ================================================================== *)
(** * Further properties of the focused strategy *)
(* ================================================================== *)

(** X16.  The focused strategy ranks its candidates by the score after the
    boost: the list that [scoreFilesByFocus] returns, which is the order of
    loading, is in descending order of the boosted score. *)
Theorem focused_candidates_are_ranked (pf : Fs.Platform)
  (scoreFiles : list str -> Scorer.ScoringCriteria
                -> Fs.M (list Scorer.FileRelevance))
  (files : list str) (rootPath : str) (options : Loading.LoadingOptions)
  (result : list Scorer.FileRelevance) :
  Fs.outcome (Focused.scoreFilesByFocus pf scoreFiles files rootPath options)
  = Ok result ->
  Props.byScoreDescending result.
Proof.
  intros H. unfold Focused.scoreFilesByFocus in H.
  bind_inv H scored Hscored. bind_inv H boosted Hboosted.
  inversion H; subst result.
  apply StronglySorted_filter, sortByScore_sorted.
Qed.

(** X16, witness: a note and a source file under the pattern [index]. *)
Lemma focused_candidates_are_ranked_witness :
  exists result,
    Fs.outcome
      (Focused.scoreFilesByFocus Fixtures.plainPlatform
         (Scorer.scoreFiles Fixtures.mixedFs Fixtures.plainPlatform)
         Fixtures.mixedPaths (lit "/p") Fixtures.indexPattern) = Ok result
    /\ Props.byScoreDescending result.
Proof.
  eexists. split; [vm_compute; reflexivity|].
  eapply (focused_candidates_are_ranked Fixtures.plainPlatform
            (Scorer.scoreFiles Fixtures.mixedFs Fixtures.plainPlatform)
            Fixtures.mixedPaths (lit "/p") Fixtures.indexPattern).
  vm_compute. reflexivity.
Defined.

Section RelevanceRecordFacts.
Import Str Fs Loading.

Variable fs : IFileSystem.
Variable pf : Platform.

Lemma keys_set {V W : Type} (k : str) (v : V) (w : W) (m : list (str * V)) :
  forall m' : list (str * W),
    map fst m = map fst m' ->
    map fst (JsMap.set k v m) = map fst (JsMap.set k w m').
Proof.
  induction m as [|[k1 v1] m IH]; intros [|[k2 w2] m'] H;
    try discriminate H; [reflexivity|].
  cbn [map fst] in H. injection H as <- H.
  cbn [JsMap.set]. destruct (Str.eqb k k1); cbn [map fst].
  - now rewrite H.
  - now rewrite (IH m' H).
Qed.

Lemma set_length {V : Type} (k : str) (v : V) (m : list (str * V)) :
  (List.length (JsMap.set k v m) <= S (List.length m))%nat.
Proof.
  induction m as [|[k1 v1] m IH]; cbn [JsMap.set List.length]; [lia|].
  destruct (Str.eqb k k1); cbn [List.length]; lia.
Qed.

Lemma relevanceKeys_set (p : str) (q : Q) (r : str)
  (md : list (str * MetaValue)) (c : str) (files : list (str * str)) :
  Props.relevanceKeys md = map fst files ->
  Props.relevanceKeys (Focused.setRelevance p q r md)
  = map fst (JsMap.set p c files).
Proof.
  intros H. unfold Props.relevanceKeys, Focused.setRelevance in *.
  rewrite get_set_same. apply keys_set.
  destruct (JsMap.get (lit "relevance") md) as [mv|]; [destruct mv|];
    exact H.
Qed.

Lemma focused_loadLoop_keys (rootPath : str) (maxTok : Z)
  (scored : list Scorer.FileRelevance) :
  forall st st',
    outcome (Focused.loadLoop fs pf rootPath maxTok scored st) = Ok st' ->
    Props.relevanceKeys (Focused.ld_metadata st)
    = map fst (Focused.ld_files st) ->
    Props.relevanceKeys (Focused.ld_metadata st')
    = map fst (Focused.ld_files st')
    /\ (List.length (Focused.ld_files st')
        <= List.length (Focused.ld_files st) + List.length scored)%nat.
Proof.
  induction scored as [|f rest IH]; intros st st' H Hst;
    cbn [Focused.loadLoop] in H.
  - inversion H; subst. split; [exact Hst | lia].
  - destruct (Focused.ld_total st >=? maxTok).
    + inversion H; subst. split; [exact Hst | lia].
    + bind_inv H st1 H1.
      assert (Props.relevanceKeys (Focused.ld_metadata st1)
              = map fst (Focused.ld_files st1)
              /\ (List.length (Focused.ld_files st1)
                  <= S (List.length (Focused.ld_files st)))%nat) as [Hk Hl].
      { unfold Focused.loadOne in H1.
        apply tryCatch_ret_inv in H1.
        destruct H1 as [H1 | ->]; [|split; [exact Hst | lia]].
        bind_inv H1 content Hc.
        destruct (Focused.ld_total st + estimateTokens content <=? maxTok);
          inversion H1; subst; cbn [Focused.ld_metadata Focused.ld_files];
          [|split; [exact Hst | lia]].
        split; [now apply relevanceKeys_set | apply set_length]. }
      destruct (IH _ _ H Hk) as [Hk' Hl'].
      split; [exact Hk'|]. cbn [List.length]. lia.
Qed.

End RelevanceRecordFacts.

(** X17.  In the context that the focused strategy returns, the paths with
    a relevance record are exactly the paths of the loaded files, in the same
    order: every loaded file has its record, and a candidate that was passed
    over has none. *)
Theorem relevance_records_match_files (fs : Fs.IFileSystem) (pf : Fs.Platform)
  (scoreFiles : list str -> Scorer.ScoringCriteria
                -> Fs.M (list Scorer.FileRelevance))
  (rootPath : str) (options : Loading.LoadingOptions)
  (ctx : Loading.LoadedContext) :
  Fs.outcome (Focused.loadContext fs pf scoreFiles rootPath options) = Ok ctx ->
  Props.relevanceKeys (Loading.metadata ctx) = map fst (Loading.files ctx).
Proof.
  intros H. unfold Focused.loadContext in H.
  destruct (Focused.lacksFocus options); [discriminate|]. cbv zeta in H.
  bind_inv H allFiles Hall. bind_inv H scored Hscored. bind_inv H st Hloop.
  inversion H; subst ctx. cbn [Loading.metadata Loading.files].
  destruct (focused_loadLoop_keys fs pf _ _ _ _ _ Hloop eq_refl) as [Hk _].
  unfold Props.relevanceKeys in *.
  rewrite get_set_other by reflexivity. exact Hk.
Qed.

(** X17, witness: the run on the project with one source file. *)
Lemma relevance_records_match_files_witness :
  exists ctx,
    Fs.outcome
      (Focused.loadContext Fixtures.indexFs Fixtures.plainPlatform
         (Scorer.scoreFiles Fixtures.indexFs Fixtures.plainPlatform)
         (lit "/p") Fixtures.indexPattern) = Ok ctx
    /\ Props.relevanceKeys (Loading.metadata ctx) = map fst (Loading.files ctx)
    /\ map fst (Loading.files ctx) = [lit "index.ts"].
Proof.
  eexists. split; [vm_compute; reflexivity|]. split.
  - eapply (relevance_records_match_files Fixtures.indexFs
              Fixtures.plainPlatform
              (Scorer.scoreFiles Fixtures.indexFs Fixtures.plainPlatform)
              (lit "/p") Fixtures.indexPattern).
    vm_compute. reflexivity.
  - reflexivity.
Defined.



(* ================================================================== *)
(** * Further properties of the breadth-first strategy *)
(* ================================================================== *)

Section BreadthFirstMore.
Import Str Fs Loading.

Variable fs : IFileSystem.
Variable pf : Platform.

Lemma lowerChar_dot (c : ascii) : lowerChar c = "."%char -> c = "."%char.
Proof.
  destruct c as [[] [] [] [] [] [] [] []]; intros H;
    first [reflexivity | discriminate H].
Qed.

Lemma last_in {A : Type} (l : list A) (d : A) :
  l <> [] -> In (last l d) l.
Proof.
  intros Hne. rewrite (app_removelast_last d Hne) at 2.
  apply in_or_app. right. now left.
Qed.

(** The part after the last dot holds no dot. *)
Lemma lastDotPart_no_dot (base : str) :
  ~ In "."%char (BreadthFirst.lastDotPart base).
Proof.
  unfold BreadthFirst.lastDotPart, toLowerCase. intros H.
  apply in_map_iff in H. destruct H as (c & Hc & Hin).
  apply lowerChar_dot in Hc. subst c.
  pose proof (split_free "."%char base) as Hfree.
  pose proof (last_in (split "."%char base) [] (split_nonempty _ _)) as E.
  rewrite Forall_forall in Hfree. exact (Hfree _ E Hin).
Qed.

End BreadthFirstMore.

(** X19.  Without include patterns the breadth-first strategy includes a
    file only by the part after the last dot of its name, in lower case, which
    must be one of thirteen extensions.  A [fileTypes] list can narrow this
    set but not widen it, the listed [.env.example] can never match, and a
    name without a dot counts as its own extension. *)
Theorem default_inclusion_is_by_extension (fs : Fs.IFileSystem)
  (pf : Fs.Platform) (filename : str) (options : Loading.LoadingOptions) :
  Loading.includePatterns options = None ->
  BreadthFirst.shouldIncludeFile fs pf filename options = Some true ->
  exists e,
    In e Props.loadableExtensions
    /\ BreadthFirst.lastDotPart (Fs.basename fs filename) = lit e.
Proof.
  intros Hinc H. unfold BreadthFirst.shouldIncludeFile in H. cbv zeta in H.
  pose proof (lastDotPart_no_dot (Fs.basename fs filename)) as Hdot.
  set (ext := BreadthFirst.lastDotPart (Fs.basename fs filename)) in *.
  rewrite Hinc in H.
  assert (Loading.anyStr BreadthFirst.commonExtensions
            (Str.eqb ("."%char :: ext)) = true) as Hany.
  { destruct (match Loading.fileTypes options with
              | Some (t :: ts) => _
              | _ => false
              end); [discriminate H|].
    injection H as H. apply andb_true_iff in H. now destruct H. }
  clear H. unfold Loading.anyStr, BreadthFirst.commonExtensions in Hany.
  cbn [existsb] in Hany.
  repeat (apply orb_true_iff in Hany;
          destruct Hany as [Hany | Hany];
          [apply str_eqb_eq in Hany;
           cbn [lit list_ascii_of_string] in Hany; injection Hany as Hany;
           try (rewrite Hany in Hdot; exfalso; apply Hdot; cbn; tauto);
           match type of Hany with
           | _ = ?l =>
               exists (string_of_list_ascii l);
               split; [cbn; tauto | exact Hany]
           end|]).
  discriminate Hany.
Qed.

(** X19, witness: a file named [json], without a dot. *)
Lemma default_inclusion_is_by_extension_witness :
  BreadthFirst.shouldIncludeFile Fixtures.indexFs Fixtures.plainPlatform
    (lit "json") Fixtures.noOptions = Some true
  /\ exists e,
       In e Props.loadableExtensions
       /\ BreadthFirst.lastDotPart (Fs.basename Fixtures.indexFs (lit "json"))
          = lit e.
Proof.
  split; [reflexivity|].
  apply (default_inclusion_is_by_extension Fixtures.indexFs
           Fixtures.plainPlatform (lit "json") Fixtures.noOptions);
    reflexivity.
Defined.

Section LevelFacts.
Import Str Fs Loading.

Variable fs : IFileSystem.
Variable pf : Platform.

Lemma levelTokensSum_app (a b : list LevelStat) :
  Props.levelTokensSum (a ++ b)
  = Props.levelTokensSum a + Props.levelTokensSum b.
Proof.
  unfold Props.levelTokensSum.
  induction a as [|s a IH]; cbn [app fold_right]; [reflexivity|].
  rewrite IH. lia.
Qed.

Lemma levelsLoop_stats (rootPath : str) (maxTok : Z) (options : LoadingOptions)
  (levels : nat) :
  forall lvl st st',
    outcome (BreadthFirst.levelsLoop fs pf rootPath maxTok options levels lvl st)
    = Ok st' ->
    Props.levelTokensSum (BreadthFirst.lv_stats st)
    = l_tokens (BreadthFirst.lv_loaded st) ->
    Forall (fun s => 0 < levelFiles s /\ 0 <= level s < Z.of_nat lvl)
      (BreadthFirst.lv_stats st) ->
    StronglySorted (fun a b => level a < level b) (BreadthFirst.lv_stats st) ->
    Props.levelTokensSum (BreadthFirst.lv_stats st')
    = l_tokens (BreadthFirst.lv_loaded st')
    /\ Forall (fun s => 0 < levelFiles s
                        /\ 0 <= level s < Z.of_nat (lvl + levels))
         (BreadthFirst.lv_stats st')
    /\ StronglySorted (fun a b => level a < level b)
         (BreadthFirst.lv_stats st').
Proof.
  induction levels as [|levels IH]; intros lvl st st' H Hsum Hall Hsorted;
    cbn [BreadthFirst.levelsLoop] in H.
  - inversion H; subst. rewrite Nat.add_0_r. now repeat split.
  - destruct (l_tokens (BreadthFirst.lv_loaded st) <? maxTok).
    + bind_inv H loadedFiles Hlevel. cbv zeta in H.
      apply IH in H; cbn [BreadthFirst.lv_stats BreadthFirst.lv_loaded].
      * destruct H as (H1 & H2 & H3). split; [exact H1|]. split; [|exact H3].
        eapply Forall_impl; [|exact H2]. intros s Hs. cbv beta in *. lia.
      * rewrite mergeLoaded_tokens.
        destruct (0 <? Z.of_nat (List.length loadedFiles)) eqn:E.
        -- rewrite levelTokensSum_app.
           cbn [Props.levelTokensSum fold_right levelTokens]. lia.
        -- destruct loadedFiles; [cbn; lia | discriminate E].
      * destruct (0 <? Z.of_nat (List.length loadedFiles)) eqn:E.
        -- apply Forall_app. split.
           ++ eapply Forall_impl; [|exact Hall]. intros s Hs.
              cbv beta in *. lia.
           ++ constructor; [|constructor]. cbn [levelFiles level].
              apply Z.ltb_lt in E. lia.
        -- eapply Forall_impl; [|exact Hall]. intros s Hs. cbv beta in *. lia.
      * destruct (0 <? Z.of_nat (List.length loadedFiles)); [|exact Hsorted].
        clear -Hall Hsorted.
        induction Hsorted as [|s l Hl IHl Hs]; cbn [app].
        -- constructor; [constructor | constructor].
        -- inversion Hall; subst. constructor; [now apply IHl|].
           apply Forall_app. split; [exact Hs|].
           constructor; [|constructor]. cbn [level]. lia.
    + inversion H; subst. split; [exact Hsum|]. split; [|exact Hsorted].
      eapply Forall_impl; [|exact Hall]. intros s Hs. cbv beta in *. lia.
Qed.

End LevelFacts.

(** X20.  The level statistics of a breadth-first run account for every
    token: the tokens of the recorded levels add up to [totalTokens].  Only
    levels that loaded a file are recorded, in ascending order of level. *)
Theorem level_stats_account_for_tokens (fs : Fs.IFileSystem) (pf : Fs.Platform)
  (rootPath : str) (options : Loading.LoadingOptions)
  (ctx : Loading.LoadedContext) :
  Fs.outcome (BreadthFirst.loadContext fs pf rootPath options) = Ok ctx ->
  exists stats,
    Props.levelStatsOf (Loading.metadata ctx) = Some stats
    /\ Props.levelTokensSum stats = Loading.totalTokens ctx
    /\ Forall (fun s => 0 < Loading.levelFiles s /\ 0 <= Loading.level s) stats
    /\ StronglySorted (fun a b => Loading.level a < Loading.level b) stats.
Proof.
  intros H. unfold BreadthFirst.loadContext in H. cbv zeta in H.
  bind_inv H st Hloop. bind_inv H structure Hstruct.
  inversion H; subst ctx. cbn [Loading.metadata Loading.totalTokens].
  exists (BreadthFirst.lv_stats st). split; [reflexivity|].
  destruct (levelsLoop_stats fs pf _ _ _ _ _ _ _ Hloop) as (H1 & H2 & H3).
  - reflexivity.
  - constructor.
  - constructor.
  - split; [exact H1|]. split; [|exact H3].
    eapply Forall_impl; [|exact H2]. intros s Hs. cbv beta in *. lia.
Qed.

(** X20, witness: the run on the project that holds one README. *)
Lemma level_stats_account_for_tokens_witness :
  exists ctx stats,
    Fs.outcome
      (BreadthFirst.loadContext Fixtures.readmeFs Fixtures.plainPlatform
         (lit "/p") Fixtures.noOptions) = Ok ctx
    /\ Props.levelStatsOf (Loading.metadata ctx) = Some stats
    /\ Props.levelTokensSum stats = Loading.totalTokens ctx
    /\ Loading.totalTokens ctx = 1.
Proof.
  eexists.
  destruct (level_stats_account_for_tokens Fixtures.readmeFs
              Fixtures.plainPlatform (lit "/p") Fixtures.noOptions _ eq_refl)
    as (stats & Hs & Hsum & _).
  exists stats. split; [reflexivity|]. split; [exact Hs|].
  split; [exact Hsum | reflexivity].
Defined.

(* ================================================================== *)
(** * Further properties of the progressive strategy *)
(* ================================================================== *)

(** X21.  When the project analyzer fails, the progressive strategy fails
    with the analyzer's error, and it has made no access to the file system
    beyond the analyzer's. *)
Theorem analyzer_failure_stops_loading (fs : Fs.IFileSystem)
  (scoreFiles : list str -> Scorer.ScoringCriteria
                -> Fs.M (list Scorer.FileRelevance))
  (analyzeProject : str -> Fs.M Loading.ProjectInfo)
  (engineSort : (str -> str -> Z) -> list str -> list str)
  (rootPath : str) (options : Loading.LoadingOptions) (e : error) :
  Fs.outcome (analyzeProject rootPath) = Err e ->
  Progressive.loadContext fs scoreFiles analyzeProject engineSort rootPath
    options
  = (Fs.trace (analyzeProject rootPath), Err e).
Proof.
  intros H. unfold Progressive.loadContext. cbv zeta.
  destruct (analyzeProject rootPath) as [t r]. cbn in H. subst r.
  reflexivity.
Qed.

(** X21, witness: an analyzer that fails at once. *)
Lemma analyzer_failure_stops_loading_witness :
  Progressive.loadContext Fixtures.readmeFs
    (Scorer.scoreFiles Fixtures.readmeFs Fixtures.plainPlatform)
    Samples.failingAnalyzer Fixtures.stableSort (lit "/p") Fixtures.noOptions
  = ([], Err (IOFailure (lit "/p"))).
Proof.
  apply (analyzer_failure_stops_loading Fixtures.readmeFs
           (Scorer.scoreFiles Fixtures.readmeFs Fixtures.plainPlatform)
           Samples.failingAnalyzer Fixtures.stableSort (lit "/p")
           Fixtures.noOptions (IOFailure (lit "/p"))).
  reflexivity.
Defined.


(* ================================================================== *)
(** * Properties of the aggregator and the analyzer *)
(* ================================================================== *)

(** X23.  The aggregator knows the three strategies by their names, in the
    order progressive, focused, breadth-first, and dispatches to them.  A name
    that is none of the three fails with the error [Unknown loading
    strategy: <name>] before any access to the file system.  After
    [registerStrategy], the registered name resolves to the new strategy. *)
Theorem strategies_resolve_by_name (w : Wiring) (rootPath : str)
  (options : Loading.LoadingOptions) :
  Aggregator.getStrategies (Aggregator.initialStrategies w)
  = [lit "progressive"; lit "focused"; lit "breadth-first"]
  /\ Aggregator.loadContext (Aggregator.initialStrategies w) rootPath
       (lit "progressive") options
     = loadContext w ProgressiveStrategy rootPath options
  /\ Aggregator.loadContext (Aggregator.initialStrategies w) rootPath
       (lit "focused") options
     = loadContext w FocusedStrategy rootPath options
  /\ Aggregator.loadContext (Aggregator.initialStrategies w) rootPath
       (lit "breadth-first") options
     = loadContext w BreadthFirstStrategy rootPath options
  /\ (forall name,
        name <> lit "progressive" -> name <> lit "focused" ->
        name <> lit "breadth-first" ->
        Aggregator.loadContext (Aggregator.initialStrategies w) rootPath name
          options
        = ([], Err (ConfigurationError
                      (lit "Unknown loading strategy: " ++ name))))
  /\ (forall strategies name strategy,
        Aggregator.loadContext
          (Aggregator.registerStrategy name strategy strategies) rootPath name
          options
        = strategy rootPath options).
Proof.
  split; [reflexivity|]. split; [reflexivity|]. split; [reflexivity|].
  split; [reflexivity|]. split.
  - intros name H1 H2 H3. unfold Aggregator.loadContext.
    assert (forall k, name <> k -> Str.eqb name k = false) as Hne.
    { intros k Hk. destruct (Str.eqb name k) eqn:E; [|reflexivity].
      apply str_eqb_eq in E. contradiction. }
    unfold Aggregator.initialStrategies.
    rewrite !get_set_other by (apply Hne; assumption).
    reflexivity.
  - intros strategies name strategy. unfold Aggregator.loadContext,
      Aggregator.registerStrategy.
    now rewrite get_set_same.
Qed.

Section ParseFacts.
Import Str.

Lemma headerAt_without_marker (s : str) :
  startsWith Aggregator.fileMarker s = false -> Aggregator.headerAt s = None.
Proof.
  intros H. unfold Aggregator.headerAt. now rewrite H.
Qed.

Lemma parseFrom_without_marker (fuel : nat) :
  forall s files,
    includes Aggregator.fileMarker s = false ->
    Aggregator.parseFrom fuel s files = files.
Proof.
  induction fuel as [|fuel IH]; intros s files H; [reflexivity|].
  destruct s as [|c s]; [reflexivity|].
  cbn [Aggregator.parseFrom]. cbn [includes] in H.
  apply orb_false_iff in H. destruct H as [Hs Hi].
  rewrite (headerAt_without_marker _ Hs). now apply IH.
Qed.

End ParseFacts.

(** X24.  [parseOptimizedContent] never returns an empty map: an optimized
    text without the marker [// File: ] comes back as the one file
    [optimized-content], untrimmed.  So the context that [optimizeContext]
    returns always has a file. *)
Theorem parsed_files_are_never_empty (content : str) :
  Aggregator.parseOptimizedContent content <> []
  /\ (Str.includes Aggregator.fileMarker content = false ->
      Aggregator.parseOptimizedContent content
      = [(lit "optimized-content", content)])
  /\ (forall optimizer context strategy maxTokens,
        Aggregator.c_files
          (Aggregator.optimizeContext optimizer context strategy maxTokens)
        <> []).
Proof.
  assert (forall c, Aggregator.parseOptimizedContent c <> []) as Hne.
  { intros c. unfold Aggregator.parseOptimizedContent.
    destruct (Aggregator.parseFrom _ c []); discriminate. }
  split; [apply Hne|]. split.
  - intros H. unfold Aggregator.parseOptimizedContent.
    now rewrite parseFrom_without_marker.
  - intros optimizer context strategy maxTokens.
    destruct context. cbn [Aggregator.optimizeContext Aggregator.c_files].
    apply Hne.
Qed.

(** X25.  [detectBuildTool] asks for the nine build files in a fixed order
    and answers with the tool of the first that exists: when the files
    before one are reported absent and this one exists, the answer is its
    tool, after one question for each file up to it; when the question for
    it fails instead, the failure is not caught.  An existing
    [webpack.config.js] so wins over everything else after a single
    question; the answer is always one of the eight tools; it is [null],
    after nine questions, exactly when every file is reported absent. *)
Theorem build_tool_is_the_first_match (fs : Fs.IFileSystem)
  (projectPath : str) :
  let at_ name := Fs.join fs projectPath (lit name) in
  (Fs.exists_ fs (at_ "webpack.config.js"%string) = Some true ->
   Analyzer.detectBuildTool fs projectPath
   = ([Fs.OpExists (at_ "webpack.config.js"%string)],
      Ok (Some (lit "webpack"))))
  /\ (Fs.exists_ fs (at_ "webpack.config.js"%string) = None ->
      Analyzer.detectBuildTool fs projectPath
      = ([Fs.OpExists (at_ "webpack.config.js"%string)],
         Err (IOFailure (at_ "webpack.config.js"%string))))
  /\ (forall tool,
        Fs.outcome (Analyzer.detectBuildTool fs projectPath) = Ok (Some tool) ->
        exists t, In t Props.buildTools /\ tool = lit t)
  /\ ((forall name, In name Props.buildFiles ->
                    Fs.exists_ fs (at_ name) = Some false) ->
      Analyzer.detectBuildTool fs projectPath
      = (map (fun name => Fs.OpExists (at_ name)) Props.buildFiles, Ok None))
  /\ (Fs.outcome (Analyzer.detectBuildTool fs projectPath) = Ok None ->
      forall name, In name Props.buildFiles ->
                   Fs.exists_ fs (at_ name) = Some false)
  /\ map fst Props.buildChecks = Props.buildFiles
  /\ (forall before file tool after,
        Props.buildChecks = before ++ (file, tool) :: after ->
        (forall name, In name (map fst before) ->
                      Fs.exists_ fs (at_ name) = Some false) ->
        (Fs.exists_ fs (at_ file) = Some true ->
         Analyzer.detectBuildTool fs projectPath
         = (map (fun name => Fs.OpExists (at_ name))
              (map fst before ++ [file]),
            Ok (Some (lit tool))))
        /\ (Fs.exists_ fs (at_ file) = None ->
            Analyzer.detectBuildTool fs projectPath
            = (map (fun name => Fs.OpExists (at_ name))
                 (map fst before ++ [file]),
               Err (IOFailure (at_ file))))).
Proof.
  cbv zeta. unfold Analyzer.detectBuildTool, Analyzer.orElse,
    Analyzer.existsIn.
  cbv [Fs.bind Fs.access Fs.ret Fs.outcome snd].
  split; [intros ->; reflexivity|].
  split; [intros ->; reflexivity|].
  split; [|split; [|split; [|split; [reflexivity|]]]].
  - intros tool H.
    repeat match type of H with
           | context [Fs.exists_ fs ?p] =>
               destruct (Fs.exists_ fs p) as [[|]|];
               cbn [app] in H;
               try discriminate H;
               try (injection H as <-;
                    first [ exists "webpack"%string; split; [cbn; tauto | reflexivity]
                          | exists "rollup"%string; split; [cbn; tauto | reflexivity]
                          | exists "vite"%string; split; [cbn; tauto | reflexivity]
                          | exists "esbuild"%string; split; [cbn; tauto | reflexivity]
                          | exists "parcel"%string; split; [cbn; tauto | reflexivity]
                          | exists "make"%string; split; [cbn; tauto | reflexivity]
                          | exists "gradle"%string; split; [cbn; tauto | reflexivity]
                          | exists "maven"%string; split; [cbn; tauto | reflexivity] ])
           end.
  - intros Hall.
    rewrite !Hall by (cbn; tauto). reflexivity.
  - intros H name Hin.
    repeat match type of H with
           | context [Fs.exists_ fs ?p] =>
               let E := fresh "E" in
               destruct (Fs.exists_ fs p) as [[|]|] eqn:E;
               cbn [app] in H;
               try discriminate H
           end.
    cbn [Props.buildFiles In] in Hin.
    repeat (destruct Hin as [<- | Hin]; [assumption|]).
    contradiction.
  - intros before file tool after E Habsent.
    unfold Props.buildChecks in E.
    do 9 (destruct before as [|[file' tool'] before];
          [ cbn [app] in E; injection E as <- <- <-;
            cbn [map fst app In] in *;
            repeat match goal with
                   | |- context [Fs.exists_ fs
                                   (Fs.join fs projectPath (lit ?n))] =>
                       rewrite (Habsent n) by tauto
                   end;
            split; intros ->; reflexivity
          | cbn [app] in E; injection E as <- <- E ]).
    destruct before; discriminate E.
Qed.

Section RoundTripFacts.
Import Str Optimizer.

Lemma startsWith_self (p x : str) : startsWith p (p ++ x) = true.
Proof.
  induction p as [|c p IH]; [reflexivity|].
  cbn [app startsWith]. now rewrite Ascii.eqb_refl, IH.
Qed.

Lemma skipn_self {A : Type} (p x : list A) : skipn (List.length p) (p ++ x) = x.
Proof.
  induction p as [|c p IH]; [reflexivity | exact IH].
Qed.

Lemma takeWhile_until (f : ascii -> bool) (p x : str) (d : ascii) :
  forallb f p = true -> f d = false -> takeWhile f (p ++ d :: x) = p.
Proof.
  intros Hp Hd. induction p as [|c p IH]; cbn [app takeWhile forallb] in *.
  - now rewrite Hd.
  - apply andb_true_iff in Hp. destruct Hp as [-> Hp]. now rewrite IH.
Qed.

(** An occurrence that starts before a character which the pattern does not
    hold ends before it. *)
Lemma startsWith_before (c : ascii) (d : str) :
  ~ In c d ->
  forall u z, startsWith d (u ++ c :: z) = true -> startsWith d u = true.
Proof.
  intros Hc. induction d as [|x d IH]; intros u z H; [reflexivity|].
  destruct u as [|y u]; cbn [app startsWith] in *.
  - apply andb_true_iff in H. destruct H as [H _].
    apply Ascii.eqb_eq in H. subst x. exfalso. apply Hc. now left.
  - apply andb_true_iff in H. destruct H as [-> H]. cbn [andb].
    apply (IH (fun Hin => Hc (or_intror Hin)) u z H).
Qed.

Lemma breakOn_none (d s : str) : includes d s = false -> breakOn d s = None.
Proof.
  induction s as [|c s IH]; cbn [includes breakOn]; intros H.
  - rewrite orb_false_r in H. now rewrite H.
  - apply orb_false_iff in H. destruct H as [-> H]. now rewrite IH.
Qed.

Lemma breakOn_unfold (d s : str) :
  breakOn d s
  = if startsWith d s then Some ([], skipn (List.length d) s)
    else match s with
         | [] => None
         | c :: s' =>
             match breakOn d s' with
             | Some (pre, post) => Some (c :: pre, post)
             | None => None
             end
         end.
Proof.
  destruct s; reflexivity.
Qed.

(** The first marker after a text that holds none, two newlines apart. *)
Lemma breakOn_after (d a y : str) :
  ~ In nl d -> d <> [] -> includes d a = false ->
  breakOn d (a ++ [nl; nl] ++ d ++ y) = Some (a ++ [nl; nl], y).
Proof.
  intros Hnl Hne.
  assert (forall z, startsWith d (nl :: z) = false) as Hhd.
  { intros z. destruct d as [|x d]; [contradiction|]. cbn [startsWith].
    assert (Ascii.eqb x nl = false) as ->; [|reflexivity].
    apply Ascii.eqb_neq. intros ->. apply Hnl. now left. }
  induction a as [|c a IH]; intros Ha.
  - cbn [app].
    rewrite (breakOn_unfold d (nl :: _)), Hhd.
    rewrite (breakOn_unfold d (nl :: _)), Hhd.
    rewrite (breakOn_unfold d (d ++ y)), startsWith_self, skipn_self.
    reflexivity.
  - cbn [includes] in Ha. apply orb_false_iff in Ha. destruct Ha as [Hs Ha].
    change ((c :: a) ++ [nl; nl] ++ d ++ y)
      with (c :: (a ++ [nl; nl] ++ d ++ y)).
    rewrite (breakOn_unfold d (c :: _)).
    assert (startsWith d (c :: a ++ [nl; nl] ++ d ++ y) = false) as ->.
    { destruct (startsWith d (c :: a ++ [nl; nl] ++ d ++ y)) eqn:E;
        [|reflexivity].
      change (c :: a ++ [nl; nl] ++ d ++ y)
        with ((c :: a) ++ nl :: (nl :: d ++ y)) in E.
      apply (startsWith_before nl d Hnl) in E. congruence. }
    now rewrite (IH Ha).
Qed.

Lemma trim_nil : trim [] = [].
Proof. reflexivity. Qed.

(** Two newlines after a trimmed text are trimmed away. *)
Lemma trim_two_newlines (c : str) : trim c = c -> trim (c ++ [nl; nl]) = c.
Proof.
  intros H. destruct c as [|x c]; [reflexivity|].
  assert (Props.isTrimmed (x :: c) = true) as Ht.
  { rewrite <- H. apply trim_isTrimmed. rewrite H. discriminate. }
  unfold Props.isTrimmed in Ht.
  destruct (rev (x :: c)) as [|y r] eqn:Er; [discriminate|].
  apply andb_true_iff in Ht. destruct Ht as [Hx Hy].
  apply negb_true_iff in Hx. apply negb_true_iff in Hy.
  unfold trim, trimStart, trimEnd. cbn [app dropWhile]. rewrite Hx.
  change (x :: c ++ [nl; nl]) with ((x :: c) ++ [nl; nl]).
  rewrite rev_app_distr, Er. cbn [rev app dropWhile].
  change (isSpace nl) with true. cbn [dropWhile]. rewrite Hy.
  now rewrite <- Er, rev_involutive.
Qed.

Lemma set_fresh {V : Type} (k : str) (v : V) (m : list (str * V)) :
  ~ In k (map fst m) -> JsMap.set k v m = m ++ [(k, v)].
Proof.
  induction m as [|[k1 v1] m IH]; intros H; [reflexivity|].
  cbn [JsMap.set map fst In app] in *.
  destruct (Str.eqb k k1) eqn:E.
  - apply str_eqb_eq in E. subst k1. exfalso. apply H. now left.
  - rewrite IH; [reflexivity|]. intros Hin. apply H. now right.
Qed.

Lemma combineFiles_cons (kv : str * str) (rest : list (str * str)) :
  Aggregator.combineFiles (kv :: rest)
  = Props.entryOf kv
      ++ match rest with
         | [] => []
         | _ => [nl; nl] ++ Aggregator.combineFiles rest
         end.
Proof.
  unfold Aggregator.combineFiles, Props.entryOf. cbn [map].
  destruct rest as [|kv' rest]; cbn [map join]; [now rewrite app_nil_r|].
  reflexivity.
Qed.

Lemma combineFiles_starts (kv : str * str) (rest : list (str * str)) :
  exists y,
    Aggregator.combineFiles (kv :: rest) = Aggregator.fileMarker ++ y.
Proof.
  rewrite combineFiles_cons. unfold Props.entryOf.
  eexists. rewrite <- !app_assoc. reflexivity.
Qed.

Lemma headerAt_entry (p x : str) :
  Props.plainPath p ->
  Aggregator.headerAt (Aggregator.fileMarker ++ p ++ nl :: x) = Some (p, x).
Proof.
  intros (Ht & Hnl & Hcr). unfold Aggregator.headerAt.
  rewrite startsWith_self, skipn_self.
  rewrite (takeWhile_until _ p x nl).
  - destruct p as [|c p]; [discriminate Ht|].
    rewrite (skipn_self (c :: p)). now rewrite Hcr.
  - apply forallb_forall. intros c Hc. apply negb_true_iff.
    apply Ascii.eqb_neq. intros ->. contradiction.
  - reflexivity.
Qed.

Lemma parseFrom_combined (files : list (str * str)) :
  forall fuel acc,
    files <> [] ->
    Forall (fun kv => Props.plainPath (fst kv) /\ Props.plainContent (snd kv))
      files ->
    NoDup (map fst acc ++ map fst files) ->
    (List.length (Aggregator.combineFiles files) <= fuel)%nat ->
    Aggregator.parseFrom fuel (Aggregator.combineFiles files) acc
    = acc ++ files.
Proof.
  induction files as [|[p c] rest IH]; intros fuel acc Hne Hwf Hnd Hfuel;
    [contradiction|].
  inversion Hwf as [|? ? [Hp [Htrim Hmark]] Hrest]; subst.
  cbn [fst snd] in *.
  assert (~ In p (map fst acc)) as Hfresh.
  { cbn [map fst] in Hnd. apply NoDup_remove_2 in Hnd.
    intros Hin. apply Hnd. apply in_or_app. now left. }
  assert (NoDup (map fst (acc ++ [(p, c)]) ++ map fst rest)) as Hnd'.
  { rewrite map_app. cbn [map fst]. now rewrite <- app_assoc. }
  assert (trim p = p) as Hptrim by (apply isTrimmed_trim; apply Hp).
  rewrite combineFiles_cons in *. unfold Props.entryOf in *. cbn [fst snd] in *.
  destruct fuel as [|fuel].
  { rewrite !length_app in Hfuel. cbn in Hfuel. lia. }
  assert (forall x, Aggregator.fileMarker ++ p ++ [nl] ++ c ++ x
                    = Aggregator.fileMarker ++ p ++ nl :: (c ++ x)) as Hshape.
  { intros x. reflexivity. }
  rewrite <- !app_assoc in *. rewrite Hshape in *.
  change (Aggregator.fileMarker ++ p ++ nl :: c ++ ?x)
    with (Aggregator.fileMarker ++ p ++ nl :: (c ++ x)).
  cbn [Aggregator.parseFrom].
  destruct (Aggregator.fileMarker ++ p ++ nl :: c ++ _) as [|h t] eqn:Es.
  { apply (f_equal (@List.length _)) in Es. rewrite length_app in Es.
    cbn in Es. lia. }
  rewrite <- Es. rewrite (headerAt_entry p _ Hp).
  destruct rest as [|kv rest].
  - rewrite app_nil_r. unfold Aggregator.bodyAt.
    rewrite (breakOn_none _ _ Hmark).
    rewrite Hptrim, Htrim, (set_fresh p c acc Hfresh).
    destruct fuel; reflexivity.
  - destruct (combineFiles_starts kv rest) as [y Hy].
    unfold Aggregator.bodyAt.
    rewrite Hy, (breakOn_after Aggregator.fileMarker c y);
      [|cbn; intuition discriminate | discriminate | exact Hmark].
    rewrite <- Hy, Hptrim, (trim_two_newlines c Htrim),
      (set_fresh p c acc Hfresh).
    rewrite (IH fuel (acc ++ [(p, c)])); try assumption.
    + now rewrite <- app_assoc.
    + discriminate.
    + rewrite <- Es in Hfuel.
      rewrite !length_app in Hfuel. cbn [List.length] in Hfuel.
      rewrite !length_app in Hfuel. cbn [List.length] in Hfuel. lia.
Qed.

End RoundTripFacts.

(** X26.  Parsing undoes combining.  For a non-empty map of files whose
    paths are single lines without white space at their ends, and whose
    contents are trimmed and hold no file marker, [parseOptimizedContent]
    gives back, from the text that [optimizeContext] builds of the files,
    exactly these files in their order. *)
Theorem combined_files_parse_back (files : list (str * str)) :
  files <> [] ->
  NoDup (map fst files) ->
  Forall (fun kv => Props.plainPath (fst kv) /\ Props.plainContent (snd kv))
    files ->
  Aggregator.parseOptimizedContent (Aggregator.combineFiles files) = files.
Proof.
  intros Hne Hnd Hwf. unfold Aggregator.parseOptimizedContent.
  rewrite (parseFrom_combined files _ [] Hne Hwf Hnd (Nat.le_refl _)).
  destruct files; [contradiction | reflexivity].
Qed.

(** X26, witness: a source file and a README of three lines. *)
Lemma combined_files_parse_back_witness :
  Aggregator.parseOptimizedContent (Aggregator.combineFiles Samples.twoFiles)
  = Samples.twoFiles.
Proof.
  apply combined_files_parse_back.
  - discriminate.
  - repeat constructor; cbn; intuition discriminate.
  - repeat constructor; try reflexivity; cbn; intuition discriminate.
Defined.

(* ================================================================== *)
(** * Breadth-first loading: what fails and what is passed over *)
(* ================================================================== *)

Section BreadthFirstFailures.
Import Str Fs Loading.

Variable fs : IFileSystem.
Variable pf : Platform.

(** An entry that the inclusion test does not accept, because it says no or
    because it throws, leaves the loaded files as they were. *)
Lemma loadEntry_skips (rootPath dir entry : str) (tokenBudget : Z)
  (options : LoadingOptions) (st : Loaded) :
  BreadthFirst.shouldIncludeFile fs pf entry options <> Some true ->
  outcome (BreadthFirst.loadEntry fs pf rootPath dir entry tokenBudget options st)
  = Ok st.
Proof.
  intros Hinc. unfold BreadthFirst.loadEntry. cbv zeta.
  rewrite outcome_tryCatch, outcome_bind, outcome_access.
  destruct (isFile fs (join fs dir entry)) as [[|]|];
    rewrite ?outcome_ret; try reflexivity.
  rewrite outcome_bind, outcome_liftOpt.
  destruct (BreadthFirst.shouldIncludeFile fs pf entry options) as [[|]|];
    rewrite ?outcome_ret; try reflexivity.
  now contradiction Hinc.
Qed.

Lemma invalid_include_never_accepts (options : LoadingOptions)
  (p : str) (ps : list str) (entry : str) :
  includePatterns options = Some (p :: ps) ->
  (forall text, BreadthFirst.matchesPattern pf text p = None) ->
  BreadthFirst.shouldIncludeFile fs pf entry options <> Some true.
Proof.
  intros Hinc Hbad. unfold BreadthFirst.shouldIncludeFile. cbv zeta.
  rewrite Hinc. cbn [BreadthFirst.anyPattern]. rewrite Hbad.
  destruct (match fileTypes options with
            | Some (t :: ts) => _
            | _ => false
            end); discriminate.
Qed.

Section NothingAccepted.

Variable options : LoadingOptions.
Hypothesis never :
  forall entry, BreadthFirst.shouldIncludeFile fs pf entry options <> Some true.

Lemma entriesLoop_keeps (rootPath dir : str) (tokenBudget : Z)
  (entries : list str) :
  forall st st',
    outcome (BreadthFirst.entriesLoop fs pf rootPath dir tokenBudget options
               entries st) = Ok st' ->
    st' = st.
Proof.
  induction entries as [|entry rest IH]; intros st st' H;
    cbn [BreadthFirst.entriesLoop] in H.
  - now inversion H.
  - destruct (l_tokens st >=? tokenBudget); [now inversion H|].
    bind_inv H ex Hex. destruct ex; [now apply IH|].
    bind_inv H st1 Hst1. rewrite loadEntry_skips in Hst1 by apply never.
    inversion Hst1; subst. now apply IH.
Qed.

Lemma dirsLoop_keeps (rootPath : str) (tokenBudget : Z) (ds : list str) :
  forall st st',
    outcome (BreadthFirst.dirsLoop fs pf rootPath tokenBudget options ds st)
    = Ok st' ->
    st' = st.
Proof.
  induction ds as [|dir rest IH]; intros st st' H;
    cbn [BreadthFirst.dirsLoop] in H.
  - now inversion H.
  - destruct (l_tokens st >=? tokenBudget); [now inversion H|].
    bind_inv H entries Hentries. bind_inv H st1 Hst1.
    apply entriesLoop_keeps in Hst1. subst st1. now apply IH.
Qed.

Lemma loadFilesAtLevel_nothing (rootPath : str) (targetLevel : nat)
  (tokenBudget : Z) (loaded : list (str * str)) :
  outcome (BreadthFirst.loadFilesAtLevel fs pf rootPath targetLevel tokenBudget
             options) = Ok loaded ->
  loaded = [].
Proof.
  unfold BreadthFirst.loadFilesAtLevel. intros H.
  bind_inv H ds Hds. bind_inv H st Hst.
  apply dirsLoop_keeps in Hst. subst st. now inversion H.
Qed.

Lemma levelsLoop_nothing (rootPath : str) (maxTok : Z) (levels : nat) :
  forall lvl st st',
    outcome (BreadthFirst.levelsLoop fs pf rootPath maxTok options levels lvl st)
    = Ok st' ->
    BreadthFirst.lv_loaded st' = BreadthFirst.lv_loaded st.
Proof.
  induction levels as [|levels IH]; intros lvl st st' H;
    cbn [BreadthFirst.levelsLoop] in H.
  - now inversion H.
  - destruct (l_tokens (BreadthFirst.lv_loaded st) <? maxTok);
      [|now inversion H].
    bind_inv H loaded Hloaded. apply loadFilesAtLevel_nothing in Hloaded.
    subst loaded. cbv zeta in H. apply IH in H. exact H.
Qed.

End NothingAccepted.

(** With an exclude pattern that throws, the loop over the entries fails at
    the first entry that is not ignored by its name. *)
Lemma entriesLoop_invalid_exclude (rootPath dir : str) (tokenBudget : Z)
  (options : LoadingOptions) (p : str) (ps : list str) (entries : list str) :
  excludePatterns options = Some (p :: ps) ->
  (forall text, BreadthFirst.matchesPattern pf text p = None) ->
  Exists (fun entry => BreadthFirst.isIgnoredDirectory entry = false) entries ->
  forall st,
    l_tokens st < tokenBudget ->
    outcome (BreadthFirst.entriesLoop fs pf rootPath dir tokenBudget options
               entries st) = Err (InvalidPattern []).
Proof.
  intros Hex Hbad Hsome st Hlt.
  induction entries as [|entry rest IH]; [now inversion Hsome|].
  cbn [BreadthFirst.entriesLoop].
  replace (l_tokens st >=? tokenBudget) with false by (symmetry; lia).
  rewrite outcome_bind, outcome_liftOpt. unfold BreadthFirst.shouldExclude.
  destruct (BreadthFirst.isIgnoredDirectory entry) eqn:Eig.
  - apply IH. inversion Hsome; subst; [congruence | assumption].
  - rewrite Hex. cbn [BreadthFirst.anyPattern]. rewrite Hbad. reflexivity.
Qed.

Lemma bind_ret_l {A B : Type} (a : A) (f : A -> M B) :
  bind (ret a) f = f a.
Proof. unfold bind, ret. destruct (f a). reflexivity. Qed.

End BreadthFirstFailures.

(** X27.  A root directory that cannot be listed makes the breadth-first
    strategy fail with the error of the listing, after this one access to
    the file system, whenever the budget is positive and the depth limit is
    not negative: a missing root is not an empty context. *)
Theorem unlisted_root_fails_the_load (fs : Fs.IFileSystem) (pf : Fs.Platform)
  (rootPath : str) (options : Loading.LoadingOptions) :
  0 < Loading.budgetOf options ->
  0 <= orDefault (Loading.maxDepth options) 5 ->
  Fs.listDirectory fs rootPath = None ->
  BreadthFirst.loadContext fs pf rootPath options
  = ([Fs.OpListDirectory rootPath], Err (IOFailure rootPath)).
Proof.
  intros Hbudget Hdepth Hlist. unfold BreadthFirst.loadContext. cbv zeta.
  destruct (Z.to_nat (orDefault (Loading.maxDepth options) 5 + 1))
    as [|levels] eqn:E; [lia|].
  cbn [BreadthFirst.levelsLoop BreadthFirst.lv_loaded Loading.l_tokens].
  replace (0 <? Loading.budgetOf options) with true by (symmetry; lia).
  unfold BreadthFirst.loadFilesAtLevel, BreadthFirst.getDirectoriesAtLevel.
  rewrite bind_ret_l. cbn [BreadthFirst.dirsLoop Loading.l_tokens].
  replace (0 >=? Loading.budgetOf options - 0) with false by (symmetry; lia).
  rewrite Hlist. reflexivity.
Qed.

(** X27, witness: a root beside the one that the file system holds. *)
Lemma unlisted_root_fails_the_load_witness :
  BreadthFirst.loadContext Fixtures.emptyFs Fixtures.plainPlatform (lit "/q")
    Fixtures.noOptions
  = ([Fs.OpListDirectory (lit "/q")], Err (IOFailure (lit "/q"))).
Proof.
  apply unlisted_root_fails_the_load.
  - reflexivity.
  - discriminate.
  - reflexivity.
Defined.

(** X28.  An exclude pattern that the platform refuses as a regular
    expression makes the breadth-first strategy fail, when it is the first
    pattern and the root lists an entry that is not ignored by its name: the
    exclusion test is made outside the [try] that guards the reading. *)
Theorem invalid_exclude_pattern_fails_the_load (fs : Fs.IFileSystem)
  (pf : Fs.Platform) (rootPath : str) (options : Loading.LoadingOptions)
  (pattern : str) (rest entries : list str) (entry : str) :
  0 < Loading.budgetOf options ->
  0 <= orDefault (Loading.maxDepth options) 5 ->
  Loading.excludePatterns options = Some (pattern :: rest) ->
  (forall text, BreadthFirst.matchesPattern pf text pattern = None) ->
  Fs.listDirectory fs rootPath = Some entries ->
  In entry entries ->
  BreadthFirst.isIgnoredDirectory entry = false ->
  Fs.outcome (BreadthFirst.loadContext fs pf rootPath options)
  = Err (InvalidPattern []).
Proof.
  intros Hbudget Hdepth Hex Hbad Hlist Hin Hig.
  unfold BreadthFirst.loadContext. cbv zeta.
  destruct (Z.to_nat (orDefault (Loading.maxDepth options) 5 + 1))
    as [|levels] eqn:E; [lia|].
  cbn [BreadthFirst.levelsLoop BreadthFirst.lv_loaded Loading.l_tokens].
  replace (0 <? Loading.budgetOf options) with true by (symmetry; lia).
  unfold BreadthFirst.loadFilesAtLevel, BreadthFirst.getDirectoriesAtLevel.
  rewrite bind_ret_l. cbn [BreadthFirst.dirsLoop Loading.l_tokens].
  replace (0 >=? Loading.budgetOf options - 0) with false by (symmetry; lia).
  rewrite !outcome_bind, outcome_access, Hlist, outcome_bind.
  rewrite (entriesLoop_invalid_exclude fs pf rootPath rootPath
             (Loading.budgetOf options - 0) options pattern rest
             (BreadthFirst.sortEntries pf entries) Hex Hbad).
  - reflexivity.
  - apply Exists_exists. exists entry. split; [|exact Hig].
    unfold BreadthFirst.sortEntries.
    eapply Permutation_in; [|exact Hin].
    apply Permutation_sym, sortBy_perm.
  - cbn [Loading.l_tokens]. lia.
Qed.

(** X28, witness: the project with one source file, and the pattern [[]. *)
Lemma invalid_exclude_pattern_fails_the_load_witness :
  Fs.outcome
    (BreadthFirst.loadContext Fixtures.indexFs Samples.strictPlatform
       (lit "/p") Samples.bracketExclude)
  = Err (InvalidPattern []).
Proof.
  apply (invalid_exclude_pattern_fails_the_load Fixtures.indexFs
           Samples.strictPlatform (lit "/p") Samples.bracketExclude
           (lit "[") [] [lit "index.ts"] (lit "index.ts")).
  - reflexivity.
  - discriminate.
  - reflexivity.
  - intros text. reflexivity.
  - reflexivity.
  - left. reflexivity.
  - reflexivity.
Defined.

(** X29.  An include pattern that the platform refuses as a regular
    expression does not make the breadth-first strategy fail: the error is
    swallowed for every file, so a run that returns has loaded no file and
    counts no token. *)
Theorem invalid_include_pattern_loads_nothing (fs : Fs.IFileSystem)
  (pf : Fs.Platform) (rootPath : str) (options : Loading.LoadingOptions)
  (pattern : str) (rest : list str) (ctx : Loading.LoadedContext) :
  Loading.includePatterns options = Some (pattern :: rest) ->
  (forall text, BreadthFirst.matchesPattern pf text pattern = None) ->
  Fs.outcome (BreadthFirst.loadContext fs pf rootPath options) = Ok ctx ->
  Loading.files ctx = [] /\ Loading.totalTokens ctx = 0.
Proof.
  intros Hinc Hbad H. unfold BreadthFirst.loadContext in H. cbv zeta in H.
  bind_inv H st Hst. bind_inv H structure Hstructure.
  rewrite outcome_ret in H. inversion H; subst ctx.
  cbn [Loading.files Loading.totalTokens].
  apply levelsLoop_nothing in Hst.
  - rewrite Hst. split; reflexivity.
  - intros entry.
    exact (invalid_include_never_accepts fs pf options pattern rest entry
             Hinc Hbad).
Qed.

(** X29, witness: the project with one source file, and the pattern [[]. *)
Lemma invalid_include_pattern_loads_nothing_witness :
  exists ctx,
    Fs.outcome
      (BreadthFirst.loadContext Fixtures.indexFs Samples.strictPlatform
         (lit "/p") Samples.bracketInclude) = Ok ctx
    /\ Loading.files ctx = [] /\ Loading.totalTokens ctx = 0.
Proof.
  eexists. split; [reflexivity|].
  apply (invalid_include_pattern_loads_nothing Fixtures.indexFs
           Samples.strictPlatform (lit "/p") Samples.bracketInclude
           (lit "[") []).
  - reflexivity.
  - intros text. reflexivity.
  - reflexivity.
Defined.
